(** * Thalionyx: fragment store and pattern / recommendation engine

    A shallow embedding of
      - [client/src/types/reflection.ts]        (the data model),
      - the [IndexedDBManager] class            (fragment store; then the
                                                 sessions and patterns stores),
      - the [PatternRecognitionEngine] class    (insights and recommendations),
      - the [useReflection] store               (the controller that drives
                                                 both), and
      - two helpers of the reflection screen,
    followed by the properties established about them.

    Conventions of the embedding.
      - A JavaScript [number] is an exact rational ([Q]); rounding of IEEE
        doubles is not modelled.  Exact and double arithmetic can part where a
        value falls on a boundary: a slope of exactly 1/10 is not above 0.1
        here, a slope of 7/40 prints as "0.18" here, and 0.75 * 0.8 ties with
        0.6 here, while doubles may land just beside.  [Math.sqrt] has no
        rational counterpart and is a parameter of the engine.
      - String-literal unions that the code joins, searches or compares with
        plain strings ([EmotionType], [MoodType]) are strings, as at run time.
      - A field typed [Blob] is [option Blob]: the store itself writes [null]
        into it (metadata records) and reads [null] back (missing payloads).
      - An IndexedDB object store is a finite map from key to record; a request
        either succeeds or fires [onerror], as decided by a fault predicate.
      - [Date.now()] and [Math.random()] are oracles indexed by the number of
        calls made so far. *)

From Stdlib Require Import QArith Qround Qabs Qminmax Lqa ZArith String Ascii List Sorted DecimalString.
From stdpp Require Import gmap strings list fin_maps.

Local Open Scope string_scope.
Local Open Scope list_scope.

(** ** Data model ([types/reflection.ts]) *)

Definition Blob : Type := list Byte.byte.

Inductive FilterType :=
  | vintage | warm | cool | high_contrast | soft_focus | mirror
  | kaleidoscope | particle_overlay | dreamy | crystalline | flowing | geometric.

Inductive ResponseType := answer | continuation | challenge.

Inductive InsightType :=
  | emotional_cycle | trigger_pattern | growth_trend | resonance_cluster.

Inductive RecommendationType :=
  | mood_match | pattern_completion | contrast_learning | growth_opportunity.

Record EmotionTag := {
  emotion : string;
  intensity : Q;
  confidence : Q;
  tag_timestamp : Q
}.

Record FragmentRating := {
  rating_id : string;
  fragmentId : string;
  helpful : bool;
  resonance : Q;
  rating_timestamp : Q;
  context : option string
}.

Record FragmentMetadata := {
  mood : string;
  energy : Q;
  clarity : Q;
  facialExpression : option string;
  voiceTone : option string;
  keywords : list string
}.

Record FragmentVariation := {
  variation_id : string;
  variation_parentId : string;
  filterType : FilterType;
  filterSettings : list (string * string);
  variation_blob : option Blob;
  variation_timestamp : Q
}.

Record ResponseFragment := {
  response_id : string;
  response_parentId : string;
  response_blob : option Blob;
  response_timestamp : Q;
  responseType : ResponseType;
  response_notes : option string
}.

Record VideoFragment := {
  fragment_id : string;
  timestamp : Q;
  duration : Q;
  blob : option Blob;
  thumbnail : option string;
  tags : list EmotionTag;
  title : option string;
  notes : option string;
  variations : list FragmentVariation;
  responses : list ResponseFragment;
  ratings : list FragmentRating;
  metadata : FragmentMetadata
}.

Record PatternInsight := {
  insight_id : string;
  insight_type : InsightType;
  description : string;
  insight_confidence : Q;
  relatedFragments : list string;
  insight_timestamp : Q
}.

Record RecommendationMatch := {
  rec_fragmentId : string;
  score : Q;
  reason : string;
  rec_type : RecommendationType
}.

(** Functional record updates, for the assignments [x.blob = ...] and the
    spreads [{...x, blob: ...}] of the store. *)

Definition variation_with_blob (v : FragmentVariation) (b : option Blob) : FragmentVariation :=
  {| variation_id := variation_id v;
     variation_parentId := variation_parentId v;
     filterType := filterType v;
     filterSettings := filterSettings v;
     variation_blob := b;
     variation_timestamp := variation_timestamp v |}.

Definition response_with_blob (r : ResponseFragment) (b : option Blob) : ResponseFragment :=
  {| response_id := response_id r;
     response_parentId := response_parentId r;
     response_blob := b;
     response_timestamp := response_timestamp r;
     responseType := responseType r;
     response_notes := response_notes r |}.

Definition fragment_with_blobs (f : VideoFragment) (b : option Blob)
    (vs : list FragmentVariation) (rs : list ResponseFragment) : VideoFragment :=
  {| fragment_id := fragment_id f;
     timestamp := timestamp f;
     duration := duration f;
     blob := b;
     thumbnail := thumbnail f;
     tags := tags f;
     title := title f;
     notes := notes f;
     variations := vs;
     responses := rs;
     ratings := ratings f;
     metadata := metadata f |}.

(** ** The fragment store ([IndexedDBManager]) *)

Module Store.

(** The requests the manager issues; each one may fire [onerror]. *)
Inductive Request :=
  | PutFragment (key : string)
  | GetFragment (key : string)
  | GetAllFragments
  | DeleteFragment (key : string)
  | PutBlob (key : string)
  | GetBlob (key : string)
  | DeleteBlob (key : string).

Inductive Error :=
  | NotInitialized                (* new Error('Database not initialized') *)
  | NullDatabase                  (* this.db! dereferenced while null *)
  | RequestError (r : Request).   (* reject(request.error) *)

Inductive Result (A : Type) :=
  | Ok (a : A)
  | Err (e : Error).
Arguments Ok {A} a.
Arguments Err {A} e.

(** The two object stores the fragment operations touch.  [fragments] has
    key path [id]; [videoBlobs] holds the records [{ id, blob }]. *)
Record Database := {
  fragments : gmap string VideoFragment;
  videoBlobs : gmap string (option Blob)
}.

(** [this.db]: [None] until [init] has resolved. *)
Definition Manager : Type := option Database.

(** Store operations: the manager state goes in, a result and the new state
    come out. *)
Definition Op (A : Type) : Type := Manager -> Result A * Manager.

Definition ret {A} (a : A) : Op A := fun st => (Ok a, st).
Definition bind {A B} (m : Op A) (k : A -> Op B) : Op B :=
  fun st => match m st with
            | (Ok a, st') => k a st'
            | (Err e, st') => (Err e, st')
            end.

Notation "'let*' x ':=' m 'in' k" := (bind m (fun x => k))
  (at level 10, x name, m at level 100, k at level 200).
Notation "m ';;' k" := (bind m (fun _ => k))
  (at level 100, k at level 200, right associativity).

(** [for (const x of xs) { await body(x) }] *)
Fixpoint forEach {A} (body : A -> Op unit) (xs : list A) : Op unit :=
  match xs with
  | [] => ret tt
  | x :: xs' => body x ;; forEach body xs'
  end.

(** [for (const x of xs) { x.blob = await body(x) }], collecting the updated
    elements. *)
Fixpoint mapM {A B} (body : A -> Op B) (xs : list A) : Op (list B) :=
  match xs with
  | [] => ret []
  | x :: xs' => let* y := body x in let* ys := mapM body xs' in ret (y :: ys)
  end.

(** Insertion of a record into a list kept in ascending key order. *)
Fixpoint insertKey {V} (kv : string * V) (l : list (string * V)) : list (string * V) :=
  match l with
  | [] => [kv]
  | kv' :: l' => if String.leb (fst kv) (fst kv') then kv :: l
                 else kv' :: insertKey kv l'
  end.

(** [IDBObjectStore.getAll()] returns the records in ascending key order. *)
Definition recordsByKey {V} (m : gmap string V) : list V :=
  List.map snd (List.fold_right insertKey [] (map_to_list m)).

Section Operations.

(** [fails r] holds when the request [r] ends in [onerror]. *)
Variable fails : Request -> bool.

(** One request against [this.db!]: a null database is a dereference error,
    a failing request rejects and leaves the database as it was. *)
Definition request {A} (r : Request) (run : Database -> A * Database) : Op A :=
  fun st => match st with
            | None => (Err NullDatabase, None)
            | Some d => if fails r then (Err (RequestError r), Some d)
                        else let (a, d') := run d in (Ok a, Some d')
            end.

(** [if (!this.db) throw new Error('Database not initialized')] *)
Definition checkInitialized : Op unit :=
  fun st => match st with
            | None => (Err NotInitialized, None)
            | Some d => (Ok tt, Some d)
            end.

Definition saveVideoBlob (id : string) (b : option Blob) : Op unit :=
  request (PutBlob id)
    (fun d => (tt, {| fragments := fragments d;
                      videoBlobs := <[id := b]> (videoBlobs d) |})).

(** [request.result?.blob || null] *)
Definition getVideoBlob (id : string) : Op (option Blob) :=
  request (GetBlob id)
    (fun d => (match videoBlobs d !! id with
               | Some (Some b) => Some b
               | _ => None
               end, d)).

Definition deleteVideoBlob (id : string) : Op unit :=
  request (DeleteBlob id)
    (fun d => (tt, {| fragments := fragments d;
                      videoBlobs := delete id (videoBlobs d) |})).

(** The metadata record written by [saveFragment]: every blob replaced by
    [null]. *)
Definition fragmentToSave (f : VideoFragment) : VideoFragment :=
  fragment_with_blobs f None
    (List.map (fun v => variation_with_blob v None) (variations f))
    (List.map (fun r => response_with_blob r None) (responses f)).

Definition saveFragment (f : VideoFragment) : Op unit :=
  checkInitialized ;;
  saveVideoBlob (fragment_id f) (blob f) ;;
  forEach (fun v => saveVideoBlob (variation_id v) (variation_blob v)) (variations f) ;;
  forEach (fun r => saveVideoBlob (response_id r) (response_blob r)) (responses f) ;;
  request (PutFragment (fragment_id f))
    (fun d => (tt, {| fragments := <[fragment_id f := fragmentToSave f]> (fragments d);
                      videoBlobs := videoBlobs d |})).

(** The "Restore video blobs" block shared by [getFragment] and
    [getAllFragments]. *)
Definition restoreBlobs (m : VideoFragment) : Op VideoFragment :=
  let* b := getVideoBlob (fragment_id m) in
  let* vs := mapM (fun v => let* vb := getVideoBlob (variation_id v) in
                       ret (variation_with_blob v vb)) (variations m) in
  let* rs := mapM (fun r => let* rb := getVideoBlob (response_id r) in
                       ret (response_with_blob r rb)) (responses m) in
  ret (fragment_with_blobs m b vs rs).

Definition getFragment (id : string) : Op (option VideoFragment) :=
  checkInitialized ;;
  let* found := request (GetFragment id) (fun d => (fragments d !! id, d)) in
  match found with
  | None => ret None
  | Some m => let* f := restoreBlobs m in ret (Some f)
  end.

(** The restores run under [Promise.all]; whether a request fails does not
    depend on the order they are issued in, so they are taken one fragment
    after the other. *)
Definition getAllFragments : Op (list VideoFragment) :=
  checkInitialized ;;
  let* all := request GetAllFragments (fun d => (recordsByKey (fragments d), d)) in
  mapM restoreBlobs all.

Definition deleteFragment (id : string) : Op unit :=
  checkInitialized ;;
  let* found := getFragment id in
  match found with
  | None => ret tt
  | Some f =>
      deleteVideoBlob id ;;
      forEach (fun v => deleteVideoBlob (variation_id v)) (variations f) ;;
      forEach (fun r => deleteVideoBlob (response_id r)) (responses f) ;;
      request (DeleteFragment id)
        (fun d => (tt, {| fragments := delete id (fragments d);
                          videoBlobs := videoBlobs d |}))
  end.

End Operations.

(** No request fails. *)
Definition noFaults : Request -> bool := fun _ => false.

(** The ids under which the payloads of a fragment are kept, with the
    payload each one carries: its own, each variation's, each response's. *)
Definition payloads (f : VideoFragment) : list (string * option Blob) :=
  (fragment_id f, blob f)
  :: List.map (fun v => (variation_id v, variation_blob v)) (variations f)
  ++ List.map (fun r => (response_id r, response_blob r)) (responses f).

Definition payloadIds (f : VideoFragment) : list string :=
  List.map fst (payloads f).

End Store.

(** ** JavaScript library functions used by the engine *)

Module Js.

Local Open Scope Q_scope.

(** Comparisons on numbers. *)
Definition gt (a b : Q) : bool := negb (Qle_bool a b).   (* a > b *)
Definition ge (a b : Q) : bool := Qle_bool b a.          (* a >= b *)

Definition ofNat (n : nat) : Q := inject_Z (Z.of_nat n).

(** [xs.reduce(f)] without an initial value; [None] where JavaScript throws
    (empty array). *)
Definition reduce1 {A} (f : A -> A -> A) (xs : list A) : option A :=
  match xs with
  | [] => None
  | x :: xs' => Some (fold_left f xs' x)
  end.

(** [xs.reduce((sum, v) => sum + v, 0)] *)
Definition sum (xs : list Q) : Q := fold_left Qplus xs 0.

(** [xs.slice(i, j)] for [0 <= i]. *)
Definition slice {A} (i j : nat) (xs : list A) : list A :=
  firstn (j - i) (skipn i xs).

(** [xs.includes(s)] on an array of strings. *)
Definition includes (xs : list string) (s : string) : bool :=
  existsb (String.eqb s) xs.

(** [s.includes(sub)] on strings. *)
Definition str_includes (s sub : string) : bool :=
  match String.index 0 sub s with
  | Some _ => true
  | None => false
  end.

(** [s.replace(/c/g, by)] for a one-character pattern. *)
Fixpoint replaceAll (c : ascii) (by_ : string) (s : string) : string :=
  match s with
  | EmptyString => EmptyString
  | String a s' =>
      if Ascii.eqb a c then by_ ++ replaceAll c by_ s'
      else String a (replaceAll c by_ s')
  end.

(** [xs.sort(cmp)]: the sort is stable, and for a consistent comparator its
    result is the stable ordering, which insertion from the right computes. *)
Fixpoint insertSorted {A} (cmp : A -> A -> Q) (x : A) (l : list A) : list A :=
  match l with
  | [] => [x]
  | y :: l' => if Qle_bool (cmp x y) 0 then x :: l
               else y :: insertSorted cmp x l'
  end.

Definition sort {A} (cmp : A -> A -> Q) (xs : list A) : list A :=
  fold_right (insertSorted cmp) [] xs.

(** [Map<string, V>]: entries in insertion order; [set] on a present key
    keeps its position. *)
Definition Map (V : Type) : Type := list (string * V).

Fixpoint Map_get {V} (m : Map V) (k : string) : option V :=
  match m with
  | [] => None
  | (k', v) :: m' => if String.eqb k' k then Some v else Map_get m' k
  end.

Fixpoint Map_set {V} (m : Map V) (k : string) (v : V) : Map V :=
  match m with
  | [] => [(k, v)]
  | (k', v') :: m' => if String.eqb k' k then (k', v) :: m'
                      else (k', v') :: Map_set m' k v
  end.

(** Decimal text of an integer, as a template literal prints it. *)
Definition showZ (z : Z) : string := NilZero.string_of_int (Z.to_int z).

(** [Math.round]: nearest integer, ties towards plus infinity. *)
Definition Math_round (x : Q) : Z := Qfloor (x + (1 # 2)).

(** [Math.ceil] *)
Definition Math_ceil (x : Q) : Z := Qceiling x.

(** [x.toFixed(2)]: the nearest multiple of 1/100 (the larger one on a tie),
    printed with two decimals; a negative [x] is printed as ["-"] followed by
    the text of [-x]. *)
Definition pad2 (s : string) : string :=
  match s with
  | String a EmptyString => String "0" (String a EmptyString)
  | _ => s
  end.

Definition toFixed2 (x : Q) : string :=
  let n := Qfloor (Qabs x * 100 + (1 # 2)) in
  (if negb (Qle_bool 0 x) then "-" else "")%string
  ++ showZ (n / 100) ++ "." ++ pad2 (showZ (n mod 100)).

End Js.

(** ** The pattern and recommendation engine ([PatternRecognitionEngine]) *)

Module Engine.

Import Js.
Local Open Scope Q_scope.

(** What the engine takes from its host: the clock, the random generator
    (only ever interpolated into an id, so it is kept as the text a template
    literal prints) and the square root. *)
Record Host := {
  Date_now : nat -> Z;
  Math_random : nat -> string;
  Math_sqrt : Q -> Q
}.

(** How many times the clock and the generator have been read so far. *)
Record Calls := {
  clockReads : nat;
  randomDraws : nat
}.

Definition Run (A : Type) : Type := Calls -> A * Calls.

Definition pure {A} (a : A) : Run A := fun c => (a, c).
Definition andThen {A B} (m : Run A) (k : A -> Run B) : Run B :=
  fun c => let (a, c') := m c in k a c'.

Notation "'let*' x ':=' m 'in' k" := (andThen m (fun x => k))
  (at level 10, x name, m at level 100, k at level 200).

Fixpoint mapRun {A B} (body : A -> Run B) (xs : list A) : Run (list B) :=
  match xs with
  | [] => pure []
  | x :: xs' => let* y := body x in let* ys := mapRun body xs' in pure (y :: ys)
  end.

(** [xs.forEach(x => { if (cond) insights.push(make(x)) })] *)
Fixpoint pushEach {A B} (body : A -> Run (list B)) (xs : list A) : Run (list B) :=
  match xs with
  | [] => pure []
  | x :: xs' => let* ys := body x in let* zs := pushEach body xs' in pure (ys ++ zs)
  end.

Record EmotionSeq := {
  seq_emotion : string;
  seq_timestamp : Q;
  seq_fragmentId : string
}.

Record Transition := {
  from : string;
  to : string;
  timeDiff : Q;
  fragmentIds : string * string
}.

Record Trend := {
  slope : Q;
  correlation : Q
}.

(** The separator written into cycle descriptions, byte for byte. *)
Definition arrow : string :=
  String " " (String "195" (String "162" (String "226" (String "128"
  (String "160" (String "226" (String "128" (String "153" (String " "
  EmptyString))))))))).

(** [tags.reduce((max, tag) => tag.intensity > max.intensity ? tag : max)] *)
Definition dominantEmotion (ts : list EmotionTag) : option EmotionTag :=
  reduce1 (fun max tag => if gt (intensity tag) (intensity max) then tag else max) ts.

Section WithHost.

Variable host : Host.

Definition now : Run Z :=
  fun c => (Date_now host (clockReads c),
            {| clockReads := S (clockReads c); randomDraws := randomDraws c |}).

Definition random : Run string :=
  fun c => (Math_random host (randomDraws c),
            {| clockReads := clockReads c; randomDraws := S (randomDraws c) |}).

(** *** Emotional cycles *)

Definition emotionSequences (fragments : list VideoFragment) : list EmotionSeq :=
  flat_map (fun fragment =>
              match dominantEmotion (tags fragment) with
              | Some dominant =>
                  [ {| seq_emotion := emotion dominant;
                       seq_timestamp := timestamp fragment;
                       seq_fragmentId := fragment_id fragment |} ]
              | None => []
              end) fragments.

Definition patternLength : nat := 3.

(** The counting loop: [i] runs from [0] to [length - patternLength]. *)
Definition emotionCycles (seqs : list EmotionSeq) : Map nat :=
  fold_left
    (fun cycles i =>
       let pattern :=
         String.concat "-"
           (List.map seq_emotion (slice i (i + patternLength) seqs)) in
       Map_set cycles pattern
         (match Map_get cycles pattern with Some n => n | None => O end + 1)%nat)
    (seq 0 (length seqs + 1 - patternLength))
    [].

Definition cycleRelated (seqs : list EmotionSeq) (pattern : string) : list string :=
  List.map seq_fragmentId
    (List.filter (fun s => str_includes pattern (seq_emotion s)) seqs).

Definition cycleDescription (pattern : string) : string :=
  "Recurring emotional pattern: " ++ replaceAll "-" arrow pattern.

Definition detectEmotionalCycles (fragments : list VideoFragment)
  : Run (list PatternInsight) :=
  let seqs := emotionSequences fragments in
  pushEach
    (fun '(pattern, count) =>
       if (2 <=? count)%nat then
         let* t := now in
         let* r := random in
         let* t' := now in
         pure [ {| insight_id := "cycle-" ++ showZ t ++ "-" ++ r;
                  insight_type := emotional_cycle;
                  description := cycleDescription pattern;
                  insight_confidence :=
                    Qmin (ofNat count / ofNat (length fragments)) 0.9;
                  relatedFragments := cycleRelated seqs pattern;
                  insight_timestamp := inject_Z t' |} ]
       else pure [])
    (emotionCycles seqs).

(** *** Trigger patterns *)

(** The transition loop: [i] runs over the adjacent pairs
    [(fragments[i], fragments[i + 1])]. *)
Definition emotionTransitions (fragments : list VideoFragment) : list Transition :=
  flat_map
    (fun '(current, next) =>
       match dominantEmotion (tags current), dominantEmotion (tags next) with
       | Some currentEmotion, Some nextEmotion =>
           if negb (String.eqb (emotion currentEmotion) (emotion nextEmotion)) then
             [ {| from := emotion currentEmotion;
                  to := emotion nextEmotion;
                  timeDiff := timestamp next - timestamp current;
                  fragmentIds := (fragment_id current, fragment_id next) |} ]
           else []
       | _, _ => []
       end)
    (combine fragments (tl fragments)).

Definition transitionGroups (ts : list Transition) : Map (list Transition) :=
  fold_left
    (fun groups transition =>
       let key := (from transition ++ "->" ++ to transition)%string in
       Map_set groups key
         (match Map_get groups key with Some g => g | None => [] end
          ++ [transition]))
    ts [].

Definition detectTriggerPatterns (fragments : list VideoFragment)
  : Run (list PatternInsight) :=
  pushEach
    (fun '(key, transitions) =>
       if (2 <=? length transitions)%nat then
         let avgTimeDiff :=
           sum (List.map timeDiff transitions) / ofNat (length transitions) in
         let* t := now in
         let* r := random in
         let* t' := now in
         pure [ {| insight_id := "trigger-" ++ showZ t ++ "-" ++ r;
                  insight_type := trigger_pattern;
                  description :=
                    "Frequent emotional shift: " ++ key ++ " (avg "
                    ++ showZ (Math_round (avgTimeDiff / 60000))
                    ++ " minutes apart)";
                  insight_confidence :=
                    Qmin (ofNat (length transitions) / 5) 0.8;
                  relatedFragments :=
                    flat_map (fun t0 => [fst (fragmentIds t0); snd (fragmentIds t0)])
                      transitions;
                  insight_timestamp := inject_Z t' |} ]
       else pure [])
    (transitionGroups (emotionTransitions fragments)).

(** *** Growth trends *)

(** Least-squares slope and correlation of [values] over their indices.  When
    the square root is zero the quotient is [NaN], which [|| 0] turns into 0. *)
Definition calculateTrend (values : list Q) : Trend :=
  if (length values <? 2)%nat then {| slope := 0; correlation := 0 |}
  else
    let n := ofNat (length values) in
    let x := List.map ofNat (seq 0 (length values)) in
    let meanX := sum x / n in
    let meanY := sum values / n in
    let '(numerator, denominatorX, denominatorY) :=
      fold_left
        (fun '(num, dx, dy) '(xi, vi) =>
           let deltaX := xi - meanX in
           let deltaY := vi - meanY in
           (num + deltaX * deltaY, dx + deltaX * deltaX, dy + deltaY * deltaY))
        (combine x values) (0, 0, 0) in
    let root := Math_sqrt host (denominatorX * denominatorY) in
    {| slope := if negb (Qeq_bool denominatorX 0)
                then numerator / denominatorX else 0;
       correlation := if Qeq_bool root 0 then 0
                      else Qabs (numerator / root) |}.

Definition detectGrowthTrends (fragments : list VideoFragment)
  : Run (list PatternInsight) :=
  if (length fragments <? 5)%nat then pure []
  else
    let clarityTrend :=
      calculateTrend (List.map (fun f => clarity (metadata f)) fragments) in
    let energyTrend :=
      calculateTrend (List.map (fun f => energy (metadata f)) fragments) in
    let* clarityInsights :=
      if gt (slope clarityTrend) 0.1 then
        let* t := now in
        let* t' := now in
        pure [ {| insight_id := "growth-clarity-" ++ showZ t;
                 insight_type := growth_trend;
                 description :=
                   "Increasing self-clarity over time ("
                   ++ toFixed2 (slope clarityTrend) ++ " improvement rate)";
                 insight_confidence := correlation clarityTrend;
                 relatedFragments := List.map fragment_id fragments;
                 insight_timestamp := inject_Z t' |} ]
      else pure [] in
    let* energyInsights :=
      if gt (slope energyTrend) 0.1 then
        let* t := now in
        let* t' := now in
        pure [ {| insight_id := "growth-energy-" ++ showZ t;
                 insight_type := growth_trend;
                 description :=
                   "Increasing energy levels over time ("
                   ++ toFixed2 (slope energyTrend) ++ " improvement rate)";
                 insight_confidence := correlation energyTrend;
                 relatedFragments := List.map fragment_id fragments;
                 insight_timestamp := inject_Z t' |} ]
      else pure [] in
    pure (clarityInsights ++ energyInsights).

(** *** Resonance clusters *)

Definition avgRating (fragment : VideoFragment) (default : Q) : Q :=
  if (0 <? length (ratings fragment))%nat
  then sum (List.map resonance (ratings fragment)) / ofNat (length (ratings fragment))
  else default.

Definition findCommonEmotions (fragments : list VideoFragment) : list string :=
  let emotionCounts : Map nat :=
    fold_left
      (fun counts fragment =>
         fold_left
           (fun counts' tag =>
              Map_set counts' (emotion tag)
                (match Map_get counts' (emotion tag) with Some n => n | None => O end + 1)%nat)
           (tags fragment) counts)
      fragments [] in
  let threshold := Math_ceil (ofNat (length fragments) * 0.6) in
  List.map fst
    (List.filter (fun '(_, count) => (threshold <=? Z.of_nat count)%Z) emotionCounts).

Definition findCommonMoods (fragments : list VideoFragment) : list string :=
  let moodCounts : Map nat :=
    fold_left
      (fun counts fragment =>
         let mood := mood (metadata fragment) in
         Map_set counts mood
           (match Map_get counts mood with Some n => n | None => O end + 1)%nat)
      fragments [] in
  let threshold := Math_ceil (ofNat (length fragments) * 0.5) in
  List.map fst
    (List.filter (fun '(_, count) => (threshold <=? Z.of_nat count)%Z) moodCounts).

Definition highRatedFragments (fragments : list VideoFragment) : list VideoFragment :=
  List.filter (fun fragment => ge (avgRating fragment 0) 4) fragments.

Definition detectResonanceClusters (fragments : list VideoFragment)
  : Run (list PatternInsight) :=
  let highRated := highRatedFragments fragments in
  if (3 <=? length highRated)%nat then
    let commonEmotions := findCommonEmotions highRated in
    let commonMoods := findCommonMoods highRated in
    let* emotionInsights :=
      if (0 <? length commonEmotions)%nat then
        let* t := now in
        let* t' := now in
        pure [ {| insight_id := "resonance-emotions-" ++ showZ t;
                 insight_type := resonance_cluster;
                 description :=
                   "Strong resonance with " ++ String.concat ", " commonEmotions
                   ++ " emotional states";
                 insight_confidence := 0.8;
                 relatedFragments := List.map fragment_id highRated;
                 insight_timestamp := inject_Z t' |} ]
      else pure [] in
    let* moodInsights :=
      if (0 <? length commonMoods)%nat then
        let* t := now in
        let* t' := now in
        pure [ {| insight_id := "resonance-moods-" ++ showZ t;
                 insight_type := resonance_cluster;
                 description :=
                   "Consistent positive response to " ++ String.concat ", " commonMoods
                   ++ " moods";
                 insight_confidence := 0.7;
                 relatedFragments := List.map fragment_id highRated;
                 insight_timestamp := inject_Z t' |} ]
      else pure [] in
    pure (emotionInsights ++ moodInsights)
  else pure [].

(** *** Analysis *)

Definition analyzeEmotionalPatterns (fragments : list VideoFragment)
  : Run (list PatternInsight) :=
  let sortedFragments := sort (fun a b => timestamp a - timestamp b) fragments in
  let* cyclicPatterns := detectEmotionalCycles sortedFragments in
  let* triggerPatterns := detectTriggerPatterns sortedFragments in
  let* growthTrends := detectGrowthTrends sortedFragments in
  let* resonanceClusters := detectResonanceClusters fragments in
  pure (cyclicPatterns ++ triggerPatterns ++ growthTrends ++ resonanceClusters).

(** *** Recommendations *)

Definition someHelpful (f : VideoFragment) : bool :=
  existsb helpful (ratings f).

Definition calculateMoodScore (fragment : VideoFragment) : Run Q :=
  let avg := avgRating fragment 3 in
  let helpfulCount := length (List.filter helpful (ratings fragment)) in
  let* t := now in
  let recency :=
    Qmax 0 (1 - (inject_Z t - timestamp fragment)
                / (30 * 24 * 60 * 60 * 1000)) in
  pure ((avg / 5) * 0.4
       + (ofNat helpfulCount / ofNat (Nat.max (length (ratings fragment)) 1)) * 0.4
       + recency * 0.2).

Definition findPatternCompletions (currentMood : string)
    (fragments : list VideoFragment) (patterns : list PatternInsight)
  : list RecommendationMatch :=
  flat_map
    (fun pattern =>
       match insight_type pattern with
       | emotional_cycle =>
           if gt (insight_confidence pattern) 0.6 then
             List.map
               (fun fragment =>
                  {| rec_fragmentId := fragment_id fragment;
                     score := insight_confidence pattern * 0.8;
                     reason := "Part of a recognized emotional pattern: "
                               ++ description pattern;
                     rec_type := pattern_completion |})
               (List.filter
                  (fun f => includes (relatedFragments pattern) (fragment_id f)
                            && someHelpful f)
                  fragments)
           else []
       | _ => []
       end)
    patterns.

(** The table of opposites, an object used as a map.  Properties inherited
    from [Object.prototype] are not modelled: for a mood that names one
    ("constructor", "__proto__", ...) the code finds something else than an
    array of emotions and may throw where the lookup below finds nothing. *)
Definition emotionOpposites : gmap string (list string) :=
  list_to_map
    [ ("anxious", ["calm"; "peaceful"]);
      ("sad", ["happy"; "hopeful"]);
      ("angry", ["calm"; "peaceful"]);
      ("confused", ["confident"; "clear"]);
      ("overwhelmed", ["calm"; "focused"]);
      ("frustrated", ["patient"; "understanding"]);
      ("lonely", ["connected"; "grateful"]) ].

Definition findContrastLearning (currentMood : string)
    (fragments : list VideoFragment) : list RecommendationMatch :=
  let oppositeEmotions := default [] (emotionOpposites !! currentMood) in
  if (length oppositeEmotions =? 0)%nat then []
  else
    List.map
      (fun f =>
         {| rec_fragmentId := fragment_id f;
            score := 0.7;
            reason := "Offers a contrasting perspective that has been helpful in the past";
            rec_type := contrast_learning |})
      (List.filter
         (fun f =>
            let hasOppositeEmotion :=
              existsb (fun tag => includes oppositeEmotions (emotion tag)
                                  && ge (intensity tag) 6) (tags f) in
            let hasPositiveRating :=
              existsb (fun r => helpful r && ge (resonance r) 4) (ratings f) in
            hasOppositeEmotion && hasPositiveRating)
         fragments).

Definition findGrowthOpportunities (fragments : list VideoFragment)
    (patterns : list PatternInsight) : list RecommendationMatch :=
  let inspirationalFragments :=
    slice 0 3
      (sort (fun a b => (clarity (metadata b) + energy (metadata b))
                        - (clarity (metadata a) + energy (metadata a)))
         (List.filter
            (fun f => (ge (clarity (metadata f)) 8 || ge (energy (metadata f)) 8)
                      && someHelpful f)
            fragments)) in
  List.map
    (fun fragment =>
       {| rec_fragmentId := fragment_id fragment;
          score := 0.6;
          reason := "High clarity/energy fragment that could inspire growth";
          rec_type := growth_opportunity |})
    inspirationalFragments.

Definition generateRecommendations (currentMood : string)
    (fragments : list VideoFragment) (patterns : list PatternInsight)
  : Run (list RecommendationMatch) :=
  let* moodMatches :=
    mapRun (fun f =>
            let* s := calculateMoodScore f in
            pure {| rec_fragmentId := fragment_id f;
                   score := s;
                   reason := "Matches your current " ++ currentMood
                             ++ " mood and has been helpful before";
                   rec_type := mood_match |})
      (List.filter
         (fun f => String.eqb (mood (metadata f)) currentMood && someHelpful f)
         fragments) in
  let patternMatches := findPatternCompletions currentMood fragments patterns in
  let contrastMatches := findContrastLearning currentMood fragments in
  let growthMatches := findGrowthOpportunities fragments patterns in
  let recommendations :=
    moodMatches ++ patternMatches ++ contrastMatches ++ growthMatches in
  pure (slice 0 10 (sort (fun a b => score b - score a) recommendations)).

End WithHost.

End Engine.

(** * Vocabulary of the statements *)

Module StoreSpec.

Import Store.

(** The blob store after the puts of [l], in order. *)
Definition writeBlobs (l : list (string * option Blob))
    (m : gmap string (option Blob)) : gmap string (option Blob) :=
  fold_left (fun m' kb => <[fst kb := snd kb]> m') l m.

(** What [getVideoBlob] resolves to on the blob store [m]. *)
Definition lookupBlob (m : gmap string (option Blob)) (id : string) : option Blob :=
  match m !! id with
  | Some (Some b) => Some b
  | _ => None
  end.

(** The metadata record [r] with every payload looked up in [m]. *)
Definition restored (m : gmap string (option Blob)) (r : VideoFragment) : VideoFragment :=
  fragment_with_blobs r (lookupBlob m (fragment_id r))
    (List.map (fun v => variation_with_blob v (lookupBlob m (variation_id v))) (variations r))
    (List.map (fun x => response_with_blob x (lookupBlob m (response_id x))) (responses r)).

(** The blob store after the deletes of [l], in order. *)
Definition deleteBlobs (l : list string)
    (m : gmap string (option Blob)) : gmap string (option Blob) :=
  fold_left (fun m' k => delete k m') l m.

(** No id is used for two different payloads. *)
Definition consistent (l : list (string * option Blob)) : Prop :=
  forall k b b', In (k, b) l -> In (k, b') l -> b = b'.

(** The payload ids that the metadata record [r] stored under the key [id]
    refers to: the key itself for its own payload, then its variations' and
    its responses' ids. *)
Definition referencedIds (id : string) (r : VideoFragment) : list string :=
  id :: List.map variation_id (variations r) ++ List.map response_id (responses r).

(** Every record of [fragments] sits under its own [id] (the key path). *)
Definition keyed (d : Database) : Prop :=
  forall k r, fragments d !! k = Some r -> fragment_id r = k.

End StoreSpec.

Module EngineSpec.

Import Js Engine.
Local Open Scope Q_scope.

(** The number of fragments that carry at least one tag for the emotion [e]
    (a fragment counts once, however many such tags it has). *)
Definition fragmentsCarrying (e : string) (fragments : list VideoFragment) : nat :=
  length (List.filter
            (fun f => existsb (fun tag => String.eqb (emotion tag) e) (tags f))
            fragments).

(** The dominant emotion of [f] is [e]. *)
Definition dominantIs (f : VideoFragment) (e : string) : Prop :=
  option_map emotion (dominantEmotion (tags f)) = Some e.

(** What an insight says, apart from its generated id and its timestamp. *)
Definition content (i : PatternInsight) : InsightType * string * Q * list string :=
  (insight_type i, description i, insight_confidence i, relatedFragments i).

(** The key and the number of members of each transition group. *)
Definition groupSizes (groups : Map (list Transition)) : list (string * nat) :=
  List.map (fun kg => (fst kg, length (snd kg))) groups.

Definition isCycle (i : PatternInsight) : bool :=
  match insight_type i with emotional_cycle => true | _ => false end.

Definition isTrigger (i : PatternInsight) : bool :=
  match insight_type i with trigger_pattern => true | _ => false end.

(** What the cycle insights found in time-sorted fragments say: one entry
    for each three-emotion pattern counted at least twice. *)
Definition cycleContents (fragments : list VideoFragment)
  : list (InsightType * string * Q * list string) :=
  let seqs := emotionSequences fragments in
  flat_map
    (fun '(pattern, count) =>
       if (2 <=? count)%nat then
         [ (emotional_cycle, cycleDescription pattern,
            Qmin (ofNat count / ofNat (length fragments)) 0.9,
            cycleRelated seqs pattern) ]
       else [])
    (emotionCycles seqs).

(** [a] may stand before [b] under the comparator [cmp]. *)
Definition ordered {A} (cmp : A -> A -> Q) (a b : A) : Prop := cmp a b <= 0.

(** Scores in non-increasing order. *)
Definition byScoreDescending (a b : RecommendationMatch) : Prop :=
  (score b <= score a)%Q.

End EngineSpec.

(** * Sample data *)

Module Samples.

Import Store.

Definition defaultMetadata : FragmentMetadata :=
  {| mood := "reflective"; energy := 5; clarity := 5;
     facialExpression := None; voiceTone := None; keywords := [] |}.

Definition blobA : Blob := [Byte.x01].
Definition blobB : Blob := [Byte.x02].

Definition mkVariation (id : string) (b : option Blob) : FragmentVariation :=
  {| variation_id := id; variation_parentId := "a"; filterType := warm;
     filterSettings := []; variation_blob := b; variation_timestamp := 0 |}.

Definition mkResponse (id : string) (b : option Blob) : ResponseFragment :=
  {| response_id := id; response_parentId := "a"; response_blob := b;
     response_timestamp := 0; responseType := answer; response_notes := None |}.

Definition mkStored (id : string) (b : option Blob)
    (vs : list FragmentVariation) (rs : list ResponseFragment) : VideoFragment :=
  {| fragment_id := id; timestamp := 0; duration := 1; blob := b;
     thumbnail := None; tags := []; title := None; notes := None;
     variations := vs; responses := rs; ratings := [];
     metadata := defaultMetadata |}.

(** A freshly initialized store. *)
Definition emptyStore : Manager := Some {| fragments := ∅; videoBlobs := ∅ |}.

(** A fragment with one variation and one response, all ids distinct. *)
Definition plain : VideoFragment :=
  mkStored "a" (Some blobA) [mkVariation "v1" (Some blobB)] [mkResponse "r1" (Some blobA)].

(** A fragment whose variation carries the fragment's own id. *)
Definition clash : VideoFragment :=
  mkStored "a" (Some blobA) [mkVariation "a" (Some blobB)] [].

(** A metadata record left without its payloads. *)
Definition orphaned : Database :=
  {| fragments := {[ "a" := mkStored "a" None [mkVariation "v1" None] [] ]};
     videoBlobs := ∅ |}.

(** The first version of a fragment, and a second version to save over it. *)
Definition version1 : VideoFragment := mkStored "a" (Some blobA) [] [].
Definition version2 : VideoFragment :=
  mkStored "a" (Some blobB) [mkVariation "v1" (Some blobB)] [].

(** The store holding [version1], and the same store after the payload of
    [version1] has been replaced by that of [version2]. *)
Definition stored1 : Database :=
  {| fragments := {[ "a" := fragmentToSave version1 ]};
     videoBlobs := {[ "a" := Some blobA ]} |}.
Definition stored1' : Database :=
  {| fragments := {[ "a" := fragmentToSave version1 ]};
     videoBlobs := <[ "a" := Some blobB ]> {[ "a" := Some blobA ]} |}.

(** The store holding [plain]. *)
Definition storedPlain : Database :=
  {| fragments := {[ "a" := fragmentToSave plain ]};
     videoBlobs := {[ "a" := Some blobA; "v1" := Some blobB; "r1" := Some blobA ]} |}.

(** The put of the payload ["v1"] fails, every other request succeeds. *)
Definition failsOnV1 (q : Request) : bool :=
  match q with
  | PutBlob k => String.eqb k "v1"
  | _ => false
  end.

End Samples.

Module EngineSamples.

Import Js Engine.
Local Open Scope Q_scope.

Definition mkTag (e : string) (i : Q) : EmotionTag :=
  {| emotion := e; intensity := i; confidence := 1; tag_timestamp := 0 |}.

Definition mkRating (h : bool) (r : Q) : FragmentRating :=
  {| rating_id := "rating"; fragmentId := "fragment"; helpful := h;
     resonance := r; rating_timestamp := 0; context := None |}.

(** A fragment as [stopRecording] creates it (mood "reflective", energy 5,
    clarity 5, no keywords), with the given id, time, clarity, tags and
    ratings. *)
Definition mkFragment (id : string) (t c : Q) (tg : list EmotionTag)
    (rt : list FragmentRating) : VideoFragment :=
  {| fragment_id := id; timestamp := t; duration := 1; blob := None;
     thumbnail := None; tags := tg; title := None; notes := None;
     variations := []; responses := []; ratings := rt;
     metadata := {| mood := "reflective"; energy := 5; clarity := c;
                    facialExpression := None; voiceTone := None;
                    keywords := [] |} |}.

Definition day : Q := 24 * 60 * 60 * 1000.

(** Five fragments, one a day, with clarity 3, 4, 5, 7, 9. *)
Definition clarityRising (id1 id2 id3 id4 id5 : string) : list VideoFragment :=
  [ mkFragment id1 (1 * day) 3 [] [];
    mkFragment id2 (2 * day) 4 [] [];
    mkFragment id3 (3 * day) 5 [] [];
    mkFragment id4 (4 * day) 7 [] [];
    mkFragment id5 (5 * day) 9 [] [] ].

(** Three well-rated fragments; only the first carries tags, two of them
    for the same emotion. *)
Definition resonant : list VideoFragment :=
  [ mkFragment "f1" 1 5 [mkTag "calm" 5; mkTag "calm" 3] [mkRating true 4];
    mkFragment "f2" 2 5 [] [mkRating true 5];
    mkFragment "f3" 3 5 [] [mkRating false 4] ].

(** Three fragments ten minutes apart tagged calm, anxious, calm. *)
Definition calmAnxiousCalm : list VideoFragment :=
  [ mkFragment "f1" 0 5 [mkTag "calm" 5] [];
    mkFragment "f2" 600000 5 [mkTag "anxious" 7; mkTag "calm" 2] [];
    mkFragment "f3" 1200000 5 [mkTag "calm" 5] [] ].

(** A helpful, fully resonant fragment dated thirty days after the clock. *)
Definition fromTheFuture : VideoFragment :=
  mkFragment "f1" (30 * day) 5 [] [mkRating true 5].

(** A host whose clock stands at [t]. *)
Definition hostAt (t : Z) : Host :=
  {| Date_now := fun _ => t; Math_random := fun _ => "0.5"; Math_sqrt := fun x => x |}.

Definition start : Calls := {| clockReads := 0; randomDraws := 0 |}.

End EngineSamples.

(** * Further vocabulary: the store *)

Module StoreMoreSpec.

Import Store StoreSpec.

(** The database once every request of [saveFragment f] has succeeded. *)
Definition afterSave (f : VideoFragment) (d : Database) : Database :=
  {| fragments := <[fragment_id f := fragmentToSave f]> (fragments d);
     videoBlobs := writeBlobs (payloads f) (videoBlobs d) |}.

(** The database once every request of [deleteFragment id] has succeeded,
    [r] being the record found under [id]. *)
Definition afterDelete (id : string) (r : VideoFragment) (d : Database) : Database :=
  {| fragments := delete id (fragments d);
     videoBlobs :=
       deleteBlobs (List.map response_id (responses r))
         (deleteBlobs (List.map variation_id (variations r))
            (delete id (videoBlobs d))) |}.

(** The outcome of an operation on an initialized store: the store stays
    initialized, and a failure is the failure of one of its requests. *)
Definition requestFailureOnly {A} (fails : Request -> bool)
    (run : Result A * Manager) : Prop :=
  (exists d', snd run = Some d')
  /\ match fst run with
     | Ok _ => True
     | Err e => exists q, e = RequestError q /\ fails q = true
     end.

End StoreMoreSpec.

Module MoreSamples.

Import Store.

(** The delete of the payload ["v1"] fails, every other request succeeds. *)
Definition failsOnDeleteV1 (q : Request) : bool :=
  match q with
  | DeleteBlob k => String.eqb k "v1"
  | _ => false
  end.

End MoreSamples.

(** ** The reflection screen ([ReflectionInterface]) *)

Module Interface.

Import Js.
Local Open Scope Q_scope.

(** [fragments.find(f => f.id === recommendation.fragmentId)] *)
Definition getRecommendedFragment (fragments : list VideoFragment)
    (recommendation : RecommendationMatch) : option VideoFragment :=
  List.find (fun f => String.eqb (fragment_id f) (rec_fragmentId recommendation))
    fragments.

(** [patterns.filter(p => p.confidence > 0.6)
             .sort((a, b) => b.timestamp - a.timestamp).slice(0, 3)] *)
Definition getRecentInsights (patterns : list PatternInsight) : list PatternInsight :=
  slice 0 3
    (sort (fun a b => insight_timestamp b - insight_timestamp a)
       (List.filter (fun pattern => gt (insight_confidence pattern) 0.6) patterns)).

End Interface.

(** * Further vocabulary: the engine *)

Module EngineMoreSpec.

Import Js Engine.
Local Open Scope Q_scope.

(** The moods for which the table of opposites has an entry. *)
Definition contrastMoods : list string :=
  ["anxious"; "sad"; "angry"; "confused"; "overwhelmed"; "frustrated"; "lonely"].

(** The names under which the table, a plain object, finds a property it
    inherits from [Object.prototype] (Annex B names included).  For these the
    lookup [emotionOpposites[currentMood]] is not undefined, and where what it
    finds has no [includes], [findContrastLearning] throws instead of
    returning; the model of the table does not cover them. *)
Definition inheritedProperties : list string :=
  [ "constructor"; "hasOwnProperty"; "isPrototypeOf"; "propertyIsEnumerable";
    "toLocaleString"; "toString"; "valueOf"; "__proto__";
    "__defineGetter__"; "__defineSetter__"; "__lookupGetter__";
    "__lookupSetter__" ].

(** What each kind of recommendation [m] says about the fragment [f] it
    points to. *)
Definition justified (currentMood : string) (patterns : list PatternInsight)
    (f : VideoFragment) (m : RecommendationMatch) : Prop :=
  match rec_type m with
  | mood_match => mood (metadata f) = currentMood
  | pattern_completion =>
      exists p, In p patterns /\ insight_type p = emotional_cycle
                /\ 0.6 < insight_confidence p
                /\ In (fragment_id f) (relatedFragments p)
                /\ score m = insight_confidence p * 0.8
  | contrast_learning =>
      score m = 0.7
      /\ exists opposites,
           emotionOpposites !! currentMood = Some opposites
           /\ (exists tag, In tag (tags f) /\ In (emotion tag) opposites
                           /\ 6 <= intensity tag)
           /\ (exists r, In r (ratings f) /\ helpful r = true /\ 4 <= resonance r)
  | growth_opportunity =>
      score m = 0.6
      /\ (8 <= clarity (metadata f) \/ 8 <= energy (metadata f))
  end.

(** The number of fragments whose mood is [m]. *)
Definition moodCount (m : string) (fragments : list VideoFragment) : nat :=
  length (List.filter (fun f => String.eqb (mood (metadata f)) m) fragments).

(** The number of tags for the emotion [e], over all fragments. *)
Definition tagCount (e : string) (fragments : list VideoFragment) : nat :=
  length (List.filter (fun tag => String.eqb (emotion tag) e)
            (flat_map tags fragments)).

(** The counting loop shared by [findCommonEmotions] and [findCommonMoods]:
    [counts.set(k, (counts.get(k) || 0) + 1)] for each key in turn. *)
Definition tally (keys : list string) (counts : Map nat) : Map nat :=
  fold_left
    (fun counts' k =>
       Map_set counts' k
         (match Map_get counts' k with Some n => n | None => O end + 1)%nat)
    keys counts.

(** Every related fragment of every insight is the id of one of [fragments]. *)
Definition forall_ids_known (insights : list PatternInsight)
    (fragments : list VideoFragment) : Prop :=
  Forall (fun i =>
            Forall (fun id => exists f, In f fragments /\ fragment_id f = id)
              (relatedFragments i))
    insights.

(** The range the confidence of an insight lies in, by kind. *)
Definition confidenceInRange (i : PatternInsight) : Prop :=
  match insight_type i with
  | emotional_cycle => 0 < insight_confidence i <= 0.9
  | trigger_pattern => 0.4 <= insight_confidence i <= 0.8
  | growth_trend => 0 <= insight_confidence i
  | resonance_cluster => insight_confidence i = 0.8 \/ insight_confidence i = 0.7
  end.

(** [EmotionType] and [MoodType], as [types/reflection.ts] lists them. *)
Definition emotionTypes : list string :=
  [ "calm"; "anxious"; "happy"; "sad"; "angry"; "confused";
    "motivated"; "tired"; "hopeful"; "frustrated"; "peaceful";
    "overwhelmed"; "confident"; "uncertain"; "grateful"; "lonely" ].

Definition moodTypes : list string :=
  [ "reflective"; "questioning"; "affirmative"; "exploratory";
    "supportive"; "challenging"; "nurturing"; "analytical" ].

(** The fragments are as their types declare them: every tag carries an
    [EmotionType], every mood is a [MoodType]. *)
Definition typedTags (fragments : list VideoFragment) : Prop :=
  forall f tag, In f fragments -> In tag (tags f) -> In (emotion tag) emotionTypes.

Definition typedMoods (fragments : list VideoFragment) : Prop :=
  forall f, In f fragments -> In (mood (metadata f)) moodTypes.

(** The fragment has a dominant tag and its emotion is one of [es]. *)
Definition dominantIn (es : list string) (f : VideoFragment) : bool :=
  match dominantEmotion (tags f) with
  | Some dominant => includes es (emotion dominant)
  | None => false
  end.

(** The pairs (mood, opposite) of the table of opposites whose opposite is
    an [EmotionType]. *)
Definition reachableOpposites : list (string * string) :=
  [ ("anxious", "calm"); ("anxious", "peaceful");
    ("sad", "happy"); ("sad", "hopeful");
    ("angry", "calm"); ("angry", "peaceful");
    ("confused", "confident");
    ("overwhelmed", "calm");
    ("lonely", "grateful") ].

(** Newest first. *)
Definition newerFirst (a b : PatternInsight) : Prop :=
  insight_timestamp b <= insight_timestamp a.

End EngineMoreSpec.

Module MoreEngineSamples.

Import Js Engine EngineSamples.
Local Open Scope Q_scope.

(** Five fragments a minute apart, tagged calm and anxious in turn. *)
Definition alternating : list VideoFragment :=
  [ mkFragment "f1" 0 5 [mkTag "calm" 5] [];
    mkFragment "f2" 60000 5 [mkTag "anxious" 7] [];
    mkFragment "f3" 120000 5 [mkTag "calm" 5] [];
    mkFragment "f4" 180000 5 [mkTag "anxious" 6] [];
    mkFragment "f5" 240000 5 [mkTag "calm" 4] [] ].

(** A calm fragment that helped, and one tagged outside [EmotionType]. *)
Definition calmHelped : VideoFragment :=
  mkFragment "f1" 0 5 [mkTag "calm" 8] [mkRating true 5].

Definition insightAt (id : string) (conf t : Q) : PatternInsight :=
  {| insight_id := id; insight_type := growth_trend; description := "";
     insight_confidence := conf; relatedFragments := []; insight_timestamp := t |}.

End MoreEngineSamples.

(** * The whole manager and the controller *)

(** ** Sessions and patterns ([IndexedDBManager], continued) *)

Module Manager.

Record ReflectionSession := {
  session_id : string;
  startTime : Q;
  endTime : option Q;
  session_fragments : list string;
  theme : option string;
  insights : list string;
  session_patterns : list PatternInsight
}.

(** The database on disk: the two object stores of the fragment operations
    and the stores [sessions] and [patterns], both with key path [id]. *)
Record Disk := {
  fragmentStores : Store.Database;
  sessions : gmap string ReflectionSession;
  patterns : gmap string PatternInsight
}.

(** The requests of the whole manager. *)
Inductive Request :=
  | Open                              (* indexedDB.open(DB_NAME, DB_VERSION) *)
  | OnFragments (q : Store.Request)   (* a request of the fragment operations *)
  | PutSession (key : string)
  | PutPattern (key : string)
  | GetAllPatterns.

(** What a rejected promise of the manager carries. *)
Inductive Failure :=
  | NotInitialized                  (* new Error('Database not initialized') *)
  | NullDatabase                    (* this.db! dereferenced while null *)
  | RequestFailed (r : Request).    (* reject(request.error) *)

Inductive Outcome (A : Type) :=
  | Resolved (a : A)
  | Rejected (e : Failure).
Arguments Resolved {A} a.
Arguments Rejected {A} e.

(** [this.db] is null until [init] has resolved; from then on it is the
    database on disk, which is there whether opened or not. *)
Record State := {
  opened : bool;
  disk : Disk
}.

Definition Task (A : Type) : Type := State -> Outcome A * State.

Definition with_fragmentStores (d : Store.Database) (st : State) : State :=
  {| opened := opened st;
     disk := {| fragmentStores := d;
                sessions := sessions (disk st);
                patterns := patterns (disk st) |} |}.

Definition with_sessions (m : gmap string ReflectionSession) (st : State) : State :=
  {| opened := opened st;
     disk := {| fragmentStores := fragmentStores (disk st);
                sessions := m;
                patterns := patterns (disk st) |} |}.

Definition with_patterns (m : gmap string PatternInsight) (st : State) : State :=
  {| opened := opened st;
     disk := {| fragmentStores := fragmentStores (disk st);
                sessions := sessions (disk st);
                patterns := m |} |}.

(** [this.db] as the fragment operations see it. *)
Definition handle (st : State) : Store.Manager :=
  if opened st then Some (fragmentStores (disk st)) else None.

Definition failure (e : Store.Error) : Failure :=
  match e with
  | Store.NotInitialized => NotInitialized
  | Store.NullDatabase => NullDatabase
  | Store.RequestError q => RequestFailed (OnFragments q)
  end.

(** A fragment operation run by the whole manager. *)
Definition onFragments {A} (op : Store.Op A) : Task A :=
  fun st =>
    let (r, m) := op (handle st) in
    (match r with
     | Store.Ok a => Resolved a
     | Store.Err e => Rejected (failure e)
     end,
     match m with
     | Some d => with_fragmentStores d st
     | None => st
     end).

Section Operations.

(** [fails r] holds when the request [r] ends in [onerror]. *)
Variable fails : Request -> bool.

Definition fragmentFaults : Store.Request -> bool :=
  fun q => fails (OnFragments q).

(** [init]: the stores are created on the first upgrade, empty; opening sets
    [this.db]. *)
Definition init : Task unit :=
  fun st =>
    if fails Open then (Rejected (RequestFailed Open), st)
    else (Resolved tt, {| opened := true; disk := disk st |}).

Definition saveFragment (f : VideoFragment) : Task unit :=
  onFragments (Store.saveFragment fragmentFaults f).

Definition getFragment (id : string) : Task (option VideoFragment) :=
  onFragments (Store.getFragment fragmentFaults id).

Definition getAllFragments : Task (list VideoFragment) :=
  onFragments (Store.getAllFragments fragmentFaults).

Definition deleteFragment (id : string) : Task unit :=
  onFragments (Store.deleteFragment fragmentFaults id).

Definition saveSession (session : ReflectionSession) : Task unit :=
  fun st =>
    if negb (opened st) then (Rejected NotInitialized, st)
    else if fails (PutSession (session_id session))
    then (Rejected (RequestFailed (PutSession (session_id session))), st)
    else (Resolved tt,
          with_sessions (<[session_id session := session]> (sessions (disk st))) st).

Definition savePattern (pattern : PatternInsight) : Task unit :=
  fun st =>
    if negb (opened st) then (Rejected NotInitialized, st)
    else if fails (PutPattern (insight_id pattern))
    then (Rejected (RequestFailed (PutPattern (insight_id pattern))), st)
    else (Resolved tt,
          with_patterns (<[insight_id pattern := pattern]> (patterns (disk st))) st).

Definition getPatterns : Task (list PatternInsight) :=
  fun st =>
    if negb (opened st) then (Rejected NotInitialized, st)
    else if fails GetAllPatterns then (Rejected (RequestFailed GetAllPatterns), st)
    else (Resolved (Store.recordsByKey (patterns (disk st))), st).

(** [Promise.all(patterns.map(p => savePattern(p)))]: every put is issued
    whatever becomes of the others; the promise rejects with the failure of
    the first one that fails. *)
Fixpoint saveAllPatterns (ps : list PatternInsight) (st : State)
  : Outcome unit * State :=
  match ps with
  | [] => (Resolved tt, st)
  | p :: ps' =>
      let (r, st1) := savePattern p st in
      let (r', st2) := saveAllPatterns ps' st1 in
      (match r with
       | Rejected e => Rejected e
       | Resolved _ => r'
       end, st2)
  end.

End Operations.

End Manager.

(** ** The controller ([useReflection]) *)

Module Controller.

Import Js Engine.
Local Open Scope Q_scope.

Inductive View := RecordView | LibraryView | ReflectView | PatternsView.

Record ReflectionState := {
  isRecording : bool;
  currentFragment : option VideoFragment;
  selectedFragment : option VideoFragment;
  currentSession : option Manager.ReflectionSession;
  fragments : list VideoFragment;
  patterns : list PatternInsight;
  recommendations : list RecommendationMatch;
  currentView : View;
  isLoading : bool;
  error : option string
}.

Definition initialState : ReflectionState :=
  {| isRecording := false; currentFragment := None; selectedFragment := None;
     currentSession := None; fragments := []; patterns := [];
     recommendations := []; currentView := RecordView; isLoading := false;
     error := None |}.

(** The partial updates [set({ field: v })]. *)

Definition set_isRecording (v : bool) (s : ReflectionState) :=
  {| isRecording := v; currentFragment := currentFragment s;
     selectedFragment := selectedFragment s; currentSession := currentSession s;
     fragments := fragments s; patterns := patterns s;
     recommendations := recommendations s; currentView := currentView s;
     isLoading := isLoading s; error := error s |}.

Definition set_currentFragment (v : option VideoFragment) (s : ReflectionState) :=
  {| isRecording := isRecording s; currentFragment := v;
     selectedFragment := selectedFragment s; currentSession := currentSession s;
     fragments := fragments s; patterns := patterns s;
     recommendations := recommendations s; currentView := currentView s;
     isLoading := isLoading s; error := error s |}.

Definition set_selectedFragment (v : option VideoFragment) (s : ReflectionState) :=
  {| isRecording := isRecording s; currentFragment := currentFragment s;
     selectedFragment := v; currentSession := currentSession s;
     fragments := fragments s; patterns := patterns s;
     recommendations := recommendations s; currentView := currentView s;
     isLoading := isLoading s; error := error s |}.

Definition set_currentSession (v : option Manager.ReflectionSession)
    (s : ReflectionState) :=
  {| isRecording := isRecording s; currentFragment := currentFragment s;
     selectedFragment := selectedFragment s; currentSession := v;
     fragments := fragments s; patterns := patterns s;
     recommendations := recommendations s; currentView := currentView s;
     isLoading := isLoading s; error := error s |}.

Definition set_fragments (v : list VideoFragment) (s : ReflectionState) :=
  {| isRecording := isRecording s; currentFragment := currentFragment s;
     selectedFragment := selectedFragment s; currentSession := currentSession s;
     fragments := v; patterns := patterns s;
     recommendations := recommendations s; currentView := currentView s;
     isLoading := isLoading s; error := error s |}.

Definition set_patterns (v : list PatternInsight) (s : ReflectionState) :=
  {| isRecording := isRecording s; currentFragment := currentFragment s;
     selectedFragment := selectedFragment s; currentSession := currentSession s;
     fragments := fragments s; patterns := v;
     recommendations := recommendations s; currentView := currentView s;
     isLoading := isLoading s; error := error s |}.

Definition set_recommendations (v : list RecommendationMatch) (s : ReflectionState) :=
  {| isRecording := isRecording s; currentFragment := currentFragment s;
     selectedFragment := selectedFragment s; currentSession := currentSession s;
     fragments := fragments s; patterns := patterns s;
     recommendations := v; currentView := currentView s;
     isLoading := isLoading s; error := error s |}.

Definition set_currentView (v : View) (s : ReflectionState) :=
  {| isRecording := isRecording s; currentFragment := currentFragment s;
     selectedFragment := selectedFragment s; currentSession := currentSession s;
     fragments := fragments s; patterns := patterns s;
     recommendations := recommendations s; currentView := v;
     isLoading := isLoading s; error := error s |}.

Definition set_isLoading (v : bool) (s : ReflectionState) :=
  {| isRecording := isRecording s; currentFragment := currentFragment s;
     selectedFragment := selectedFragment s; currentSession := currentSession s;
     fragments := fragments s; patterns := patterns s;
     recommendations := recommendations s; currentView := currentView s;
     isLoading := v; error := error s |}.

Definition set_error (v : option string) (s : ReflectionState) :=
  {| isRecording := isRecording s; currentFragment := currentFragment s;
     selectedFragment := selectedFragment s; currentSession := currentSession s;
     fragments := fragments s; patterns := patterns s;
     recommendations := recommendations s; currentView := currentView s;
     isLoading := isLoading s; error := v |}.

(** The spreads [{ ...fragment, field: v }]. *)

Definition fragment_with_tags (f : VideoFragment) (v : list EmotionTag) : VideoFragment :=
  {| fragment_id := fragment_id f; timestamp := timestamp f; duration := duration f;
     blob := blob f; thumbnail := thumbnail f; tags := v; title := title f;
     notes := notes f; variations := variations f; responses := responses f;
     ratings := ratings f; metadata := metadata f |}.

Definition fragment_with_ratings (f : VideoFragment) (v : list FragmentRating)
  : VideoFragment :=
  {| fragment_id := fragment_id f; timestamp := timestamp f; duration := duration f;
     blob := blob f; thumbnail := thumbnail f; tags := tags f; title := title f;
     notes := notes f; variations := variations f; responses := responses f;
     ratings := v; metadata := metadata f |}.

Definition fragment_with_variations (f : VideoFragment) (v : list FragmentVariation)
  : VideoFragment :=
  {| fragment_id := fragment_id f; timestamp := timestamp f; duration := duration f;
     blob := blob f; thumbnail := thumbnail f; tags := tags f; title := title f;
     notes := notes f; variations := v; responses := responses f;
     ratings := ratings f; metadata := metadata f |}.

Definition fragment_with_responses (f : VideoFragment) (v : list ResponseFragment)
  : VideoFragment :=
  {| fragment_id := fragment_id f; timestamp := timestamp f; duration := duration f;
     blob := blob f; thumbnail := thumbnail f; tags := tags f; title := title f;
     notes := notes f; variations := variations f; responses := v;
     ratings := ratings f; metadata := metadata f |}.

(** [xs.findIndex(p)], together with [xs[index]]; [None] stands for [-1]. *)
Fixpoint findIndex {A} (p : A -> bool) (xs : list A) : option (nat * A) :=
  match xs with
  | [] => None
  | x :: xs' =>
      if p x then Some (O, x)
      else match findIndex p xs' with
           | Some (i, y) => Some (S i, y)
           | None => None
           end
  end.

(** [xs.map((x, i) => f(x, i))] *)
Fixpoint mapFrom {A B} (i : nat) (f : A -> nat -> B) (xs : list A) : list B :=
  match xs with
  | [] => []
  | x :: xs' => f x i :: mapFrom (S i) f xs'
  end.

Definition mapIndexed {A B} (f : A -> nat -> B) (xs : list A) : list B :=
  mapFrom 0 f xs.

(** The zustand store, the manager it drives, and the reads of the clock and
    of the random generator made so far.  Actions are taken one at a time. *)
Record World := {
  state : ReflectionState;
  manager : Manager.State;
  calls : Calls
}.

Definition initialWorld (d : Manager.Disk) : World :=
  {| state := initialState;
     manager := {| Manager.opened := false; Manager.disk := d |};
     calls := {| clockReads := 0; randomDraws := 0 |} |}.

Section Actions.

(** The clock, and the engine's view of the random generator. *)
Variable host : Host.

(** [Math.random().toString(36).substr(2, 9)] for each draw. *)
Variable randomBase36 : nat -> string.

Variable fails : Manager.Request -> bool.

(** The message of [request.error] when that is an [Error], for a request
    that fails; and the message of a null dereference. *)
Variable requestError : Manager.Request -> option string.
Variable nullDereference : string.

(** [error instanceof Error ? error.message : fallback] *)
Definition message (e : Manager.Failure) (fallback : string) : string :=
  match e with
  | Manager.NotInitialized => "Database not initialized"
  | Manager.NullDatabase => nullDereference
  | Manager.RequestFailed r =>
      match requestError r with
      | Some text => text
      | None => fallback
      end
  end.

Definition randomSuffix : Run string :=
  fun c => (randomBase36 (randomDraws c),
            {| clockReads := clockReads c; randomDraws := S (randomDraws c) |}).

(** [`prefix${Date.now()}-${Math.random().toString(36).substr(2, 9)}`] *)
Definition freshId (prefix : string) : Run string :=
  let* t := now host in
  let* r := randomSuffix in
  pure (prefix ++ showZ t ++ "-" ++ r)%string.

(** [set({ isLoading: true, error: null })] *)
Definition begin (s : ReflectionState) : ReflectionState :=
  set_error None (set_isLoading true s).

(** [set({ error: ..., isLoading: false })] *)
Definition failed (text : string) (s : ReflectionState) : ReflectionState :=
  set_isLoading false (set_error (Some text) s).

Definition startRecording (w : World) : World :=
  {| state := set_error None (set_isRecording true (state w));
     manager := manager w; calls := calls w |}.

Definition stopRecording (blob : Blob) (duration : Q) (w : World) : World :=
  let (id, c1) := freshId "fragment-" (calls w) in
  let (t, c2) := now host c1 in
  let fragment :=
    {| fragment_id := id;
       timestamp := inject_Z t;
       duration := duration;
       blob := Some blob;
       thumbnail := None;
       tags := [];
       title := None;
       notes := None;
       variations := [];
       responses := [];
       ratings := [];
       metadata := {| mood := "reflective"; energy := 5; clarity := 5;
                      facialExpression := None; voiceTone := None;
                      keywords := [] |} |} in
  {| state := set_currentFragment (Some fragment) (set_isRecording false (state w));
     manager := manager w; calls := c2 |}.

Definition saveFragment (fragment : VideoFragment) (w : World) : World :=
  let s0 := begin (state w) in
  match Manager.saveFragment fails fragment (manager w) with
  | (Manager.Rejected e, m1) =>
      {| state := failed (message e "Failed to save fragment") s0;
         manager := m1; calls := calls w |}
  | (Manager.Resolved _, m1) =>
      let s1 :=
        set_isLoading false
          (set_currentFragment None
             (set_fragments (fragments s0 ++ [fragment]) s0)) in
      match currentSession s1 with
      | None => {| state := s1; manager := m1; calls := calls w |}
      | Some session =>
          let updatedSession :=
            {| Manager.session_id := Manager.session_id session;
               Manager.startTime := Manager.startTime session;
               Manager.endTime := Manager.endTime session;
               Manager.session_fragments :=
                 Manager.session_fragments session ++ [fragment_id fragment];
               Manager.theme := Manager.theme session;
               Manager.insights := Manager.insights session;
               Manager.session_patterns := Manager.session_patterns session |} in
          match Manager.saveSession fails updatedSession m1 with
          | (Manager.Rejected e, m2) =>
              {| state := failed (message e "Failed to save fragment") s1;
                 manager := m2; calls := calls w |}
          | (Manager.Resolved _, m2) =>
              {| state := set_currentSession (Some updatedSession) s1;
                 manager := m2; calls := calls w |}
          end
      end
  end.

Definition loadFragments (w : World) : World :=
  let s0 := begin (state w) in
  match Manager.init fails (manager w) with
  | (Manager.Rejected e, m1) =>
      {| state := failed (message e "Failed to load fragments") s0;
         manager := m1; calls := calls w |}
  | (Manager.Resolved _, m1) =>
      match Manager.getAllFragments fails m1 with
      | (Manager.Rejected e, m2) =>
          {| state := failed (message e "Failed to load fragments") s0;
             manager := m2; calls := calls w |}
      | (Manager.Resolved loaded, m2) =>
          {| state := set_isLoading false (set_fragments loaded s0);
             manager := m2; calls := calls w |}
      end
  end.

Definition selectFragment (fragment : option VideoFragment) (w : World) : World :=
  {| state := set_selectedFragment fragment (state w);
     manager := manager w; calls := calls w |}.

Definition addFragmentTag (fragmentId : string) (tag : EmotionTag) (w : World)
  : World :=
  let s0 := begin (state w) in
  match findIndex (fun f => String.eqb (fragment_id f) fragmentId) (fragments s0) with
  | None =>
      {| state := failed "Fragment not found" s0;
         manager := manager w; calls := calls w |}
  | Some (fragmentIndex, found) =>
      let updatedFragment := fragment_with_tags found (tags found ++ [tag]) in
      match Manager.saveFragment fails updatedFragment (manager w) with
      | (Manager.Rejected e, m1) =>
          {| state := failed (message e "Failed to add tag") s0;
             manager := m1; calls := calls w |}
      | (Manager.Resolved _, m1) =>
          {| state :=
               set_isLoading false
                 (set_fragments
                    (mapIndexed (fun f i => if (i =? fragmentIndex)%nat
                                            then updatedFragment else f)
                       (fragments s0)) s0);
             manager := m1; calls := calls w |}
      end
  end.

Definition rateFragment (fragmentId : string) (helpful : bool) (resonance : Q)
    (context : option string) (w : World) : World :=
  let s0 := begin (state w) in
  match findIndex (fun f => String.eqb (fragment_id f) fragmentId) (fragments s0) with
  | None =>
      {| state := failed "Fragment not found" s0;
         manager := manager w; calls := calls w |}
  | Some (fragmentIndex, found) =>
      let (id, c1) := freshId "rating-" (calls w) in
      let (t, c2) := now host c1 in
      let rating :=
        {| rating_id := id;
           fragmentId := fragmentId;
           helpful := helpful;
           resonance := resonance;
           rating_timestamp := inject_Z t;
           context := context |} in
      let updatedFragment := fragment_with_ratings found (ratings found ++ [rating]) in
      match Manager.saveFragment fails updatedFragment (manager w) with
      | (Manager.Rejected e, m1) =>
          {| state := failed (message e "Failed to rate fragment") s0;
             manager := m1; calls := c2 |}
      | (Manager.Resolved _, m1) =>
          {| state :=
               set_isLoading false
                 (set_fragments
                    (mapIndexed (fun f i => if (i =? fragmentIndex)%nat
                                            then updatedFragment else f)
                       (fragments s0)) s0);
             manager := m1; calls := c2 |}
      end
  end.

Definition createVariation (fragmentId : string) (filterType : FilterType)
    (blob : Blob) (w : World) : World :=
  let s0 := begin (state w) in
  match findIndex (fun f => String.eqb (fragment_id f) fragmentId) (fragments s0) with
  | None =>
      {| state := failed "Fragment not found" s0;
         manager := manager w; calls := calls w |}
  | Some (fragmentIndex, found) =>
      let (id, c1) := freshId "variation-" (calls w) in
      let (t, c2) := now host c1 in
      let variation :=
        {| variation_id := id;
           variation_parentId := fragmentId;
           filterType := filterType;
           filterSettings := [];
           variation_blob := Some blob;
           variation_timestamp := inject_Z t |} in
      let updatedFragment :=
        fragment_with_variations found (variations found ++ [variation]) in
      match Manager.saveFragment fails updatedFragment (manager w) with
      | (Manager.Rejected e, m1) =>
          {| state := failed (message e "Failed to create variation") s0;
             manager := m1; calls := c2 |}
      | (Manager.Resolved _, m1) =>
          {| state :=
               set_isLoading false
                 (set_fragments
                    (mapIndexed (fun f i => if (i =? fragmentIndex)%nat
                                            then updatedFragment else f)
                       (fragments s0)) s0);
             manager := m1; calls := c2 |}
      end
  end.

Definition addResponse (fragmentId : string) (blob : Blob)
    (responseType : ResponseType) (notes : option string) (w : World) : World :=
  let s0 := begin (state w) in
  match findIndex (fun f => String.eqb (fragment_id f) fragmentId) (fragments s0) with
  | None =>
      {| state := failed "Fragment not found" s0;
         manager := manager w; calls := calls w |}
  | Some (fragmentIndex, found) =>
      let (id, c1) := freshId "response-" (calls w) in
      let (t, c2) := now host c1 in
      let response :=
        {| response_id := id;
           response_parentId := fragmentId;
           response_blob := Some blob;
           response_timestamp := inject_Z t;
           responseType := responseType;
           response_notes := notes |} in
      let updatedFragment :=
        fragment_with_responses found (responses found ++ [response]) in
      match Manager.saveFragment fails updatedFragment (manager w) with
      | (Manager.Rejected e, m1) =>
          {| state := failed (message e "Failed to add response") s0;
             manager := m1; calls := c2 |}
      | (Manager.Resolved _, m1) =>
          {| state :=
               set_isLoading false
                 (set_fragments
                    (mapIndexed (fun f i => if (i =? fragmentIndex)%nat
                                            then updatedFragment else f)
                       (fragments s0)) s0);
             manager := m1; calls := c2 |}
      end
  end.

Definition startSession (theme : option string) (w : World) : World :=
  let (id, c1) := freshId "session-" (calls w) in
  let (t, c2) := now host c1 in
  let session :=
    {| Manager.session_id := id;
       Manager.startTime := inject_Z t;
       Manager.endTime := None;
       Manager.session_fragments := [];
       Manager.theme := theme;
       Manager.insights := [];
       Manager.session_patterns := [] |} in
  {| state := set_currentSession (Some session) (state w);
     manager := manager w; calls := c2 |}.

Definition endSession (insights : list string) (w : World) : World :=
  match currentSession (state w) with
  | None => w
  | Some session =>
      let s0 := begin (state w) in
      let (t, c1) := now host (calls w) in
      let completedSession :=
        {| Manager.session_id := Manager.session_id session;
           Manager.startTime := Manager.startTime session;
           Manager.endTime := Some (inject_Z t);
           Manager.session_fragments := Manager.session_fragments session;
           Manager.theme := Manager.theme session;
           Manager.insights := insights;
           Manager.session_patterns := Manager.session_patterns session |} in
      match Manager.saveSession fails completedSession (manager w) with
      | (Manager.Rejected e, m1) =>
          {| state := failed (message e "Failed to end session") s0;
             manager := m1; calls := c1 |}
      | (Manager.Resolved _, m1) =>
          {| state := set_isLoading false (set_currentSession None s0);
             manager := m1; calls := c1 |}
      end
  end.

Definition analyzePatterns (w : World) : World :=
  let s0 := begin (state w) in
  let (found, c1) := analyzeEmotionalPatterns host (fragments s0) (calls w) in
  match Manager.saveAllPatterns fails found (manager w) with
  | (Manager.Rejected e, m1) =>
      {| state := failed (message e "Failed to analyze patterns") s0;
         manager := m1; calls := c1 |}
  | (Manager.Resolved _, m1) =>
      {| state := set_isLoading false (set_patterns found s0);
         manager := m1; calls := c1 |}
  end.

Definition generateRecommendations (currentMood : string) (w : World) : World :=
  let s0 := begin (state w) in
  let (found, c1) :=
    Engine.generateRecommendations host currentMood (fragments s0) (patterns s0)
      (calls w) in
  {| state := set_isLoading false (set_recommendations found s0);
     manager := manager w; calls := c1 |}.

Definition setCurrentView (view : View) (w : World) : World :=
  {| state := set_currentView view (state w);
     manager := manager w; calls := calls w |}.

Definition deleteFragment (fragmentId : string) (w : World) : World :=
  let s0 := begin (state w) in
  match Manager.deleteFragment fails fragmentId (manager w) with
  | (Manager.Rejected e, m1) =>
      {| state := failed (message e "Failed to delete fragment") s0;
         manager := m1; calls := calls w |}
  | (Manager.Resolved _, m1) =>
      {| state :=
           set_isLoading false
             (set_selectedFragment
                (match selectedFragment s0 with
                 | Some selected =>
                     if String.eqb (fragment_id selected) fragmentId then None
                     else Some selected
                 | None => None
                 end)
                (set_fragments
                   (List.filter
                      (fun f => negb (String.eqb (fragment_id f) fragmentId))
                      (fragments s0)) s0));
         manager := m1; calls := calls w |}
  end.

Definition clearError (w : World) : World :=
  {| state := set_error None (state w);
     manager := manager w; calls := calls w |}.

End Actions.

End Controller.

(** * Further vocabulary: the controller *)

Module ControllerSpec.

Import Store StoreSpec.

(** The store hands [f] back under its id when no request fails. *)
Definition mirrored (d : Database) (f : VideoFragment) : Prop :=
  fst (getFragment noFaults (fragment_id f) (Some d)) = Ok (Some f).

(** The fragment stores of a world, and the fragments it holds in memory. *)
Definition stores (w : Controller.World) : Database :=
  Manager.fragmentStores (Manager.disk (Controller.manager w)).

Definition memory (w : Controller.World) : list VideoFragment :=
  Controller.fragments (Controller.state w).

(** The database is open and every fragment in memory is in the store as
    it is in memory. *)
Definition inSync (w : Controller.World) : Prop :=
  Manager.opened (Controller.manager w) = true
  /\ Forall (mirrored (stores w)) (memory w).

(** No payload id is used twice among the fragments [fs]. *)
Definition distinctPayloads (fs : list VideoFragment) : Prop :=
  List.NoDup (flat_map payloadIds fs).

(** The four actions that change one fragment in memory and save it. *)
Inductive Edit :=
  | AddTag (tag : EmotionTag)
  | Rate (helpful : bool) (resonance : Q) (context : option string)
  | Vary (filterType : FilterType) (blob : Blob)
  | Respond (blob : Blob) (responseType : ResponseType) (notes : option string).

Section Edits.

Variable host : Engine.Host.
Variable randomBase36 : nat -> string.
Variable fails : Manager.Request -> bool.
Variable requestError : Manager.Request -> option string.
Variable nullDereference : string.

Definition edit (e : Edit) (fragmentId : string)
  : Controller.World -> Controller.World :=
  match e with
  | AddTag tag =>
      Controller.addFragmentTag fails requestError nullDereference fragmentId tag
  | Rate helpful resonance context =>
      Controller.rateFragment host randomBase36 fails requestError nullDereference
        fragmentId helpful resonance context
  | Vary filterType blob =>
      Controller.createVariation host randomBase36 fails requestError
        nullDereference fragmentId filterType blob
  | Respond blob responseType notes =>
      Controller.addResponse host randomBase36 fails requestError nullDereference
        fragmentId blob responseType notes
  end.

(** The id under which an edit stores a new payload, if it stores one. *)
Definition newPayloadId (e : Edit) (w : Controller.World) : option string :=
  match e with
  | AddTag _ | Rate _ _ _ => None
  | Vary _ _ =>
      Some (fst (Controller.freshId host randomBase36 "variation-"
                   (Controller.calls w)))
  | Respond _ _ _ =>
      Some (fst (Controller.freshId host randomBase36 "response-"
                   (Controller.calls w)))
  end.

(** The fragment an edit makes of [found], and the clock and generator
    reads after it. *)
Definition edited (e : Edit) (fragmentId : string) (found : VideoFragment)
  : Engine.Run VideoFragment :=
  fun c =>
    match e with
    | AddTag tag =>
        (Controller.fragment_with_tags found (tags found ++ [tag]), c)
    | Rate helpful resonance context =>
        let (id, c1) := Controller.freshId host randomBase36 "rating-" c in
        let (t, c2) := Engine.now host c1 in
        (Controller.fragment_with_ratings found
           (ratings found
            ++ [ {| rating_id := id; fragmentId := fragmentId;
                    helpful := helpful; resonance := resonance;
                    rating_timestamp := inject_Z t; context := context |} ]),
         c2)
    | Vary filterType blob =>
        let (id, c1) := Controller.freshId host randomBase36 "variation-" c in
        let (t, c2) := Engine.now host c1 in
        (Controller.fragment_with_variations found
           (variations found
            ++ [ {| variation_id := id; variation_parentId := fragmentId;
                    filterType := filterType; filterSettings := [];
                    variation_blob := Some blob;
                    variation_timestamp := inject_Z t |} ]),
         c2)
    | Respond blob responseType notes =>
        let (id, c1) := Controller.freshId host randomBase36 "response-" c in
        let (t, c2) := Engine.now host c1 in
        (Controller.fragment_with_responses found
           (responses found
            ++ [ {| response_id := id; response_parentId := fragmentId;
                    response_blob := Some blob;
                    response_timestamp := inject_Z t;
                    responseType := responseType; response_notes := notes |} ]),
         c2)
    end.

(** The text shown when the save of an edit fails with something that is
    not an [Error]. *)
Definition fallback (e : Edit) : string :=
  match e with
  | AddTag _ => "Failed to add tag"
  | Rate _ _ _ => "Failed to rate fragment"
  | Vary _ _ => "Failed to create variation"
  | Respond _ _ _ => "Failed to add response"
  end.

End Edits.

(** The patterns store of a world. *)
Definition storedPatterns (w : Controller.World) : gmap string PatternInsight :=
  Manager.patterns (Manager.disk (Controller.manager w)).

Definition storedSessions (w : Controller.World)
  : gmap string Manager.ReflectionSession :=
  Manager.sessions (Manager.disk (Controller.manager w)).

(** No request fails. *)
Definition noFault : Manager.Request -> bool := fun _ => false.

(** [saveFragment] for each of [fs] in turn. *)
Definition saveEach (fails : Manager.Request -> bool)
    (requestError : Manager.Request -> option string) (nullDereference : string)
    (fs : list VideoFragment) (w : Controller.World) : Controller.World :=
  fold_left
    (fun w' f => Controller.saveFragment fails requestError nullDereference f w')
    fs w.

(** The session [session] with the fragments [ids] added, ended at
    [endTime] with the insights [insights]. *)
Definition completed (session : Manager.ReflectionSession) (ids : list string)
    (endTime : Q) (insights : list string) : Manager.ReflectionSession :=
  {| Manager.session_id := Manager.session_id session;
     Manager.startTime := Manager.startTime session;
     Manager.endTime := Some endTime;
     Manager.session_fragments := Manager.session_fragments session ++ ids;
     Manager.theme := Manager.theme session;
     Manager.insights := insights;
     Manager.session_patterns := Manager.session_patterns session |}.

End ControllerSpec.

Module ControllerSamples.

Import Store.

Definition host : Engine.Host := EngineSamples.hostAt 1000.

Definition randomBase36 : nat -> string := fun _ => "k3j9x2m1q".

Definition noMessage : Manager.Request -> option string := fun _ => None.

(** The metadata record cannot be written. *)
Definition failsOnMetadata (q : Manager.Request) : bool :=
  match q with
  | Manager.OnFragments (PutFragment _) => true
  | _ => false
  end.

(** The metadata record cannot be deleted. *)
Definition failsOnMetadataDelete (q : Manager.Request) : bool :=
  match q with
  | Manager.OnFragments (DeleteFragment _) => true
  | _ => false
  end.

(** Pattern insights cannot be written. *)
Definition failsOnPatterns (q : Manager.Request) : bool :=
  match q with
  | Manager.PutPattern _ => true
  | _ => false
  end.

Definition emptyDisk : Manager.Disk :=
  {| Manager.fragmentStores := {| fragments := ∅; videoBlobs := ∅ |};
     Manager.sessions := ∅;
     Manager.patterns := ∅ |}.

(** A world whose store and memory hold the fragment [Samples.plain]. *)
Definition holdingPlain : Controller.World :=
  {| Controller.state :=
       Controller.set_fragments [Samples.plain] Controller.initialState;
     Controller.manager :=
       {| Manager.opened := true;
          Manager.disk :=
            {| Manager.fragmentStores := Samples.storedPlain;
               Manager.sessions := ∅;
               Manager.patterns := ∅ |} |};
     Controller.calls := EngineSamples.start |}.

(** The same store before the database is opened, with nothing in memory. *)
Definition beforeLoad : Controller.World :=
  Controller.initialWorld
    {| Manager.fragmentStores := Samples.storedPlain;
       Manager.sessions := ∅;
       Manager.patterns := ∅ |}.

End ControllerSamples.

(** * Properties of the fragment store *)

Module StoreFacts.

Import Store StoreSpec.

Lemma writeBlobs_snoc l k b m :
  writeBlobs (l ++ [(k, b)]) m = <[k := b]> (writeBlobs l m).
Proof. unfold writeBlobs. now rewrite fold_left_app. Qed.

Lemma writeBlobs_lookup l m k b :
  consistent l -> In (k, b) l -> writeBlobs l m !! k = Some b.
Proof.
  induction l as [|[k0 b0] l IH] using rev_ind; intros Hc Hin; [easy|].
  rewrite writeBlobs_snoc.
  destruct (decide (k0 = k)) as [->|Hne].
  - rewrite lookup_insert_eq. f_equal.
    apply (Hc k); [apply in_or_app; right; now left | exact Hin].
  - rewrite lookup_insert_ne by exact Hne.
    apply in_app_or in Hin as [Hin|[Heq|[]]]; [|congruence].
    apply IH; [|exact Hin].
    intros k' b1 b2 H1 H2. apply (Hc k'); apply in_or_app; now left.
Qed.

Lemma writeBlobs_other l m k :
  ~ In k (List.map fst l) -> writeBlobs l m !! k = m !! k.
Proof.
  revert m. induction l as [|[k0 b0] l IH]; intros m Hk; [easy|].
  cbn in *. rewrite IH by tauto.
  apply lookup_insert_ne. tauto.
Qed.

Lemma writeBlobs_app l1 l2 m :
  writeBlobs (l1 ++ l2) m = writeBlobs l2 (writeBlobs l1 m).
Proof. unfold writeBlobs. apply fold_left_app. Qed.

Lemma payloadIds_eq (f : VideoFragment) :
  payloadIds f
  = fragment_id f :: List.map variation_id (variations f)
    ++ List.map response_id (responses f).
Proof.
  unfold payloadIds, payloads. cbn [List.map fst].
  now rewrite List.map_app, !List.map_map.
Qed.

Lemma deleteBlobs_gone l m k :
  In k l \/ m !! k = None -> deleteBlobs l m !! k = None.
Proof.
  revert m. induction l as [|k0 l IH]; intros m [Hin|Hm]; cbn in *;
    try tauto; apply IH.
  - destruct Hin as [->|Hin]; [right; apply lookup_delete_eq|now left].
  - right. destruct (decide (k0 = k)) as [->|Hne];
      [apply lookup_delete_eq|now rewrite lookup_delete_ne].
Qed.

Lemma restored_fragmentToSave (f : VideoFragment) m :
  consistent (payloads f) ->
  restored (writeBlobs (payloads f) m) (fragmentToSave f) = f.
Proof.
  intros Hc.
  assert (Hl : forall k b, In (k, b) (payloads f) ->
                 lookupBlob (writeBlobs (payloads f) m) k = b).
  { intros k b Hin. unfold lookupBlob.
    rewrite (writeBlobs_lookup _ _ _ _ Hc Hin). now destruct b. }
  unfold restored.
  change (fragment_id (fragmentToSave f)) with (fragment_id f).
  change (variations (fragmentToSave f))
    with (List.map (fun v => variation_with_blob v None) (variations f)).
  change (responses (fragmentToSave f))
    with (List.map (fun r => response_with_blob r None) (responses f)).
  rewrite !List.map_map.
  rewrite (Hl (fragment_id f) (blob f)) by now left.
  rewrite (map_ext_in _ (fun v => v) (variations f)), List.map_id.
  2:{ intros v Hv.
      change (variation_id (variation_with_blob v None)) with (variation_id v).
      rewrite (Hl (variation_id v) (variation_blob v)); [now destruct v|].
      right. apply in_or_app. left.
      apply (in_map (fun v => (variation_id v, variation_blob v)) _ _ Hv). }
  rewrite (map_ext_in _ (fun r => r) (responses f)), List.map_id.
  2:{ intros r Hr.
      change (response_id (response_with_blob r None)) with (response_id r).
      rewrite (Hl (response_id r) (response_blob r)); [now destruct r|].
      right. apply in_or_app. right.
      apply (in_map (fun r => (response_id r, response_blob r)) _ _ Hr). }
  now destruct f.
Qed.

Lemma payloadIds_restored m (r : VideoFragment) :
  payloadIds (restored m r) = payloadIds r.
Proof.
  rewrite !payloadIds_eq. unfold restored. cbn. now rewrite !List.map_map.
Qed.

Lemma In_insertKey {V} (kv : string * V) l x :
  In x (insertKey kv l) <-> x = kv \/ In x l.
Proof.
  induction l as [|y l IH]; cbn; [intuition|].
  destruct (String.leb (fst kv) (fst y)); cbn; [intuition|].
  rewrite IH. intuition.
Qed.

Lemma In_recordsByKey {V} (m : gmap string V) k r :
  m !! k = Some r -> In r (recordsByKey m).
Proof.
  intros H. unfold recordsByKey.
  apply (in_map snd _ (k, r)).
  apply elem_of_map_to_list, list_elem_of_In in H.
  induction (map_to_list m) as [|y l IH]; cbn in *; [easy|].
  apply In_insertKey. destruct H as [->|H]; [now left|right; auto].
Qed.

Lemma bind_Ok {A B} (m : Op A) (k : A -> Op B) st a st' :
  m st = (Ok a, st') -> bind m k st = k a st'.
Proof. unfold bind. now intros ->. Qed.

Lemma bind_Err {A B} (m : Op A) (k : A -> Op B) st e st' :
  m st = (Err e, st') -> bind m k st = (Err e, st').
Proof. unfold bind. now intros ->. Qed.

Section Runs.

Variable fails : Request -> bool.

Lemma request_run {A} (q : Request) (run : Database -> A * Database) d :
  request fails q run (Some d)
  = if fails q then (Err (RequestError q), Some d)
    else (Ok (fst (run d)), Some (snd (run d))).
Proof. unfold request. destruct (fails q), (run d); reflexivity. Qed.

(** A loop of blob puts never touches the metadata; when it completes it has
    made every put, and when it rejects it has only touched its own keys. *)
Lemma forEach_saveVideoBlob {A} (key : A -> string) (val : A -> option Blob)
    (xs : list A) (d : Database) r st' :
  forEach (fun x => saveVideoBlob fails (key x) (val x)) xs (Some d) = (r, st') ->
  exists d', st' = Some d' /\ fragments d' = fragments d /\
    match r with
    | Ok _ =>
        videoBlobs d' = writeBlobs (List.map (fun x => (key x, val x)) xs) (videoBlobs d)
    | Err e =>
        (forall k, ~ In k (List.map key xs) -> videoBlobs d' !! k = videoBlobs d !! k)
        /\ exists q, e = RequestError q /\ fails q = true
    end.
Proof.
  revert d. induction xs as [|x xs IH]; intros d H.
  - inversion H; subst. exists d. now repeat split.
  - change (forEach _ (x :: xs))
      with (bind (saveVideoBlob fails (key x) (val x))
              (fun _ => forEach (fun x => saveVideoBlob fails (key x) (val x)) xs)) in H.
    pose proof (request_run (PutBlob (key x))
      (fun d => (tt, {| fragments := fragments d;
                        videoBlobs := <[key x := val x]> (videoBlobs d) |})) d) as Hq.
    fold (saveVideoBlob fails (key x) (val x)) in Hq.
    destruct (fails (PutBlob (key x))) eqn:Hf.
    + rewrite (bind_Err _ _ _ _ _ Hq) in H. inversion H; subst.
      exists d. repeat split; eauto.
    + rewrite (bind_Ok _ _ _ _ _ Hq) in H. cbn [fst snd] in H.
      apply IH in H as (d' & -> & Hfr & Hr). exists d'. split; [easy|].
      split; [exact Hfr|]. destruct r as [[]|e]; cbn in *.
      * exact Hr.
      * destruct Hr as [Hk Hq']. split; [|exact Hq'].
        intros k Hn. rewrite Hk by tauto. apply lookup_insert_ne. tauto.
Qed.

Lemma getVideoBlob_run id d :
  getVideoBlob fails id (Some d)
  = if fails (GetBlob id) then (Err (RequestError (GetBlob id)), Some d)
    else (Ok (lookupBlob (videoBlobs d) id), Some d).
Proof. unfold getVideoBlob. now rewrite request_run. Qed.

(** A loop of blob reads leaves the database alone; it yields the looked-up
    payloads unless one of its requests fails. *)
Lemma mapM_getVideoBlob {A} (key : A -> string) (upd : A -> option Blob -> A)
    (xs : list A) (d : Database) :
  mapM (fun x => let* b := getVideoBlob fails (key x) in ret (upd x b)) xs (Some d)
  = (Ok (List.map (fun x => upd x (lookupBlob (videoBlobs d) (key x))) xs), Some d)
  \/ exists k, In k (List.map key xs) /\ fails (GetBlob k) = true
      /\ mapM (fun x => let* b := getVideoBlob fails (key x) in ret (upd x b)) xs (Some d)
         = (Err (RequestError (GetBlob k)), Some d).
Proof.
  set (body := fun x => let* b := getVideoBlob fails (key x) in ret (upd x b)).
  induction xs as [|x xs IH]; [now left|].
  change (mapM body (x :: xs))
    with (let* y := body x in let* ys := mapM body xs in ret (y :: ys)).
  pose proof (getVideoBlob_run (key x) d) as Hq.
  destruct (fails (GetBlob (key x))) eqn:Hf.
  - right. exists (key x). split; [now left|]. split; [exact Hf|].
    apply bind_Err. unfold body. now apply bind_Err.
  - assert (Hx : body x (Some d) = (Ok (upd x (lookupBlob (videoBlobs d) (key x))), Some d)).
    { unfold body. now rewrite (bind_Ok _ _ _ _ _ Hq). }
    rewrite (bind_Ok _ _ _ _ _ Hx).
    destruct IH as [IH|(k & Hin & Hk & IH)].
    + left. now rewrite (bind_Ok _ _ _ _ _ IH).
    + right. exists k. split; [now right|]. split; [exact Hk|].
      now apply bind_Err.
Qed.

Lemma restoreBlobs_run (r : VideoFragment) (d : Database) :
  restoreBlobs fails r (Some d) = (Ok (restored (videoBlobs d) r), Some d)
  \/ exists k, In k (payloadIds r) /\ fails (GetBlob k) = true
      /\ restoreBlobs fails r (Some d) = (Err (RequestError (GetBlob k)), Some d).
Proof.
  unfold restoreBlobs, payloadIds, payloads. cbn [List.map fst].
  pose proof (getVideoBlob_run (fragment_id r) d) as Hq.
  destruct (fails (GetBlob (fragment_id r))) eqn:Hf.
  { right. exists (fragment_id r). split; [now left|]. split; [exact Hf|].
    now apply bind_Err. }
  rewrite (bind_Ok _ _ _ _ _ Hq).
  destruct (mapM_getVideoBlob variation_id variation_with_blob (variations r) d)
    as [Hv|(k & Hin & Hk & Hv)].
  2:{ right. exists k. split; [|split; [exact Hk|now apply bind_Err]]. right.
      rewrite List.map_app, !List.map_map. apply in_or_app. now left. }
  rewrite (bind_Ok _ _ _ _ _ Hv).
  destruct (mapM_getVideoBlob response_id response_with_blob (responses r) d)
    as [Hr|(k & Hin & Hk & Hr)].
  2:{ right. exists k. split; [|split; [exact Hk|now apply bind_Err]]. right.
      rewrite List.map_app, !List.map_map. apply in_or_app. now right. }
  rewrite (bind_Ok _ _ _ _ _ Hr).
  left. reflexivity.
Qed.

(** The outcome of [saveFragment], stage by stage: the payloads are put in
    order, the metadata record is put last. *)
Lemma saveFragment_run (f : VideoFragment) st r st' :
  saveFragment fails f st = (r, st') ->
  match st with
  | None => r = Err NotInitialized /\ st' = None
  | Some d =>
      exists d', st' = Some d' /\
        match r with
        | Ok _ =>
            fragments d' = <[fragment_id f := fragmentToSave f]> (fragments d)
            /\ videoBlobs d' = writeBlobs (payloads f) (videoBlobs d)
        | Err e =>
            fragments d' = fragments d
            /\ (forall k, ~ In k (payloadIds f) ->
                 videoBlobs d' !! k = videoBlobs d !! k)
            /\ exists q, e = RequestError q /\ fails q = true
        end
  end.
Proof.
  unfold saveFragment. destruct st as [d|]; [|now intros [= <- <-]].
  rewrite (bind_Ok _ _ (Some d) tt (Some d)) by reflexivity.
  rewrite payloadIds_eq. unfold payloads.
  unfold saveVideoBlob at 1.
  match goal with |- context [bind (request fails ?q ?run) _ (Some d)] =>
    pose proof (request_run q run d) as H1 end.
  destruct (fails (PutBlob (fragment_id f))) eqn:Hf1.
  { rewrite (bind_Err _ _ _ _ _ H1). intros [= <- <-]. exists d. repeat split; eauto. }
  rewrite (bind_Ok _ _ _ _ _ H1). cbn [fst snd]. clear H1.
  match goal with |- context [bind ?m _ (Some ?d1)] =>
    destruct (m (Some d1)) as [r2 st2] eqn:H2 end.
  apply forEach_saveVideoBlob in H2 as H2'. destruct H2' as (d2 & -> & Hfr2 & Hb2).
  destruct r2 as [[]|e2].
  2:{ rewrite (bind_Err _ _ _ _ _ H2). intros [= <- <-]. exists d2.
      split; [easy|]. destruct Hb2 as [Hk Hq]. cbn in *. split; [easy|].
      split; [|exact Hq]. intros k Hn.
      rewrite Hk by (intros ?; apply Hn; right; apply in_or_app; now left).
      apply lookup_insert_ne. tauto. }
  rewrite (bind_Ok _ _ _ _ _ H2). clear H2.
  match goal with |- context [bind ?m _ (Some d2)] =>
    destruct (m (Some d2)) as [r3 st3] eqn:H3 end.
  apply forEach_saveVideoBlob in H3 as H3'. destruct H3' as (d3 & -> & Hfr3 & Hb3).
  assert (Hother : forall k,
    ~ In k (fragment_id f :: List.map variation_id (variations f)) ->
    videoBlobs d2 !! k = videoBlobs d !! k).
  { intros k Hn. rewrite Hb2. cbn.
    rewrite writeBlobs_other by (rewrite List.map_map; cbn in *; tauto).
    apply lookup_insert_ne. cbn in Hn. tauto. }
  destruct r3 as [[]|e3].
  2:{ rewrite (bind_Err _ _ _ _ _ H3). intros [= <- <-]. exists d3.
      split; [easy|]. destruct Hb3 as [Hk Hq]. cbn in *.
      split; [congruence|]. split; [|exact Hq]. intros k Hn.
      rewrite Hk by (intros ?; apply Hn; right; apply in_or_app; now right).
      apply Hother. intros [?|?]; apply Hn; [now left|].
      right. apply in_or_app. now left. }
  rewrite (bind_Ok _ _ _ _ _ H3). clear H3.
  rewrite request_run.
  destruct (fails (PutFragment (fragment_id f))) eqn:Hf4.
  - intros [= <- <-]. exists d3. split; [easy|]. cbn in *.
    split; [congruence|]. split; [|eauto]. intros k Hn.
    rewrite Hb3, writeBlobs_other
      by (rewrite List.map_map; cbn; intros ?; apply Hn; right;
          apply in_or_app; now right).
    apply Hother. intros [?|?]; apply Hn; [now left|].
    right. apply in_or_app. now left.
  - intros [= <- <-]. eexists. split; [reflexivity|]. cbn in *.
    split; [congruence|].
    rewrite Hb3, Hb2.
    change ((fragment_id f, blob f) :: ?l) with ([(fragment_id f, blob f)] ++ l).
    now rewrite !writeBlobs_app.
Qed.

(** [getFragment] on an initialized store: not found, the restored record,
    or the failure of one of its own read requests. *)
Lemma getFragment_run (id : string) (d : Database) :
  getFragment fails id (Some d)
  = (Ok (restored (videoBlobs d) <$> fragments d !! id), Some d)
  \/ exists q, fails q = true
      /\ (q = GetFragment id
          \/ exists r k, fragments d !! id = Some r /\ In k (payloadIds r)
                         /\ q = GetBlob k)
      /\ getFragment fails id (Some d) = (Err (RequestError q), Some d).
Proof.
  unfold getFragment.
  rewrite (bind_Ok _ _ (Some d) tt (Some d)) by reflexivity.
  match goal with |- context [bind (request fails ?q ?run) _ (Some d)] =>
    pose proof (request_run q run d) as H1 end.
  destruct (fails (GetFragment id)) eqn:Hf.
  { right. exists (GetFragment id). split; [exact Hf|]. split; [now left|].
    now apply bind_Err. }
  rewrite (bind_Ok _ _ _ _ _ H1). cbn [fst snd].
  destruct (fragments d !! id) as [r|] eqn:Hr; [|now left].
  destruct (restoreBlobs_run r d) as [Hb|(k & Hin & Hk & Hb)].
  - left. now rewrite (bind_Ok _ _ _ _ _ Hb).
  - right. exists (GetBlob k). split; [exact Hk|]. split; [right; eauto|].
    now apply bind_Err.
Qed.

Lemma mapM_restoreBlobs (rs : list VideoFragment) (d : Database) :
  (forall q, fails q = false) ->
  mapM (restoreBlobs fails) rs (Some d)
  = (Ok (List.map (restored (videoBlobs d)) rs), Some d).
Proof.
  intros Hnf. induction rs as [|r rs IH]; [reflexivity|].
  change (mapM (restoreBlobs fails) (r :: rs))
    with (let* y := restoreBlobs fails r in
          let* ys := mapM (restoreBlobs fails) rs in ret (y :: ys)).
  destruct (restoreBlobs_run r d) as [Hr|(k & _ & Hk & _)];
    [|rewrite Hnf in Hk; discriminate].
  rewrite (bind_Ok _ _ _ _ _ Hr), (bind_Ok _ _ _ _ _ IH). reflexivity.
Qed.

Lemma forEach_deleteVideoBlob {A} (key : A -> string) (xs : list A)
    (d : Database) st' :
  forEach (fun x => deleteVideoBlob fails (key x)) xs (Some d) = (Ok tt, st') ->
  exists d', st' = Some d' /\ fragments d' = fragments d
             /\ videoBlobs d' = deleteBlobs (List.map key xs) (videoBlobs d).
Proof.
  revert d. induction xs as [|x xs IH]; intros d H.
  - inversion H; subst. exists d. now repeat split.
  - change (forEach _ (x :: xs))
      with (bind (deleteVideoBlob fails (key x))
              (fun _ => forEach (fun x => deleteVideoBlob fails (key x)) xs)) in H.
    pose proof (request_run (DeleteBlob (key x))
      (fun d => (tt, {| fragments := fragments d;
                        videoBlobs := delete (key x) (videoBlobs d) |})) d) as Hq.
    fold (deleteVideoBlob fails (key x)) in Hq.
    destruct (fails (DeleteBlob (key x))) eqn:Hf.
    + rewrite (bind_Err _ _ _ _ _ Hq) in H. discriminate.
    + rewrite (bind_Ok _ _ _ _ _ Hq) in H. cbn [fst snd] in H.
      apply IH in H as (d' & -> & Hfr & Hb). exists d'. now repeat split.
Qed.

End Runs.

(** *** Saving and reading back *)

(** C1, as stated, fails: a variation that carries the id of its fragment
    overwrites the fragment's own payload, and [getFragment] then returns the
    variation's payload in its place. *)
Lemma saveFragment_getFragment_shared_id :
  exists st' g,
    saveFragment noFaults Samples.clash Samples.emptyStore = (Ok tt, st')
    /\ getFragment noFaults (fragment_id Samples.clash) st' = (Ok (Some g), st')
    /\ blob Samples.clash = Some Samples.blobA
    /\ blob g = Some Samples.blobB.
Proof.
  eexists. eexists. split; [vm_compute; reflexivity|].
  split; [vm_compute; reflexivity|]. split; reflexivity.
Qed.

(** C1 (amended): when no id of [f] is used for two different payloads (in
    particular when its own id, its variations' ids and its responses' ids
    are pairwise distinct), a successful [saveFragment f] followed by
    [getFragment (id f)] returns [f] itself, payloads included, unless one of
    the read requests fails. *)
Theorem saveFragment_getFragment_roundtrip
    (fails fails' : Request -> bool) (f : VideoFragment) st st' :
  consistent (payloads f) ->
  saveFragment fails f st = (Ok tt, st') ->
  getFragment fails' (fragment_id f) st' = (Ok (Some f), st')
  \/ exists q, fails' q = true
      /\ getFragment fails' (fragment_id f) st' = (Err (RequestError q), st').
Proof.
  intros Hc Hs. apply saveFragment_run in Hs.
  destruct st as [d|]; [|now destruct Hs].
  destruct Hs as (d' & -> & Hfr & Hb).
  destruct (getFragment_run fails' (fragment_id f) d') as [H|(q & Hq & _ & H)].
  - left. rewrite H, Hfr, lookup_insert_eq, Hb.
    cbn [fmap option_fmap option_map].
    now rewrite restored_fragmentToSave.
  - right. eauto.
Qed.

Lemma saveFragment_getFragment_roundtrip_witness :
  consistent (payloads Samples.plain)
  /\ exists st',
       saveFragment noFaults Samples.plain Samples.emptyStore = (Ok tt, st')
       /\ getFragment noFaults "a" st' = (Ok (Some Samples.plain), st').
Proof.
  assert (Hc : consistent (payloads Samples.plain)).
  { intros k b b' H1 H2. cbn in H1, H2.
    repeat match goal with H : _ \/ _ |- _ => destruct H | H : False |- _ => destruct H end;
      congruence. }
  split; [exact Hc|].
  eexists. split; [vm_compute; reflexivity|].
  match goal with |- getFragment _ _ ?s = _ =>
    destruct (saveFragment_getFragment_roundtrip noFaults noFaults Samples.plain
                Samples.emptyStore s Hc) as [H|(q & Hq & _)] end.
  - vm_compute; reflexivity.
  - exact H.
  - discriminate.
Defined.

(** *** Missing payloads *)

(** C2, as stated, fails: with the payloads of a record absent from the blob
    store, [getFragment] and [getAllFragments] succeed and hand the record
    back with those payloads set to null. *)
Lemma getFragment_missing_payload_no_error :
  videoBlobs Samples.orphaned !! "a" = None
  /\ videoBlobs Samples.orphaned !! "v1" = None
  /\ getFragment noFaults "a" (Some Samples.orphaned)
     = (Ok (Some (Samples.mkStored "a" None [Samples.mkVariation "v1" None] [])),
        Some Samples.orphaned)
  /\ getAllFragments noFaults (Some Samples.orphaned)
     = (Ok [Samples.mkStored "a" None [Samples.mkVariation "v1" None] []],
        Some Samples.orphaned).
Proof. repeat split; vm_compute; reflexivity. Qed.

(** C2 (amended): when the metadata record of [id] references a payload id
    [k] that is absent from the blob store and no request fails,
    [getFragment id] succeeds and returns the record with every payload looked
    up in the blob store, the one under [k] being null; [getAllFragments]
    succeeds too and its result contains that same fragment. *)
Theorem getFragment_missing_payload_null
    (fails : Request -> bool) (d : Database) (id k : string) (r : VideoFragment) :
  (forall q, fails q = false) ->
  fragments d !! id = Some r ->
  In k (payloadIds r) ->
  videoBlobs d !! k = None ->
  let g := restored (videoBlobs d) r in
  getFragment fails id (Some d) = (Ok (Some g), Some d)
  /\ (exists gs, getAllFragments fails (Some d) = (Ok gs, Some d) /\ In g gs)
  /\ payloadIds g = payloadIds r
  /\ (forall b, In (k, b) (payloads g) -> b = None).
Proof.
  intros Hnf Hr Hk Hmiss g. split; [|split; [|split]].
  - destruct (getFragment_run fails id d) as [H|(q & Hq & _)];
      [|rewrite Hnf in Hq; discriminate].
    now rewrite H, Hr.
  - exists (List.map (restored (videoBlobs d)) (recordsByKey (fragments d))).
    split; [|apply in_map; eapply In_recordsByKey; exact Hr].
    unfold getAllFragments.
    rewrite (bind_Ok _ _ (Some d) tt (Some d)) by reflexivity.
    erewrite bind_Ok by (rewrite request_run, Hnf; reflexivity).
    now apply mapM_restoreBlobs.
  - apply payloadIds_restored.
  - intros b Hin. subst g. unfold restored, payloads in Hin.
    cbn [fragment_with_blobs fragment_id blob variations responses] in Hin.
    rewrite !List.map_map in Hin.
    assert (Hnone : lookupBlob (videoBlobs d) k = None)
      by (unfold lookupBlob; now rewrite Hmiss).
    destruct Hin as [Hin|Hin]; [congruence|].
    apply in_app_or in Hin as [Hin|Hin]; apply in_map_iff in Hin as (x & Hx & _);
      cbn in Hx; congruence.
Qed.

Lemma getFragment_missing_payload_null_witness :
  getFragment noFaults "a" (Some Samples.orphaned)
  = (Ok (Some (restored (videoBlobs Samples.orphaned)
                 (Samples.mkStored "a" None [Samples.mkVariation "v1" None] []))),
     Some Samples.orphaned).
Proof.
  refine (proj1 (getFragment_missing_payload_null noFaults Samples.orphaned
                   "a" "v1" _ (fun _ => eq_refl) _ _ _)).
  - vm_compute; reflexivity.
  - vm_compute; auto.
  - vm_compute; reflexivity.
Defined.

(** *** Failed saves *)

Lemma database_eta (d : Database) :
  d = {| fragments := fragments d; videoBlobs := videoBlobs d |}.
Proof. now destruct d. Qed.

(** *** What a save writes *)

Lemma lookupBlob_payloads m (r : VideoFragment) k b :
  In (k, b) (payloads (restored m r)) -> lookupBlob m k = b.
Proof.
  unfold payloads, restored.
  cbn [fragment_with_blobs fragment_id blob variations responses].
  rewrite !List.map_map.
  intros [[= <- <-]|H]; [reflexivity|].
  apply in_app_or in H as [H|H]; apply in_map_iff in H as (x & [= <- <-] & _);
    reflexivity.
Qed.

Lemma restored_ext_lookup (m m' : gmap string (option Blob)) (r : VideoFragment) :
  (forall k, In k (payloadIds r) -> lookupBlob m' k = lookupBlob m k) ->
  restored m' r = restored m r.
Proof.
  intros Hl. rewrite payloadIds_eq in Hl.
  unfold restored. rewrite (Hl (fragment_id r)) by now left. f_equal.
  - apply map_ext_in. intros v Hv. f_equal. apply Hl. right.
    apply in_or_app. left. now apply in_map.
  - apply map_ext_in. intros x Hx. f_equal. apply Hl. right.
    apply in_or_app. right. now apply in_map.
Qed.

Lemma lookupBlob_insert_same m k b k0 :
  (k = k0 -> lookupBlob m k0 = b) ->
  lookupBlob (<[k := b]> m) k0 = lookupBlob m k0.
Proof.
  intros H. destruct (decide (k = k0)) as [->|Hne].
  - rewrite (H eq_refl). unfold lookupBlob. rewrite lookup_insert_eq. now destruct b.
  - unfold lookupBlob. now rewrite lookup_insert_ne.
Qed.

(** Puts that write, under the key [k0], what a read finds there already
    leave that read as it was. *)
Lemma lookupBlob_writeBlobs_same l m k0 :
  (forall b, In (k0, b) l -> lookupBlob m k0 = b) ->
  lookupBlob (writeBlobs l m) k0 = lookupBlob m k0.
Proof.
  revert m. induction l as [|[k b] l IH]; intros m H; [reflexivity|].
  change (writeBlobs ((k, b) :: l) m) with (writeBlobs l (<[k := b]> m)).
  assert (E : lookupBlob (<[k := b]> m) k0 = lookupBlob m k0)
    by (apply lookupBlob_insert_same; intros ->; apply H; now left).
  rewrite IH; [exact E|]. intros b' Hin. rewrite E. apply H. now right.
Qed.

Lemma forEach_saveVideoBlob_prefix (fails : Request -> bool) {A}
    (key : A -> string) (val : A -> option Blob) (xs : list A) (d : Database) r st' :
  forEach (fun x => saveVideoBlob fails (key x) (val x)) xs (Some d) = (r, st') ->
  exists l1 l2,
    List.map (fun x => (key x, val x)) xs = l1 ++ l2
    /\ st' = Some {| fragments := fragments d;
                     videoBlobs := writeBlobs l1 (videoBlobs d) |}.
Proof.
  revert d. induction xs as [|x xs IH]; intros d H.
  - inversion H; subst. exists [], []. split; [reflexivity|].
    cbn. now rewrite <- database_eta.
  - change (forEach _ (x :: xs))
      with (bind (saveVideoBlob fails (key x) (val x))
              (fun _ => forEach (fun x => saveVideoBlob fails (key x) (val x)) xs)) in H.
    pose proof (request_run fails (PutBlob (key x))
      (fun d => (tt, {| fragments := fragments d;
                        videoBlobs := <[key x := val x]> (videoBlobs d) |})) d) as Hq.
    fold (saveVideoBlob fails (key x) (val x)) in Hq.
    destruct (fails (PutBlob (key x))).
    + rewrite (bind_Err _ _ _ _ _ Hq) in H. inversion H; subst.
      exists [], (List.map (fun x => (key x, val x)) (x :: xs)).
      split; [reflexivity|]. cbn. now rewrite <- database_eta.
    + rewrite (bind_Ok _ _ _ _ _ Hq) in H. cbn [fst snd] in H.
      apply IH in H as (l1 & l2 & Hl & ->).
      exists ((key x, val x) :: l1), l2. cbn [List.map]. rewrite Hl.
      split; reflexivity.
Qed.

(** A save that fails has made the puts of a prefix of the payloads, in
    order, and has left the metadata alone. *)
Lemma saveFragment_prefix (fails : Request -> bool) (f : VideoFragment)
    (d : Database) e st' :
  saveFragment fails f (Some d) = (Err e, st') ->
  exists l1 l2,
    payloads f = l1 ++ l2
    /\ st' = Some {| fragments := fragments d;
                     videoBlobs := writeBlobs l1 (videoBlobs d) |}.
Proof.
  unfold saveFragment, payloads.
  rewrite (bind_Ok _ _ (Some d) tt (Some d)) by reflexivity.
  unfold saveVideoBlob at 1.
  match goal with |- context [bind (request fails ?q ?run) _ (Some d)] =>
    pose proof (request_run fails q run d) as H1 end.
  destruct (fails (PutBlob (fragment_id f))).
  { rewrite (bind_Err _ _ _ _ _ H1). intros [= <- <-].
    exists [], ((fragment_id f, blob f)
                :: List.map (fun v => (variation_id v, variation_blob v)) (variations f)
                ++ List.map (fun r => (response_id r, response_blob r)) (responses f)).
    split; [reflexivity|]. cbn. now rewrite <- database_eta. }
  rewrite (bind_Ok _ _ _ _ _ H1). cbn [fst snd]. clear H1.
  match goal with |- context [bind ?m _ (Some ?d1)] =>
    destruct (m (Some d1)) as [r2 st2] eqn:H2 end.
  destruct r2 as [[]|e2].
  2:{ rewrite (bind_Err _ _ _ _ _ H2). intros [= <- <-].
      apply forEach_saveVideoBlob_prefix in H2 as (l1 & l2 & Hl & ->).
      exists ((fragment_id f, blob f) :: l1),
             (l2 ++ List.map (fun r => (response_id r, response_blob r)) (responses f)).
      split; [cbn; rewrite Hl, <- app_assoc; reflexivity|reflexivity]. }
  apply forEach_saveVideoBlob in H2 as H2'. destruct H2' as (d2 & -> & Hfr2 & Hb2).
  rewrite (bind_Ok _ _ _ _ _ H2). clear H2.
  match goal with |- context [bind ?m _ (Some d2)] =>
    destruct (m (Some d2)) as [r3 st3] eqn:H3 end.
  assert (Hd2 : d2 = {| fragments := fragments d;
                        videoBlobs :=
                          writeBlobs
                            ((fragment_id f, blob f)
                             :: List.map (fun v => (variation_id v, variation_blob v))
                                  (variations f))
                            (videoBlobs d) |}).
  { rewrite (database_eta d2), Hfr2, Hb2. reflexivity. }
  destruct r3 as [[]|e3].
  2:{ rewrite (bind_Err _ _ _ _ _ H3). intros [= <- <-].
      apply forEach_saveVideoBlob_prefix in H3 as (l1 & l2 & Hl & ->).
      exists (((fragment_id f, blob f)
               :: List.map (fun v => (variation_id v, variation_blob v)) (variations f))
              ++ l1), l2.
      split; [cbn; rewrite Hl, <- app_assoc; reflexivity|].
      rewrite Hd2. cbn [fragments videoBlobs]. now rewrite writeBlobs_app. }
  apply forEach_saveVideoBlob in H3 as H3'. destruct H3' as (d3 & -> & Hfr3 & Hb3).
  rewrite (bind_Ok _ _ _ _ _ H3). clear H3.
  rewrite request_run.
  destruct (fails (PutFragment (fragment_id f))); [|discriminate].
  intros [= <- <-].
  exists ((fragment_id f, blob f)
          :: List.map (fun v => (variation_id v, variation_blob v)) (variations f)
          ++ List.map (fun r => (response_id r, response_blob r)) (responses f)), [].
  split; [now rewrite app_nil_r|].
  rewrite (database_eta d3), Hfr3, Hb3, Hd2. cbn [fragments videoBlobs].
  change ((fragment_id f, blob f) :: ?l ++ ?l')
    with (((fragment_id f, blob f) :: l) ++ l').
  now rewrite writeBlobs_app.
Qed.

(** Every payload after the puts of [l] is as before or is what [l] puts
    under its id. *)
Lemma writeBlobs_cases l (m : gmap string (option Blob)) k :
  writeBlobs l m !! k = m !! k
  \/ exists b, In (k, b) l /\ writeBlobs l m !! k = Some b.
Proof.
  induction l as [|[k0 b0] l IH] using rev_ind; [now left|].
  rewrite writeBlobs_snoc. destruct (decide (k0 = k)) as [->|Hne].
  - right. exists b0. split; [apply in_or_app; right; now left|].
    apply lookup_insert_eq.
  - rewrite lookup_insert_ne by exact Hne.
    destruct IH as [IH|(b & Hin & IH)]; [now left|right].
    exists b. split; [apply in_or_app; now left|exact IH].
Qed.

(** C3, as stated, fails: saving a second version over a stored fragment,
    with the put of the new variation's payload failing, rejects after the
    fragment's own payload has been replaced; the stored fragment now reads
    back with the new payload under the old metadata. *)
Lemma saveFragment_failure_overwrites_payload :
  exists st1 st2,
    saveFragment noFaults Samples.version1 Samples.emptyStore = (Ok tt, st1)
    /\ getFragment noFaults "a" st1 = (Ok (Some Samples.version1), st1)
    /\ saveFragment Samples.failsOnV1 Samples.version2 st1
       = (Err (RequestError (PutBlob "v1")), st2)
    /\ getFragment noFaults "a" st2
       = (Ok (Some (Samples.mkStored "a" (Some Samples.blobB) [] [])), st2)
    /\ Samples.mkStored "a" (Some Samples.blobB) [] [] <> Samples.version1.
Proof.
  eexists. eexists. split; [vm_compute; reflexivity|].
  split; [vm_compute; reflexivity|]. split; [vm_compute; reflexivity|].
  split; [vm_compute; reflexivity|]. discriminate.
Qed.

(** C3 (amended): a [saveFragment f] that fails leaves the metadata store
    unchanged, so no metadata record is partially overwritten; every payload
    is either as it was or, under one of the ids of [f], the payload [f]
    carries for that id; and every stored fragment for which [f] carries
    nothing but what the store already returns under the ids its record
    refers to, the fragment saved under the id of [f] included, is read back
    exactly as before.  A failure of the initialization check leaves the
    store as it was.  Payload puts made before the failing request are not
    rolled back. *)
Theorem saveFragment_failure_keeps_metadata
    (fails : Request -> bool) (f : VideoFragment) st e st' :
  saveFragment fails f st = (Err e, st') ->
  (st = None /\ st' = None /\ e = NotInitialized)
  \/ exists d d' q,
       st = Some d /\ st' = Some d'
       /\ e = RequestError q /\ fails q = true
       /\ fragments d' = fragments d
       /\ (forall k, ~ In k (payloadIds f) -> videoBlobs d' !! k = videoBlobs d !! k)
       /\ (forall k, videoBlobs d' !! k = videoBlobs d !! k
                     \/ exists b, In (k, b) (payloads f)
                                  /\ videoBlobs d' !! k = Some b)
       /\ (forall id r,
             fragments d !! id = Some r ->
             (forall k b, In k (payloadIds r) -> In (k, b) (payloads f) ->
                          lookupBlob (videoBlobs d) k = b) ->
             getFragment noFaults id (Some d')
             = (fst (getFragment noFaults id (Some d)), Some d')).
Proof.
  intros H. pose proof (saveFragment_run _ _ _ _ _ H) as Hrun.
  destruct st as [d|].
  2:{ left. destruct Hrun as [[= ->] ->]. now repeat split. }
  right. destruct Hrun as (d' & -> & Hfr & Hk & q & -> & Hq).
  apply saveFragment_prefix in H as (l1 & l2 & Hp & [= Hd']).
  assert (Hb : videoBlobs d' = writeBlobs l1 (videoBlobs d)) by now rewrite Hd'.
  exists d, d', q. split; [reflexivity|]. split; [reflexivity|].
  split; [reflexivity|]. split; [exact Hq|]. split; [exact Hfr|].
  split; [exact Hk|]. split.
  - intros k. rewrite Hb.
    destruct (writeBlobs_cases l1 (videoBlobs d) k) as [E|(b & Hin & E)];
      [now left|right].
    exists b. split; [rewrite Hp; apply in_or_app; now left|exact E].
  - intros id r Hr Hsame.
    destruct (getFragment_run noFaults id d') as [H'|(q' & Hq' & _)];
      [|discriminate].
    destruct (getFragment_run noFaults id d) as [H0|(q0 & Hq0 & _)];
      [|discriminate].
    rewrite H', H0, Hfr, Hr. cbn [fst fmap option_fmap option_map].
    do 3 f_equal. rewrite Hb. apply restored_ext_lookup. intros k Hin.
    apply lookupBlob_writeBlobs_same. intros b Hl1.
    apply Hsame; [exact Hin|]. rewrite Hp. apply in_or_app. now left.
Qed.

Lemma saveFragment_failure_keeps_metadata_witness :
  saveFragment Samples.failsOnV1 Samples.version2 (Some Samples.stored1)
  = (Err (RequestError (PutBlob "v1")), Some Samples.stored1')
  /\ fragments Samples.stored1' = fragments Samples.stored1
  /\ (videoBlobs Samples.stored1' !! "a" = videoBlobs Samples.stored1 !! "a"
      \/ exists b, In ("a", b) (payloads Samples.version2)
                   /\ videoBlobs Samples.stored1' !! "a" = Some b).
Proof.
  assert (Hrun : saveFragment Samples.failsOnV1 Samples.version2 (Some Samples.stored1)
                 = (Err (RequestError (PutBlob "v1")), Some Samples.stored1'))
    by (vm_compute; reflexivity).
  split; [exact Hrun|].
  destruct (saveFragment_failure_keeps_metadata _ _ _ _ _ Hrun)
    as [(Hn & _)|(d & d' & q & Hd & Hd' & _ & _ & Hfr & _ & Hcases & _)];
    [discriminate|].
  injection Hd as <-. injection Hd' as <-. split; [exact Hfr|exact (Hcases "a")].
Defined.

(** *** Deleting *)

(** C9: after a successful [deleteFragment id] on an initialized store,
    [getFragment id] finds nothing (unless its own read request fails), and
    every payload the deleted record referenced (its own, each variation's,
    each response's) is gone from the blob store. *)
Theorem deleteFragment_getFragment
    (fails fails' : Request -> bool) (id : string) (d : Database) st' :
  deleteFragment fails id (Some d) = (Ok tt, st') ->
  exists d', st' = Some d'
    /\ fragments d' !! id = None
    /\ (getFragment fails' id st' = (Ok None, st')
        \/ fails' (GetFragment id) = true
           /\ getFragment fails' id st' = (Err (RequestError (GetFragment id)), st'))
    /\ (forall r k, fragments d !! id = Some r -> In k (referencedIds id r) ->
         videoBlobs d' !! k = None).
Proof.
  intros H.
  assert (Hget : forall d', fragments d' !! id = None ->
    getFragment fails' id (Some d') = (Ok None, Some d')
    \/ fails' (GetFragment id) = true
       /\ getFragment fails' id (Some d') = (Err (RequestError (GetFragment id)), Some d')).
  { intros d' Hnone.
    destruct (getFragment_run fails' id d')
      as [Hg|(q & Hq & [->|(r & k & Hr & _)] & Hg)].
    - left. now rewrite Hg, Hnone.
    - right. auto.
    - congruence. }
  unfold deleteFragment in H.
  rewrite (bind_Ok _ _ (Some d) tt (Some d)) in H by reflexivity.
  destruct (getFragment_run fails id d) as [Hg|(q & _ & _ & Hg)];
    [|rewrite (bind_Err _ _ _ _ _ Hg) in H; discriminate].
  rewrite (bind_Ok _ _ _ _ _ Hg) in H.
  destruct (fragments d !! id) as [r|] eqn:Hr; cbn [fmap option_fmap option_map] in H.
  2:{ injection H as <-. exists d. split; [easy|]. split; [exact Hr|].
      split; [now apply Hget|]. intros; discriminate. }
  unfold deleteVideoBlob at 1 in H.
  match type of H with context [bind (request fails ?q ?run) _ (Some d)] =>
    pose proof (request_run fails q run d) as H1 end.
  destruct (fails (DeleteBlob id));
    [rewrite (bind_Err _ _ _ _ _ H1) in H; discriminate|].
  rewrite (bind_Ok _ _ _ _ _ H1) in H. cbn [fst snd] in H. clear H1.
  match type of H with context [bind ?m _ (Some ?d1)] =>
    destruct (m (Some d1)) as [r2 st2] eqn:H2 end.
  destruct r2 as [[]|e2]; [|rewrite (bind_Err _ _ _ _ _ H2) in H; discriminate].
  rewrite (bind_Ok _ _ _ _ _ H2) in H.
  apply forEach_deleteVideoBlob in H2 as (d2 & -> & Hfr2 & Hb2).
  match type of H with context [bind ?m _ (Some d2)] =>
    destruct (m (Some d2)) as [r3 st3] eqn:H3 end.
  destruct r3 as [[]|e3]; [|rewrite (bind_Err _ _ _ _ _ H3) in H; discriminate].
  rewrite (bind_Ok _ _ _ _ _ H3) in H.
  apply forEach_deleteVideoBlob in H3 as (d3 & -> & Hfr3 & Hb3).
  rewrite request_run in H.
  destruct (fails (DeleteFragment id)); [discriminate|].
  injection H as <-. eexists. split; [reflexivity|]. cbn [fst snd fragments videoBlobs].
  split; [apply lookup_delete_eq|].
  split; [apply Hget; apply lookup_delete_eq|].
  intros r' k [= <-] Hk.
  unfold referencedIds in Hk. rewrite Hb3, Hb2. cbn [fragments videoBlobs].
  unfold restored. cbn [fragment_with_blobs variations responses].
  rewrite !List.map_map. cbn [variation_with_blob variation_id response_with_blob response_id].
  destruct Hk as [<-|Hk].
  - apply deleteBlobs_gone. right. apply deleteBlobs_gone. right.
    apply lookup_delete_eq.
  - apply in_app_or in Hk as [Hk|Hk].
    + apply deleteBlobs_gone. right. apply deleteBlobs_gone. now left.
    + apply deleteBlobs_gone. now left.
Qed.

Lemma deleteFragment_getFragment_witness :
  exists d',
    deleteFragment noFaults "a" (Some Samples.storedPlain) = (Ok tt, Some d')
    /\ getFragment noFaults "a" (Some d') = (Ok None, Some d')
    /\ videoBlobs d' !! "v1" = None.
Proof.
  destruct (deleteFragment noFaults "a" (Some Samples.storedPlain)) as [res st'] eqn:Hrun.
  assert (Hres : res = Ok tt)
    by (apply (f_equal fst) in Hrun; vm_compute in Hrun; congruence).
  subst res.
  destruct (deleteFragment_getFragment noFaults noFaults "a" _ _ Hrun)
    as (d' & -> & _ & [Hget|[Hf _]] & Hgone); [|discriminate].
  exists d'. split; [reflexivity|]. split; [exact Hget|].
  apply (Hgone (fragmentToSave Samples.plain)); [reflexivity|].
  right. now left.
Defined.

(** On a store that respects the key path, the ids a record refers to are
    its payload ids. *)
Lemma referencedIds_keyed (d : Database) (id : string) (r : VideoFragment) :
  keyed d -> fragments d !! id = Some r -> referencedIds id r = payloadIds r.
Proof.
  intros Hkey Hr. rewrite payloadIds_eq. unfold referencedIds.
  now rewrite (Hkey _ _ Hr).
Qed.

(** The key-path invariant holds of a fresh store and is kept by
    [saveFragment]. *)
Lemma keyed_empty : keyed {| fragments := ∅; videoBlobs := ∅ |}.
Proof. intros k r H. cbn in H. now rewrite lookup_empty in H. Qed.

Lemma keyed_saveFragment (fails : Request -> bool) (f : VideoFragment) d r d' :
  keyed d -> saveFragment fails f (Some d) = (r, Some d') -> keyed d'.
Proof.
  intros Hkey H. apply saveFragment_run in H as (d'' & [= <-] & H).
  intros k x Hx. destruct r as [[]|e].
  - destruct H as [Hfr _]. rewrite Hfr in Hx.
    destruct (decide (fragment_id f = k)) as [<-|Hne].
    + rewrite lookup_insert_eq in Hx. now injection Hx as <-.
    + rewrite lookup_insert_ne in Hx by exact Hne. now apply Hkey.
  - destruct H as [Hfr _]. rewrite Hfr in Hx. now apply Hkey.
Qed.

End StoreFacts.

(** * Properties of the engine *)

Module EngineFacts.

Import Js Engine EngineSpec.
Local Open Scope Q_scope.

(** *** Running the detectors *)

Lemma pushEach_Forall {A B} (P : B -> Prop) (body : A -> Run (list B)) xs c :
  (forall x c', Forall P (fst (body x c'))) ->
  Forall P (fst (pushEach body xs c)).
Proof.
  intros Hb. revert c. induction xs as [|x xs IH]; intros c; [constructor|].
  cbn [pushEach]. unfold andThen, pure.
  specialize (Hb x c). destruct (body x c) as [ys c1].
  specialize (IH c1). destruct (pushEach body xs c1) as [zs c2].
  cbn [fst] in *. apply Forall_app. now split.
Qed.

Lemma pushEach_map {A B C} (g : B -> C) (h : A -> list C)
    (body : A -> Run (list B)) xs c :
  (forall x c', List.map g (fst (body x c')) = h x) ->
  List.map g (fst (pushEach body xs c)) = flat_map h xs.
Proof.
  intros Hb. revert c. induction xs as [|x xs IH]; intros c; [reflexivity|].
  cbn [pushEach flat_map]. unfold andThen, pure.
  specialize (Hb x c). destruct (body x c) as [ys c1].
  specialize (IH c1). destruct (pushEach body xs c1) as [zs c2].
  cbn [fst] in *. now rewrite List.map_app, Hb, IH.
Qed.

Lemma detectEmotionalCycles_type host fragments c :
  Forall (fun i => insight_type i = emotional_cycle)
    (fst (detectEmotionalCycles host fragments c)).
Proof.
  apply pushEach_Forall. intros [pattern count] c'.
  destruct (2 <=? count)%nat; cbn; auto.
Qed.

Lemma detectTriggerPatterns_type host fragments c :
  Forall (fun i => insight_type i = trigger_pattern)
    (fst (detectTriggerPatterns host fragments c)).
Proof.
  apply pushEach_Forall. intros [key transitions] c'.
  destruct (2 <=? length transitions)%nat; cbn; auto.
Qed.

Lemma detectGrowthTrends_type host fragments c :
  Forall (fun i => insight_type i = growth_trend)
    (fst (detectGrowthTrends host fragments c)).
Proof.
  unfold detectGrowthTrends.
  destruct (length fragments <? 5)%nat; [constructor|].
  unfold andThen, pure, now.
  repeat match goal with |- context [if ?b then _ else _] => destruct b end;
    cbn; auto.
Qed.

Lemma detectResonanceClusters_type host fragments c :
  Forall (fun i => insight_type i = resonance_cluster)
    (fst (detectResonanceClusters host fragments c)).
Proof.
  unfold detectResonanceClusters.
  destruct (3 <=? length (highRatedFragments fragments))%nat; [|constructor].
  unfold andThen, pure, now.
  repeat match goal with |- context [if ?b then _ else _] => destruct b end;
    cbn; auto.
Qed.

(** The analysis is the four detectors run in turn, the first three on the
    fragments sorted by time. *)
Lemma analyzeEmotionalPatterns_run host fragments c :
  let sorted := sort (fun a b => timestamp a - timestamp b) fragments in
  let r1 := detectEmotionalCycles host sorted c in
  let r2 := detectTriggerPatterns host sorted (snd r1) in
  let r3 := detectGrowthTrends host sorted (snd r2) in
  let r4 := detectResonanceClusters host fragments (snd r3) in
  analyzeEmotionalPatterns host fragments c
  = (fst r1 ++ fst r2 ++ fst r3 ++ fst r4, snd r4).
Proof.
  cbv zeta. unfold analyzeEmotionalPatterns, andThen, pure.
  destruct (detectEmotionalCycles host _ c) as [i1 c1]. cbn [fst snd].
  destruct (detectTriggerPatterns host _ c1) as [i2 c2]. cbn [fst snd].
  destruct (detectGrowthTrends host _ c2) as [i3 c3]. cbn [fst snd].
  destruct (detectResonanceClusters host _ c3) as [i4 c4]. reflexivity.
Qed.

Lemma filter_none {A} (p : A -> bool) (l : list A) :
  Forall (fun x => p x = false) l -> List.filter p l = [].
Proof.
  induction 1 as [|x l Hx _ IH]; [reflexivity|]. cbn. now rewrite Hx.
Qed.

Lemma filter_all {A} (p : A -> bool) (l : list A) :
  Forall (fun x => p x = true) l -> List.filter p l = l.
Proof.
  induction 1 as [|x l Hx _ IH]; [reflexivity|]. cbn. now rewrite Hx, IH.
Qed.

Lemma Qle_bool_sub (a b : Q) : a <= b -> Qle_bool (a - b) 0 = true.
Proof. intros H. apply Qle_bool_iff. lra. Qed.

(** *** Resonance clusters *)

(** C4 fails on the code: [findCommonEmotions] counts tags, not fragments.
    Of three well-rated fragments only one carries "calm" (one in three,
    below 60%), yet its two "calm" tags reach the threshold of 2 and the
    insight reports "calm". *)
Theorem findCommonEmotions_counts_every_tag (host : Host) (c : Calls) :
  highRatedFragments EngineSamples.resonant = EngineSamples.resonant
  /\ fragmentsCarrying "calm" EngineSamples.resonant = 1%nat
  /\ Math_ceil (ofNat (length EngineSamples.resonant) * 0.6) = 2%Z
  /\ findCommonEmotions EngineSamples.resonant = ["calm"]
  /\ exists i rest,
       fst (analyzeEmotionalPatterns host EngineSamples.resonant c) = i :: rest
       /\ insight_type i = resonance_cluster
       /\ description i = "Strong resonance with calm emotional states".
Proof.
  split; [vm_compute; reflexivity|]. split; [vm_compute; reflexivity|].
  split; [vm_compute; reflexivity|]. split; [vm_compute; reflexivity|].
  eexists. eexists. split; [vm_compute; reflexivity|]. split; reflexivity.
Qed.

(** *** The five-day scenario *)

(** C6: five fragments dated day 1 to day 5 with clarity 3, 4, 5, 7, 9, no
    tags, no ratings and default fields give exactly one insight, a growth
    trend for clarity related to all five ids. *)
Theorem clarityRising_single_growth_trend
    (host : Host) (c : Calls) (id1 id2 id3 id4 id5 : string) :
  exists i,
    fst (analyzeEmotionalPatterns host
           (EngineSamples.clarityRising id1 id2 id3 id4 id5) c) = [i]
    /\ insight_type i = growth_trend
    /\ description i = "Increasing self-clarity over time (1.50 improvement rate)"
    /\ relatedFragments i = [id1; id2; id3; id4; id5].
Proof.
  eexists. split; [vm_compute; reflexivity|]. repeat split.
Qed.

(** *** Calm, anxious, calm *)

Lemma sort_three_by_time (f1 f2 f3 : VideoFragment) :
  timestamp f1 <= timestamp f2 -> timestamp f2 <= timestamp f3 ->
  sort (fun a b => timestamp a - timestamp b) [f1; f2; f3] = [f1; f2; f3].
Proof.
  intros H12 H23. unfold sort. cbn [fold_right insertSorted].
  rewrite (Qle_bool_sub _ _ H23). cbn [insertSorted].
  now rewrite (Qle_bool_sub _ _ H12).
Qed.

Lemma detectEmotionalCycles_calm_anxious_calm host c (f1 f2 f3 : VideoFragment) :
  dominantIs f1 "calm" -> dominantIs f2 "anxious" -> dominantIs f3 "calm" ->
  fst (detectEmotionalCycles host [f1; f2; f3] c) = [].
Proof.
  unfold dominantIs. intros H1 H2 H3.
  unfold detectEmotionalCycles, emotionSequences. cbn [flat_map].
  destruct (dominantEmotion (tags f1)) as [t1|]; [|discriminate].
  destruct (dominantEmotion (tags f2)) as [t2|]; [|discriminate].
  destruct (dominantEmotion (tags f3)) as [t3|]; [|discriminate].
  cbn in H1, H2, H3. injection H1 as ->. injection H2 as ->. injection H3 as ->.
  vm_compute. reflexivity.
Qed.

Lemma detectTriggerPatterns_calm_anxious_calm host c (f1 f2 f3 : VideoFragment) :
  dominantIs f1 "calm" -> dominantIs f2 "anxious" -> dominantIs f3 "calm" ->
  fst (detectTriggerPatterns host [f1; f2; f3] c) = [].
Proof.
  unfold dominantIs. intros H1 H2 H3.
  unfold detectTriggerPatterns, emotionTransitions. cbn [tl combine flat_map].
  destruct (dominantEmotion (tags f1)) as [t1|]; [|discriminate].
  destruct (dominantEmotion (tags f2)) as [t2|]; [|discriminate].
  destruct (dominantEmotion (tags f3)) as [t3|]; [|discriminate].
  cbn in H1, H2, H3. injection H1 as ->. injection H2 as ->. injection H3 as ->.
  vm_compute. reflexivity.
Qed.

Lemma emotionCycles_calm_anxious_calm (f1 f2 f3 : VideoFragment) :
  dominantIs f1 "calm" -> dominantIs f2 "anxious" -> dominantIs f3 "calm" ->
  emotionCycles (emotionSequences [f1; f2; f3]) = [("calm-anxious-calm", 1%nat)].
Proof.
  unfold dominantIs. intros H1 H2 H3.
  unfold emotionSequences. cbn [flat_map].
  destruct (dominantEmotion (tags f1)) as [t1|]; [|discriminate].
  destruct (dominantEmotion (tags f2)) as [t2|]; [|discriminate].
  destruct (dominantEmotion (tags f3)) as [t3|]; [|discriminate].
  cbn in H1, H2, H3. injection H1 as ->. injection H2 as ->. injection H3 as ->.
  vm_compute. reflexivity.
Qed.

Lemma transitionGroups_calm_anxious_calm (f1 f2 f3 : VideoFragment) :
  dominantIs f1 "calm" -> dominantIs f2 "anxious" -> dominantIs f3 "calm" ->
  groupSizes (transitionGroups (emotionTransitions [f1; f2; f3]))
  = [("calm->anxious", 1%nat); ("anxious->calm", 1%nat)].
Proof.
  unfold dominantIs. intros H1 H2 H3.
  unfold emotionTransitions. cbn [tl combine flat_map].
  destruct (dominantEmotion (tags f1)) as [t1|]; [|discriminate].
  destruct (dominantEmotion (tags f2)) as [t2|]; [|discriminate].
  destruct (dominantEmotion (tags f3)) as [t3|]; [|discriminate].
  cbn in H1, H2, H3. injection H1 as ->. injection H2 as ->. injection H3 as ->.
  vm_compute. reflexivity.
Qed.

(** C5: for three time-sorted fragments whose dominant emotions are calm,
    anxious, calm, the single three-emotion pattern is counted once and each
    of the transitions calm->anxious and anxious->calm occurs once, so the
    analysis yields no [emotional_cycle] insight and no [trigger_pattern]
    insight. *)
Theorem calm_anxious_calm_no_cycle_no_trigger
    (host : Host) (c : Calls) (f1 f2 f3 : VideoFragment) :
  dominantIs f1 "calm" -> dominantIs f2 "anxious" -> dominantIs f3 "calm" ->
  timestamp f1 <= timestamp f2 -> timestamp f2 <= timestamp f3 ->
  let sorted := sort (fun a b => timestamp a - timestamp b) [f1; f2; f3] in
  let insights := fst (analyzeEmotionalPatterns host [f1; f2; f3] c) in
  emotionCycles (emotionSequences sorted) = [("calm-anxious-calm", 1%nat)]
  /\ groupSizes (transitionGroups (emotionTransitions sorted))
     = [("calm->anxious", 1%nat); ("anxious->calm", 1%nat)]
  /\ List.filter isCycle insights = []
  /\ List.filter isTrigger insights = [].
Proof.
  intros H1 H2 H3 H12 H23 sorted insights. subst sorted insights.
  rewrite analyzeEmotionalPatterns_run. cbn [fst snd].
  rewrite (sort_three_by_time _ _ _ H12 H23).
  rewrite (detectEmotionalCycles_calm_anxious_calm _ _ _ _ _ H1 H2 H3).
  rewrite (detectTriggerPatterns_calm_anxious_calm _ _ _ _ _ H1 H2 H3).
  cbn [app]. rewrite !List.filter_app.
  split; [now apply emotionCycles_calm_anxious_calm|].
  split; [now apply transitionGroups_calm_anxious_calm|].
  split.
  - rewrite !filter_none; [reflexivity| |].
    + eapply List.Forall_impl; [|apply detectResonanceClusters_type].
      unfold isCycle. now intros i ->.
    + eapply List.Forall_impl; [|apply detectGrowthTrends_type].
      unfold isCycle. now intros i ->.
  - rewrite !filter_none; [reflexivity| |].
    + eapply List.Forall_impl; [|apply detectResonanceClusters_type].
      unfold isTrigger. now intros i ->.
    + eapply List.Forall_impl; [|apply detectGrowthTrends_type].
      unfold isTrigger. now intros i ->.
Qed.

Lemma calm_anxious_calm_no_cycle_no_trigger_witness :
  List.filter isCycle
    (fst (analyzeEmotionalPatterns (EngineSamples.hostAt 0)
            EngineSamples.calmAnxiousCalm EngineSamples.start)) = []
  /\ List.filter isTrigger
       (fst (analyzeEmotionalPatterns (EngineSamples.hostAt 0)
               EngineSamples.calmAnxiousCalm EngineSamples.start)) = [].
Proof.
  apply (calm_anxious_calm_no_cycle_no_trigger (EngineSamples.hostAt 0)
           EngineSamples.start
           (EngineSamples.mkFragment "f1" 0 5 [EngineSamples.mkTag "calm" 5] [])
           (EngineSamples.mkFragment "f2" 600000 5
              [EngineSamples.mkTag "anxious" 7; EngineSamples.mkTag "calm" 2] [])
           (EngineSamples.mkFragment "f3" 1200000 5 [EngineSamples.mkTag "calm" 5] []));
    [reflexivity | reflexivity | reflexivity
     | vm_compute; discriminate | vm_compute; discriminate].
Defined.

(** *** Determinism of cycle detection *)

(** What the cycle insights of a time-sorted collection say. *)
Lemma detectEmotionalCycles_content host fragments c :
  List.map content (fst (detectEmotionalCycles host fragments c))
  = cycleContents fragments.
Proof.
  unfold detectEmotionalCycles, cycleContents. cbv zeta.
  apply pushEach_map. intros [pattern count] c'.
  destruct (2 <=? count)%nat; reflexivity.
Qed.

(** C8: two runs of the analysis on the same fragments, under any two hosts
    and any two histories of clock and generator reads, give the same
    [emotional_cycle] insights up to generated id and timestamp: the same
    descriptions, confidences and related fragments, in the same order. *)
Theorem cycle_detection_deterministic
    (host1 host2 : Host) (c1 c2 : Calls) (fragments : list VideoFragment) :
  List.map content
    (List.filter isCycle (fst (analyzeEmotionalPatterns host1 fragments c1)))
  = List.map content
      (List.filter isCycle (fst (analyzeEmotionalPatterns host2 fragments c2))).
Proof.
  assert (H : forall host c,
    List.map content
      (List.filter isCycle (fst (analyzeEmotionalPatterns host fragments c)))
    = cycleContents (sort (fun a b => timestamp a - timestamp b) fragments)).
  { intros host c. rewrite analyzeEmotionalPatterns_run. cbn [fst snd].
    rewrite !List.filter_app.
    rewrite filter_all.
    2:{ eapply List.Forall_impl; [|apply detectEmotionalCycles_type].
        unfold isCycle. now intros i ->. }
    rewrite !filter_none.
    - rewrite !app_nil_r. apply detectEmotionalCycles_content.
    - eapply List.Forall_impl; [|apply detectResonanceClusters_type].
      unfold isCycle. now intros i ->.
    - eapply List.Forall_impl; [|apply detectGrowthTrends_type].
      unfold isCycle. now intros i ->.
    - eapply List.Forall_impl; [|apply detectTriggerPatterns_type].
      unfold isCycle. now intros i ->. }
  now rewrite !H.
Qed.

(** *** Sorting and truncating *)

Lemma In_insertSorted {A} (cmp : A -> A -> Q) (x z : A) (l : list A) :
  In z (insertSorted cmp x l) <-> z = x \/ In z l.
Proof.
  induction l as [|y l IH]; cbn; [intuition|].
  destruct (Qle_bool (cmp x y) 0); cbn; [intuition|].
  rewrite IH. intuition.
Qed.

Lemma In_sort {A} (cmp : A -> A -> Q) (z : A) (l : list A) :
  In z (sort cmp l) <-> In z l.
Proof.
  induction l as [|x l IH]; cbn; [reflexivity|].
  rewrite In_insertSorted, IH. intuition.
Qed.

Lemma In_firstn_In {A} (n : nat) (z : A) (l : list A) :
  In z (firstn n l) -> In z l.
Proof.
  revert l. induction n as [|n IH]; intros [|y l]; cbn; try tauto.
  intros [->|H]; [now left|right; auto].
Qed.

Lemma In_skipn_In {A} (n : nat) (z : A) (l : list A) :
  In z (skipn n l) -> In z l.
Proof.
  revert l. induction n as [|n IH]; intros [|y l]; cbn; try tauto.
  intros H. right. auto.
Qed.

Lemma In_slice {A} (i j : nat) (z : A) (l : list A) :
  In z (slice i j l) -> In z l.
Proof.
  unfold slice. intros H. eapply In_skipn_In, In_firstn_In, H.
Qed.

Lemma StronglySorted_weaken {A} (R R' : A -> A -> Prop) (l : list A) :
  (forall a b, R a b -> R' a b) -> StronglySorted R l -> StronglySorted R' l.
Proof.
  intros HR. induction 1 as [|x l Hs IH Hx]; constructor; [exact IH|].
  eapply List.Forall_impl; [|exact Hx]. intros b. apply HR.
Qed.

Section SortBy.

Context {A : Type} (cmp : A -> A -> Q).

Hypothesis cmp_total : forall a b, ~ cmp a b <= 0 -> cmp b a <= 0.
Hypothesis cmp_trans : forall a b c, cmp a b <= 0 -> cmp b c <= 0 -> cmp a c <= 0.

Lemma insertSorted_sorted (x : A) (l : list A) :
  StronglySorted (ordered cmp) l -> StronglySorted (ordered cmp) (insertSorted cmp x l).
Proof.
  induction 1 as [|y l Hs IH Hy]; cbn; [repeat constructor|].
  destruct (Qle_bool (cmp x y) 0) eqn:Hc.
  - apply Qle_bool_iff in Hc. unfold ordered. constructor; [now constructor|].
    constructor; [exact Hc|].
    eapply List.Forall_impl; [|exact Hy]. intros z Hz. now apply (cmp_trans x y z).
  - constructor; [exact IH|].
    apply List.Forall_forall. intros z Hz.
    apply In_insertSorted in Hz as [->|Hz].
    + apply cmp_total. intros Hxy. apply Qle_bool_iff in Hxy. congruence.
    + now apply (proj1 (List.Forall_forall _ _) Hy).
Qed.

Lemma sort_sorted (l : list A) : StronglySorted (ordered cmp) (sort cmp l).
Proof.
  induction l as [|x l IH]; cbn; [constructor|].
  now apply insertSorted_sorted.
Qed.

End SortBy.

Lemma StronglySorted_firstn {A} (R : A -> A -> Prop) (n : nat) (l : list A) :
  StronglySorted R l -> StronglySorted R (firstn n l).
Proof.
  intros H. revert n. induction H as [|x l Hs IH Hx]; intros [|n]; cbn;
    try constructor; auto.
  apply List.Forall_forall. intros z Hz.
  apply (proj1 (List.Forall_forall _ _) Hx).
  eapply In_firstn_In, Hz.
Qed.

(** C7: whatever the mood, the fragments and the patterns, the list returned
    by [generateRecommendations] has at most 10 entries and is sorted by
    non-increasing score. *)
Theorem generateRecommendations_top10_sorted
    (host : Host) (c : Calls) (currentMood : string)
    (fragments : list VideoFragment) (patterns : list PatternInsight) :
  let recommendations :=
    fst (generateRecommendations host currentMood fragments patterns c) in
  (length recommendations <= 10)%nat
  /\ StronglySorted byScoreDescending recommendations.
Proof.
  cbv zeta. unfold generateRecommendations, andThen, pure.
  destruct (mapRun _ _ c) as [moodMatches c']. cbn [fst].
  unfold slice. cbn [skipn Nat.sub]. split.
  - apply firstn_le_length.
  - apply StronglySorted_firstn.
    apply (StronglySorted_weaken (ordered (fun a b => score b - score a))).
    + unfold byScoreDescending, ordered. intros a b Hab. lra.
    + apply (sort_sorted (fun a b => score b - score a)).
      * intros a b Hab. lra.
      * intros a b d Hab Hbd. lra.
Qed.

(** *** Score bounds *)

Lemma mapRun_In {A B} (body : A -> Run B) (xs : list A) (c : Calls) (y : B) :
  In y (fst (mapRun body xs c)) ->
  exists x c', In x xs /\ y = fst (body x c').
Proof.
  revert c. induction xs as [|x xs IH]; intros c; cbn [mapRun]; [intros []|].
  unfold andThen, pure. destruct (body x c) as [y0 c1] eqn:Hb.
  specialize (IH c1). destruct (mapRun body xs c1) as [ys c2]. cbn [fst] in *.
  intros [<-|Hin].
  - exists x, c. split; [now left|]. now rewrite Hb.
  - destruct (IH Hin) as (x' & c' & Hx' & ->). exists x', c'. split; [now right|easy].
Qed.

Lemma sum_bounds (lo hi : Q) (l : list Q) :
  (forall x, In x l -> lo <= x <= hi) ->
  lo * ofNat (length l) <= sum l <= hi * ofNat (length l).
Proof.
  unfold sum. intros Hl.
  assert (H : forall acc,
    acc + lo * ofNat (length l) <= fold_left Qplus l acc
    <= acc + hi * ofNat (length l)).
  { induction l as [|x l IH]; intros acc.
    - change (ofNat (length (@nil Q))) with 0. cbn [fold_left]. lra.
    - cbn [fold_left length]. unfold ofNat in *.
      rewrite Nat2Z.inj_succ, <- Z.add_1_r, inject_Z_plus.
      specialize (IH (fun y Hy => Hl y (or_intror Hy)) (acc + x)).
      specialize (Hl x (or_introl eq_refl)). change (inject_Z 1) with 1. lra. }
  specialize (H 0). lra.
Qed.

Lemma ofNat_pos (n : nat) : (0 < n)%nat -> 0 < ofNat n.
Proof.
  intros H. unfold ofNat. change 0 with (inject_Z 0).
  rewrite <- Zlt_Qlt. lia.
Qed.

Lemma ofNat_le (n m : nat) : (n <= m)%nat -> ofNat n <= ofNat m.
Proof. intros H. unfold ofNat. rewrite <- Zle_Qle. lia. Qed.

Lemma ratio_bounds (a b lo hi : Q) :
  0 < b -> lo * b <= a <= hi * b -> lo <= a / b <= hi.
Proof.
  intros Hb [H1 H2]. split.
  - now apply Qle_shift_div_l.
  - now apply Qle_shift_div_r.
Qed.

Lemma avgRating_bounds (f : VideoFragment) (default : Q) :
  (forall r, In r (ratings f) -> 0 <= resonance r <= 5) ->
  0 <= default <= 5 ->
  0 <= avgRating f default <= 5.
Proof.
  intros Hr Hd. unfold avgRating.
  destruct (0 <? length (ratings f))%nat eqn:Hlen; [|exact Hd].
  apply Nat.ltb_lt in Hlen.
  apply ratio_bounds; [now apply ofNat_pos|].
  rewrite <- (length_map resonance).
  apply sum_bounds. intros x Hx.
  apply in_map_iff in Hx as (r & <- & Hin). now apply Hr.
Qed.

Lemma calculateMoodScore_bounds (host : Host) (f : VideoFragment) (c : Calls) :
  (forall r, In r (ratings f) -> 0 <= resonance r <= 5) ->
  timestamp f <= inject_Z (Date_now host (clockReads c)) ->
  0 <= fst (calculateMoodScore host f c) <= 1.
Proof.
  intros Hr Ht. unfold calculateMoodScore, andThen, pure, now. cbn [fst].
  pose proof (avgRating_bounds f 3 Hr ltac:(lra)) as Havg.
  set (avg := avgRating f 3) in *.
  assert (Hh : 0 <= ofNat (length (List.filter helpful (ratings f)))
                    / ofNat (Nat.max (length (ratings f)) 1) <= 1).
  { apply ratio_bounds; [apply ofNat_pos; lia|]. split.
    - rewrite Qmult_0_l. change 0 with (ofNat 0). apply ofNat_le. lia.
    - rewrite Qmult_1_l. apply ofNat_le.
      pose proof (filter_length_le helpful (ratings f)). lia. }
  set (h := ofNat (length (List.filter helpful (ratings f)))
            / ofNat (Nat.max (length (ratings f)) 1)) in *.
  assert (Hrec : 0 <= Qmax 0 (1 - (inject_Z (Date_now host (clockReads c)) - timestamp f)
                                   / (30 * 24 * 60 * 60 * 1000)) <= 1).
  { split; [apply Q.le_max_l|]. apply Q.max_lub; [lra|].
    assert (0 <= (inject_Z (Date_now host (clockReads c)) - timestamp f)
                 / (30 * 24 * 60 * 60 * 1000)).
    { apply Qle_shift_div_l; [reflexivity|]. lra. }
    lra. }
  set (recency := Qmax 0 _) in *.
  assert (Ha : 0 <= avg / 5 <= 1) by (apply ratio_bounds; lra).
  set (a := avg / 5) in *.
  split.
  - assert (0 <= a * 0.4) by (apply Qmult_le_0_compat; lra).
    assert (0 <= h * 0.4) by (apply Qmult_le_0_compat; lra).
    assert (0 <= recency * 0.2) by (apply Qmult_le_0_compat; lra).
    lra.
  - lra.
Qed.

(** C10, as stated, fails: the recency term is only clamped from below, so
    a fragment dated after the clock reading gets a recency above 1.  A
    helpful, fully resonant fragment dated thirty days ahead scores 6/5. *)
Lemma generateRecommendations_score_above_one :
  (forall r, In r (ratings EngineSamples.fromTheFuture) -> 0 <= resonance r <= 5)
  /\ exists m,
       fst (generateRecommendations (EngineSamples.hostAt 0) "reflective"
              [EngineSamples.fromTheFuture] [] EngineSamples.start) = [m]
       /\ score m == 6 # 5
       /\ ~ score m <= 1.
Proof.
  split.
  - intros r [<-|[]]. cbn. lra.
  - eexists. split; [vm_compute; reflexivity|]. split; [reflexivity|].
    intros H. vm_compute in H. now apply H.
Qed.

(** C10 (amended): provided every rating's resonance lies in [0,5], every
    supplied insight's confidence lies in [0,1] and no fragment is dated
    after a reading of the clock, every recommendation returned by
    [generateRecommendations] has a score in [0,1]. *)
Theorem generateRecommendations_score_unit_interval
    (host : Host) (c : Calls) (currentMood : string)
    (fragments : list VideoFragment) (patterns : list PatternInsight) :
  (forall f r, In f fragments -> In r (ratings f) -> 0 <= resonance r <= 5) ->
  (forall p, In p patterns -> 0 <= insight_confidence p <= 1) ->
  (forall f n, In f fragments -> timestamp f <= inject_Z (Date_now host n)) ->
  forall m,
    In m (fst (generateRecommendations host currentMood fragments patterns c)) ->
    0 <= score m <= 1.
Proof.
  intros Hres Hconf Htime m Hm.
  unfold generateRecommendations in Hm. unfold andThen at 1 in Hm.
  match type of Hm with context [mapRun ?body ?xs c] =>
    pose proof (mapRun_In body xs c) as Hmood;
    destruct (mapRun body xs c) as [moodMatches c'] end.
  cbn [pure fst] in Hm, Hmood.
  apply In_slice, In_sort in Hm.
  apply in_app_or in Hm as [Hm|Hm].
  { destruct (Hmood m Hm) as (f & c0 & Hf & ->).
    apply filter_In in Hf as [Hf _].
    unfold andThen, pure.
    pose proof (calculateMoodScore_bounds host f c0 (fun r => Hres f r Hf)
                  (Htime f _ Hf)) as Hb.
    destruct (calculateMoodScore host f c0) as [s c1]. exact Hb. }
  apply in_app_or in Hm as [Hm|Hm].
  { unfold findPatternCompletions in Hm.
    apply in_flat_map in Hm as (p & Hp & Hm).
    destruct (insight_type p); try contradiction.
    destruct (gt (insight_confidence p) 0.6); [|contradiction].
    apply in_map_iff in Hm as (f & <- & _). cbn [score].
    specialize (Hconf p Hp). lra. }
  apply in_app_or in Hm as [Hm|Hm].
  { unfold findContrastLearning in Hm.
    destruct (length _ =? 0)%nat; [contradiction|].
    apply in_map_iff in Hm as (f & <- & _). cbn [score]. lra. }
  unfold findGrowthOpportunities in Hm.
  apply in_map_iff in Hm as (f & <- & _). cbn [score]. lra.
Qed.

Lemma generateRecommendations_score_unit_interval_witness :
  Forall (fun m => 0 <= score m <= 1)
    (fst (generateRecommendations (EngineSamples.hostAt 5) "reflective"
            EngineSamples.resonant [] EngineSamples.start)).
Proof.
  apply List.Forall_forall.
  apply generateRecommendations_score_unit_interval.
  - intros f r Hf Hr. cbn in Hf.
    repeat match goal with H : _ \/ _ |- _ => destruct H | H : False |- _ => destruct H end;
      subst; cbn in Hr;
      repeat match goal with H : _ \/ _ |- _ => destruct H | H : False |- _ => destruct H end;
      subst; cbn; lra.
  - intros p [].
  - intros f n Hf. cbn in Hf.
    repeat match goal with H : _ \/ _ |- _ => destruct H | H : False |- _ => destruct H end;
      subst; vm_compute; discriminate.
Defined.

End EngineFacts.

(** * Further properties of the fragment store *)

Module StoreMore.

Import Store StoreSpec StoreMoreSpec StoreFacts.

Lemma writeBlobs_lookup_key l m m' k :
  In k (List.map fst l) -> writeBlobs l m !! k = writeBlobs l m' !! k.
Proof.
  induction l as [|[k0 b0] l IH] using rev_ind; [intros []|].
  rewrite !writeBlobs_snoc, List.map_app. intros Hin.
  destruct (decide (k0 = k)) as [->|Hne].
  - now rewrite !lookup_insert_eq.
  - rewrite !lookup_insert_ne by exact Hne. apply IH.
    apply in_app_or in Hin as [Hin|[Hin|[]]]; [exact Hin|]. cbn in Hin. congruence.
Qed.

Lemma writeBlobs_idem l m : writeBlobs l (writeBlobs l m) = writeBlobs l m.
Proof.
  apply map_eq. intros k.
  destruct (in_dec string_dec k (List.map fst l)) as [Hin|Hnin].
  - now apply writeBlobs_lookup_key.
  - now rewrite writeBlobs_other.
Qed.

Lemma writeBlobs_is_Some l m k :
  is_Some (m !! k) -> is_Some (writeBlobs l m !! k).
Proof.
  induction l as [|[k0 b0] l IH] using rev_ind; [easy|].
  intros H. rewrite writeBlobs_snoc.
  destruct (decide (k0 = k)) as [->|Hne].
  - rewrite lookup_insert_eq. eauto.
  - rewrite lookup_insert_ne by exact Hne. auto.
Qed.

Lemma deleteBlobs_other l m k :
  ~ In k l -> deleteBlobs l m !! k = m !! k.
Proof.
  revert m. induction l as [|k0 l IH]; intros m Hk; [easy|].
  cbn in *. rewrite IH by tauto. apply lookup_delete_ne. tauto.
Qed.

Lemma length_insertKey {V} (kv : string * V) l :
  length (insertKey kv l) = S (length l).
Proof.
  induction l as [|y l IH]; cbn; [reflexivity|].
  destruct (String.leb (fst kv) (fst y)); cbn; [reflexivity|]. now rewrite IH.
Qed.

Lemma length_recordsByKey {V} (m : gmap string V) :
  length (recordsByKey m) = size m.
Proof.
  unfold recordsByKey. rewrite length_map, <- length_map_to_list.
  induction (map_to_list m) as [|y l IH]; cbn; [reflexivity|].
  now rewrite length_insertKey, IH.
Qed.

Lemma In_recordsByKey_inv {V} (m : gmap string V) r :
  In r (recordsByKey m) -> exists k, m !! k = Some r.
Proof.
  unfold recordsByKey. intros H. apply in_map_iff in H as ([k r'] & <- & H).
  exists k. apply elem_of_map_to_list, list_elem_of_In.
  induction (map_to_list m) as [|y l IH]; cbn in *; [easy|].
  apply In_insertKey in H as [->|H]; [now left|right; auto].
Qed.

Section Runs.

Variable fails : Request -> bool.

Lemma forEach_saveVideoBlob_faults {A} (key : A -> string) (val : A -> option Blob)
    (xs : list A) (d : Database) st' :
  forEach (fun x => saveVideoBlob fails (key x) (val x)) xs (Some d) = (Ok tt, st') ->
  forall x, In x xs -> fails (PutBlob (key x)) = false.
Proof.
  revert d. induction xs as [|x xs IH]; intros d H y Hy; [destruct Hy|].
  change (forEach _ (x :: xs))
    with (bind (saveVideoBlob fails (key x) (val x))
            (fun _ => forEach (fun x => saveVideoBlob fails (key x) (val x)) xs)) in H.
  pose proof (request_run fails (PutBlob (key x))
    (fun d => (tt, {| fragments := fragments d;
                      videoBlobs := <[key x := val x]> (videoBlobs d) |})) d) as Hq.
  fold (saveVideoBlob fails (key x) (val x)) in Hq.
  destruct (fails (PutBlob (key x))) eqn:Hf.
  - rewrite (bind_Err _ _ _ _ _ Hq) in H. discriminate.
  - rewrite (bind_Ok _ _ _ _ _ Hq) in H.
    destruct Hy as [<-|Hy]; [exact Hf|]. eapply IH; eauto.
Qed.

Lemma forEach_saveVideoBlob_ok {A} (key : A -> string) (val : A -> option Blob)
    (xs : list A) (d : Database) :
  (forall x, In x xs -> fails (PutBlob (key x)) = false) ->
  forEach (fun x => saveVideoBlob fails (key x) (val x)) xs (Some d)
  = (Ok tt, Some {| fragments := fragments d;
                    videoBlobs := writeBlobs (List.map (fun x => (key x, val x)) xs)
                                    (videoBlobs d) |}).
Proof.
  revert d. induction xs as [|x xs IH]; intros d Hnf.
  - cbn. now rewrite <- database_eta.
  - change (forEach _ (x :: xs))
      with (bind (saveVideoBlob fails (key x) (val x))
              (fun _ => forEach (fun x => saveVideoBlob fails (key x) (val x)) xs)).
    erewrite bind_Ok.
    2:{ unfold saveVideoBlob. rewrite request_run, (Hnf x) by now left. reflexivity. }
    cbn [fst snd]. rewrite IH by (intros y Hy; apply Hnf; now right). reflexivity.
Qed.

(** [saveFragment] succeeds exactly when none of its requests fails, and
    then leaves the database [afterSave]. *)
Lemma saveFragment_ok_iff (f : VideoFragment) (d : Database) st' :
  saveFragment fails f (Some d) = (Ok tt, st')
  <-> (forall k, In k (payloadIds f) -> fails (PutBlob k) = false)
      /\ fails (PutFragment (fragment_id f)) = false
      /\ st' = Some (afterSave f d).
Proof.
  split.
  - intros H. pose proof (saveFragment_run fails f (Some d) (Ok tt) st' H)
      as (d' & -> & Hfr & Hb).
    assert (Hd' : d' = afterSave f d)
      by (rewrite (database_eta d'), Hfr, Hb; reflexivity).
    subst d'. split; [|split; [|reflexivity]].
    + unfold saveFragment in H.
      rewrite (bind_Ok _ _ (Some d) tt (Some d)) in H by reflexivity.
      intros k Hk. rewrite payloadIds_eq in Hk.
      destruct (fails (PutBlob (fragment_id f))) eqn:Hf1.
      { erewrite bind_Err in H
          by (unfold saveVideoBlob; rewrite request_run, Hf1; reflexivity).
        discriminate. }
      destruct Hk as [<-|Hk]; [exact Hf1|].
      erewrite bind_Ok in H
        by (unfold saveVideoBlob; rewrite request_run, Hf1; reflexivity).
      cbn [fst snd] in H.
      match type of H with context [bind ?m _ (Some ?d1)] =>
        destruct (m (Some d1)) as [r2 st2] eqn:H2 end.
      destruct r2 as [[]|e2]; [|rewrite (bind_Err _ _ _ _ _ H2) in H; discriminate].
      rewrite (bind_Ok _ _ _ _ _ H2) in H.
      pose proof (forEach_saveVideoBlob_faults _ _ _ _ _ H2) as Hv.
      apply forEach_saveVideoBlob in H2 as (d2 & -> & _ & _).
      match type of H with context [bind ?m _ (Some d2)] =>
        destruct (m (Some d2)) as [r3 st3] eqn:H3 end.
      destruct r3 as [[]|e3]; [|rewrite (bind_Err _ _ _ _ _ H3) in H; discriminate].
      pose proof (forEach_saveVideoBlob_faults _ _ _ _ _ H3) as Hr.
      apply in_app_or in Hk as [Hk|Hk]; apply in_map_iff in Hk as (x & <- & Hx); auto.
    + unfold saveFragment in H.
      rewrite (bind_Ok _ _ (Some d) tt (Some d)) in H by reflexivity.
      destruct (fails (PutFragment (fragment_id f))) eqn:Hf4; [|reflexivity].
      exfalso.
      match type of H with context [bind ?m1 _ (Some d)] =>
        destruct (m1 (Some d)) as [[[]|e1] st1] eqn:H1;
          [rewrite (bind_Ok _ _ _ _ _ H1) in H
          |rewrite (bind_Err _ _ _ _ _ H1) in H; discriminate] end.
      match type of H with context [bind ?m2 _ st1] =>
        destruct (m2 st1) as [[[]|e2] st2] eqn:H2;
          [rewrite (bind_Ok _ _ _ _ _ H2) in H
          |rewrite (bind_Err _ _ _ _ _ H2) in H; discriminate] end.
      match type of H with context [bind ?m3 _ st2] =>
        destruct (m3 st2) as [[[]|e3] st3] eqn:H3;
          [rewrite (bind_Ok _ _ _ _ _ H3) in H
          |rewrite (bind_Err _ _ _ _ _ H3) in H; discriminate] end.
      unfold request in H. destruct st3; [|discriminate].
      rewrite Hf4 in H. discriminate.
  - intros (Hb & Hf & ->). rewrite payloadIds_eq in Hb.
    unfold saveFragment.
    rewrite (bind_Ok _ _ (Some d) tt (Some d)) by reflexivity.
    erewrite bind_Ok.
    2:{ unfold saveVideoBlob. rewrite request_run, (Hb (fragment_id f)) by now left.
        reflexivity. }
    cbn [fst snd].
    erewrite bind_Ok.
    2:{ apply forEach_saveVideoBlob_ok. intros v Hv. apply Hb. right.
        apply in_or_app. left. now apply in_map. }
    erewrite bind_Ok.
    2:{ apply forEach_saveVideoBlob_ok. intros r Hr. apply Hb. right.
        apply in_or_app. right. now apply in_map. }
    rewrite request_run, Hf. cbn [fst snd fragments videoBlobs].
    unfold afterSave, payloads.
    change ((fragment_id f, blob f) :: ?l) with ([(fragment_id f, blob f)] ++ l).
    now rewrite !writeBlobs_app.
Qed.

Lemma forEach_deleteVideoBlob_run {A} (key : A -> string) (xs : list A)
    (d : Database) r st' :
  forEach (fun x => deleteVideoBlob fails (key x)) xs (Some d) = (r, st') ->
  exists d', st' = Some d' /\ fragments d' = fragments d /\
    match r with
    | Ok _ => videoBlobs d' = deleteBlobs (List.map key xs) (videoBlobs d)
    | Err e =>
        (forall k, ~ In k (List.map key xs) -> videoBlobs d' !! k = videoBlobs d !! k)
        /\ exists q, e = RequestError q /\ fails q = true
    end.
Proof.
  revert d. induction xs as [|x xs IH]; intros d H.
  - inversion H; subst. exists d. now repeat split.
  - change (forEach _ (x :: xs))
      with (bind (deleteVideoBlob fails (key x))
              (fun _ => forEach (fun x => deleteVideoBlob fails (key x)) xs)) in H.
    pose proof (request_run fails (DeleteBlob (key x))
      (fun d => (tt, {| fragments := fragments d;
                        videoBlobs := delete (key x) (videoBlobs d) |})) d) as Hq.
    fold (deleteVideoBlob fails (key x)) in Hq.
    destruct (fails (DeleteBlob (key x))) eqn:Hf.
    + rewrite (bind_Err _ _ _ _ _ Hq) in H. inversion H; subst.
      exists d. repeat split; eauto.
    + rewrite (bind_Ok _ _ _ _ _ Hq) in H. cbn [fst snd] in H.
      apply IH in H as (d' & -> & Hfr & Hr). exists d'. split; [easy|].
      split; [exact Hfr|]. destruct r as [[]|e]; cbn in *.
      * exact Hr.
      * destruct Hr as [Hk Hq']. split; [|exact Hq'].
        intros k Hn. rewrite Hk by tauto. apply lookup_delete_ne. tauto.
Qed.

Lemma mapM_restoreBlobs_run (rs : list VideoFragment) (d : Database) :
  mapM (restoreBlobs fails) rs (Some d)
  = (Ok (List.map (restored (videoBlobs d)) rs), Some d)
  \/ exists q, fails q = true
      /\ mapM (restoreBlobs fails) rs (Some d) = (Err (RequestError q), Some d).
Proof.
  induction rs as [|r rs IH]; [now left|].
  change (mapM (restoreBlobs fails) (r :: rs))
    with (let* y := restoreBlobs fails r in
          let* ys := mapM (restoreBlobs fails) rs in ret (y :: ys)).
  destruct (restoreBlobs_run fails r d) as [Hr|(k & _ & Hk & Hr)].
  - rewrite (bind_Ok _ _ _ _ _ Hr).
    destruct IH as [IH|(q & Hq & IH)].
    + left. now rewrite (bind_Ok _ _ _ _ _ IH).
    + right. exists q. split; [exact Hq|]. now apply bind_Err.
  - right. exists (GetBlob k). split; [exact Hk|]. now apply bind_Err.
Qed.

Lemma getAllFragments_run (d : Database) :
  getAllFragments fails (Some d)
  = (Ok (List.map (restored (videoBlobs d)) (recordsByKey (fragments d))), Some d)
  \/ exists q, fails q = true
      /\ getAllFragments fails (Some d) = (Err (RequestError q), Some d).
Proof.
  unfold getAllFragments.
  rewrite (bind_Ok _ _ (Some d) tt (Some d)) by reflexivity.
  destruct (fails GetAllFragments) eqn:Hf.
  - right. exists GetAllFragments. split; [exact Hf|].
    apply bind_Err. now rewrite request_run, Hf.
  - erewrite bind_Ok by (rewrite request_run, Hf; reflexivity). cbn [fst snd].
    apply mapM_restoreBlobs_run.
Qed.

(** The outcome of [deleteFragment], stage by stage: the record is read,
    the payloads are deleted in order, the metadata record is deleted last. *)
Lemma deleteFragment_run (id : string) (d : Database) r st' :
  deleteFragment fails id (Some d) = (r, st') ->
  exists d', st' = Some d' /\
    match fragments d !! id with
    | None =>
        d' = d
        /\ (r = Ok tt
            \/ fails (GetFragment id) = true
               /\ r = Err (RequestError (GetFragment id)))
    | Some rec =>
        match r with
        | Ok _ => d' = afterDelete id rec d
        | Err e =>
            fragments d' = fragments d
            /\ (forall k, ~ In k (referencedIds id rec) ->
                 videoBlobs d' !! k = videoBlobs d !! k)
            /\ exists q, e = RequestError q /\ fails q = true
        end
    end.
Proof.
  intros H. unfold deleteFragment in H.
  rewrite (bind_Ok _ _ (Some d) tt (Some d)) in H by reflexivity.
  destruct (getFragment_run fails id d) as [Hg|(q & Hq & Hwhich & Hg)].
  2:{ rewrite (bind_Err _ _ _ _ _ Hg) in H. injection H as <- <-. exists d.
      split; [easy|]. destruct (fragments d !! id) as [rec|] eqn:Hrec.
      - repeat split; eauto.
      - split; [easy|]. right.
        destruct Hwhich as [->|(r0 & k & Hr0 & _)]; [auto|discriminate]. }
  rewrite (bind_Ok _ _ _ _ _ Hg) in H.
  destruct (fragments d !! id) as [rec|] eqn:Hrec;
    cbn [fmap option_fmap option_map] in H.
  2:{ injection H as <- <-. exists d. auto. }
  unfold deleteVideoBlob at 1 in H.
  match type of H with context [bind (request fails ?q ?run) _ (Some d)] =>
    pose proof (request_run fails q run d) as H1 end.
  destruct (fails (DeleteBlob id)) eqn:Hf1.
  { rewrite (bind_Err _ _ _ _ _ H1) in H. injection H as <- <-. exists d.
    repeat split; eauto. }
  rewrite (bind_Ok _ _ _ _ _ H1) in H. cbn [fst snd] in H. clear H1.
  unfold restored in H. cbn [fragment_with_blobs variations responses] in H.
  match type of H with context [bind ?m _ (Some ?d1)] =>
    destruct (m (Some d1)) as [r2 st2] eqn:H2 end.
  apply forEach_deleteVideoBlob_run in H2 as H2'.
  destruct H2' as (d2 & -> & Hfr2 & Hb2).
  rewrite List.map_map in Hb2. cbn [variation_with_blob variation_id] in Hb2.
  cbn [fragments videoBlobs] in Hfr2, Hb2.
  destruct r2 as [[]|e2].
  2:{ rewrite (bind_Err _ _ _ _ _ H2) in H. injection H as <- <-. exists d2.
      split; [easy|]. destruct Hb2 as [Hk Hq]. split; [exact Hfr2|].
      split; [|exact Hq]. intros k Hn. unfold referencedIds in Hn. cbn in Hn.
      rewrite Hk by (intros ?; apply Hn; right; apply in_or_app; now left).
      apply lookup_delete_ne. tauto. }
  rewrite (bind_Ok _ _ _ _ _ H2) in H. clear H2.
  match type of H with context [bind ?m _ (Some d2)] =>
    destruct (m (Some d2)) as [r3 st3] eqn:H3 end.
  apply forEach_deleteVideoBlob_run in H3 as H3'.
  destruct H3' as (d3 & -> & Hfr3 & Hb3).
  rewrite List.map_map in Hb3. cbn [response_with_blob response_id] in Hb3.
  assert (Hother : forall k,
    ~ In k (id :: List.map variation_id (variations rec)) ->
    videoBlobs d2 !! k = videoBlobs d !! k).
  { intros k Hn. cbn in Hn. rewrite Hb2, deleteBlobs_other by tauto.
    apply lookup_delete_ne. tauto. }
  destruct r3 as [[]|e3].
  2:{ rewrite (bind_Err _ _ _ _ _ H3) in H. injection H as <- <-. exists d3.
      split; [easy|]. destruct Hb3 as [Hk Hq].
      split; [congruence|]. split; [|exact Hq]. intros k Hn.
      unfold referencedIds in Hn. cbn in Hn.
      rewrite Hk by (intros ?; apply Hn; right; apply in_or_app; now right).
      apply Hother. cbn. intros [?|?]; apply Hn; [now left|].
      right. apply in_or_app. now left. }
  rewrite (bind_Ok _ _ _ _ _ H3) in H. clear H3.
  rewrite request_run in H.
  destruct (fails (DeleteFragment id)) eqn:Hf4.
  - injection H as <- <-. exists d3. split; [easy|].
    split; [congruence|]. split; [|eauto]. intros k Hn.
    unfold referencedIds in Hn. cbn in Hn.
    rewrite Hb3, deleteBlobs_other
      by (intros ?; apply Hn; right; apply in_or_app; now right).
    apply Hother. cbn. intros [?|?]; apply Hn; [now left|].
    right. apply in_or_app. now left.
  - injection H as <- <-. eexists. split; [reflexivity|].
    cbn [fst snd]. unfold afterDelete. now rewrite Hfr3, Hfr2, Hb3, Hb2.
Qed.

End Runs.

(** *** Reading *)

(** [getFragment] and [getAllFragments] never change the store, whether they
    succeed, find nothing or fail. *)
Theorem reads_leave_store_unchanged (fails : Request -> bool) (id : string) st :
  snd (getFragment fails id st) = st /\ snd (getAllFragments fails st) = st.
Proof.
  destruct st as [d|]; [|split; reflexivity]. split.
  - destruct (getFragment_run fails id d) as [H|(q & _ & _ & H)]; now rewrite H.
  - destruct (getAllFragments_run fails d) as [H|(q & _ & H)]; now rewrite H.
Qed.

(** Before [init] every operation fails with "Database not initialized" and
    issues no request; on an initialized store an operation fails only when
    one of its requests fails, and the store stays initialized. *)
Theorem operations_fail_only_on_requests
    (fails : Request -> bool) (f : VideoFragment) (id : string) (d : Database) :
  saveFragment fails f None = (Err NotInitialized, None)
  /\ getFragment fails id None = (Err NotInitialized, None)
  /\ getAllFragments fails None = (Err NotInitialized, None)
  /\ deleteFragment fails id None = (Err NotInitialized, None)
  /\ requestFailureOnly fails (saveFragment fails f (Some d))
  /\ requestFailureOnly fails (getFragment fails id (Some d))
  /\ requestFailureOnly fails (getAllFragments fails (Some d))
  /\ requestFailureOnly fails (deleteFragment fails id (Some d)).
Proof.
  repeat (split; [reflexivity|]). unfold requestFailureOnly.
  split; [|split; [|split]].
  - destruct (saveFragment fails f (Some d)) as [r st'] eqn:H.
    apply saveFragment_run in H as (d' & -> & H). cbn [fst snd].
    split; [eauto|]. destruct r as [[]|e]; [exact I|]. now destruct H as (_ & _ & H).
  - destruct (getFragment_run fails id d) as [H|(q & Hq & _ & H)]; rewrite H; cbn;
      eauto.
  - destruct (getAllFragments_run fails d) as [H|(q & Hq & H)]; rewrite H; cbn; eauto.
  - destruct (deleteFragment fails id (Some d)) as [r st'] eqn:H.
    apply deleteFragment_run in H as (d' & -> & H). cbn [fst snd].
    split; [eauto|]. destruct r as [[]|e]; [exact I|].
    destruct (fragments d !! id).
    + now destruct H as (_ & _ & H).
    + destruct H as (_ & [H|[Hq H]]); [discriminate|].
      injection H as ->. eauto.
Qed.

(** With no record under [id] and its read request succeeding,
    [deleteFragment id] succeeds and changes nothing. *)
Theorem deleteFragment_absent (fails : Request -> bool) (id : string) (d : Database) :
  fragments d !! id = None ->
  fails (GetFragment id) = false ->
  deleteFragment fails id (Some d) = (Ok tt, Some d).
Proof.
  intros Hnone Hf.
  destruct (deleteFragment fails id (Some d)) as [r st'] eqn:H.
  apply deleteFragment_run in H as (d' & -> & H). rewrite Hnone in H.
  destruct H as (-> & [->|[Hq _]]); [reflexivity|congruence].
Qed.

Lemma deleteFragment_absent_witness :
  deleteFragment noFaults "b" (Some Samples.storedPlain)
  = (Ok tt, Some Samples.storedPlain).
Proof.
  apply deleteFragment_absent; [vm_compute; reflexivity|reflexivity].
Defined.

(** [getAllFragments] and [getFragment] agree: when no request fails,
    [getAllFragments] returns one fragment per metadata record, and a fragment
    is in its result exactly when [getFragment] returns it for some id. *)
Theorem getAllFragments_getFragment (fails : Request -> bool) (d : Database) :
  (forall q, fails q = false) ->
  exists gs,
    getAllFragments fails (Some d) = (Ok gs, Some d)
    /\ length gs = size (fragments d)
    /\ forall g, In g gs <->
                 exists id, getFragment fails id (Some d) = (Ok (Some g), Some d).
Proof.
  intros Hnf. eexists. split; [|split].
  - destruct (getAllFragments_run fails d) as [H|(q & Hq & _)]; [exact H|].
    rewrite Hnf in Hq. discriminate.
  - rewrite length_map. apply length_recordsByKey.
  - intros g.
    assert (Hget : forall id, getFragment fails id (Some d)
                   = (Ok (restored (videoBlobs d) <$> fragments d !! id), Some d)).
    { intros id. destruct (getFragment_run fails id d) as [H|(q & Hq & _)];
        [exact H|]. rewrite Hnf in Hq. discriminate. }
    rewrite in_map_iff. split.
    + intros (r & <- & Hr). apply In_recordsByKey_inv in Hr as (id & Hid).
      exists id. now rewrite Hget, Hid.
    + intros (id & Hid). rewrite Hget in Hid.
      destruct (fragments d !! id) as [r|] eqn:Hr; [|discriminate].
      injection Hid as <-. exists r. split; [reflexivity|].
      eapply In_recordsByKey, Hr.
Qed.

Lemma getAllFragments_getFragment_witness :
  exists gs,
    getAllFragments noFaults (Some Samples.storedPlain) = (Ok gs, Some Samples.storedPlain)
    /\ length gs = 1%nat.
Proof.
  destruct (getAllFragments_getFragment noFaults Samples.storedPlain (fun _ => eq_refl))
    as (gs & Hgs & Hlen & _).
  exists gs. split; [exact Hgs|]. rewrite Hlen. vm_compute. reflexivity.
Defined.

(** *** Saving *)

Lemma afterSave_idem (f : VideoFragment) (d : Database) :
  afterSave f (afterSave f d) = afterSave f d.
Proof.
  unfold afterSave. cbn [fragments videoBlobs].
  now rewrite insert_insert_eq, writeBlobs_idem.
Qed.

(** Puts that repeat what is stored change nothing. *)
Lemma writeBlobs_stored l (m : gmap string (option Blob)) :
  (forall k b, In (k, b) l -> m !! k = Some b) -> writeBlobs l m = m.
Proof.
  induction l as [|[k b] l IH]; intros H; [reflexivity|].
  change (writeBlobs ((k, b) :: l) m) with (writeBlobs l (<[k := b]> m)).
  rewrite insert_id by (apply H; now left).
  apply IH. intros; apply H; now right.
Qed.

(** Saving is idempotent: a [saveFragment f] repeated after a successful
    one, under faults of its own, succeeds whenever none of its requests
    fails, and then leaves the store exactly as it was; if it fails, it fails
    on one of its own requests, and the store is again exactly as it was when
    no id of [f] carries two different payloads. *)
Theorem saveFragment_twice
    (fails fails' : Request -> bool) (f : VideoFragment) st st1 r st2 :
  saveFragment fails f st = (Ok tt, st1) ->
  saveFragment fails' f st1 = (r, st2) ->
  match r with
  | Ok _ => st2 = st1
  | Err e =>
      (exists q, e = RequestError q /\ fails' q = true)
      /\ (consistent (payloads f) -> st2 = st1)
  end
  /\ ((forall k, In k (payloadIds f) -> fails' (PutBlob k) = false) ->
      fails' (PutFragment (fragment_id f)) = false ->
      r = Ok tt).
Proof.
  destruct st as [d|]; [|discriminate]. intros H H2.
  apply saveFragment_ok_iff in H as (_ & _ & ->). split.
  - destruct r as [[]|e].
    + apply saveFragment_ok_iff in H2 as (_ & _ & ->). now rewrite afterSave_idem.
    + pose proof (saveFragment_run _ _ _ _ _ H2) as (d2 & _ & _ & _ & q & -> & Hq).
      split; [eauto|]. intros Hc.
      apply saveFragment_prefix in H2 as (l1 & l2 & Hp & ->). f_equal.
      unfold afterSave. cbn [fragments videoBlobs]. f_equal.
      apply writeBlobs_stored. intros k b Hin.
      apply writeBlobs_lookup; [exact Hc|].
      rewrite Hp. apply in_or_app. now left.
  - intros Hb Hf.
    pose proof (proj2 (saveFragment_ok_iff fails' f (afterSave f d) _)
                  (conj Hb (conj Hf eq_refl))) as Hok.
    rewrite Hok in H2. now injection H2 as <- _.
Qed.

Lemma saveFragment_twice_witness :
  exists st1,
    saveFragment noFaults Samples.plain Samples.emptyStore = (Ok tt, st1)
    /\ snd (saveFragment Samples.failsOnV1 Samples.plain st1) = st1.
Proof.
  assert (Hc : consistent (payloads Samples.plain)).
  { intros k b b' H1 H2. cbn in H1, H2.
    repeat match goal with H : _ \/ _ |- _ => destruct H | H : False |- _ => destruct H end;
      congruence. }
  eexists. split; [vm_compute; reflexivity|].
  match goal with |- snd (saveFragment _ _ ?s) = _ =>
    destruct (saveFragment Samples.failsOnV1 Samples.plain s) as [r st2] eqn:H2;
    destruct (saveFragment_twice noFaults Samples.failsOnV1 Samples.plain
                Samples.emptyStore s r st2) as [Hr _];
      [vm_compute; reflexivity|exact H2|] end.
  cbn [snd]. destruct r as [[]|e]; [exact Hr|exact (proj2 Hr Hc)].
Defined.

Lemma forEach_saveVideoBlob_grows (fails : Request -> bool) {A}
    (key : A -> string) (val : A -> option Blob) (xs : list A) (d : Database) r st' :
  forEach (fun x => saveVideoBlob fails (key x) (val x)) xs (Some d) = (r, st') ->
  exists d', st' = Some d'
    /\ forall k, is_Some (videoBlobs d !! k) -> is_Some (videoBlobs d' !! k).
Proof.
  revert d. induction xs as [|x xs IH]; intros d H.
  - inversion H; subst. eauto.
  - change (forEach _ (x :: xs))
      with (bind (saveVideoBlob fails (key x) (val x))
              (fun _ => forEach (fun x => saveVideoBlob fails (key x) (val x)) xs)) in H.
    pose proof (request_run fails (PutBlob (key x))
      (fun d => (tt, {| fragments := fragments d;
                        videoBlobs := <[key x := val x]> (videoBlobs d) |})) d) as Hq.
    fold (saveVideoBlob fails (key x) (val x)) in Hq.
    destruct (fails (PutBlob (key x))).
    + rewrite (bind_Err _ _ _ _ _ Hq) in H. inversion H; subst. eauto.
    + rewrite (bind_Ok _ _ _ _ _ Hq) in H. cbn [fst snd] in H.
      apply IH in H as (d' & -> & Hk). exists d'. split; [easy|].
      intros k Hs. apply Hk. cbn.
      destruct (decide (key x = k)) as [->|Hne].
      * rewrite lookup_insert_eq. eauto.
      * now rewrite lookup_insert_ne.
Qed.

Lemma saveFragment_grows (fails : Request -> bool) (f : VideoFragment)
    (d : Database) r st' :
  saveFragment fails f (Some d) = (r, st') ->
  exists d', st' = Some d'
    /\ forall k, is_Some (videoBlobs d !! k) -> is_Some (videoBlobs d' !! k).
Proof.
  intros H. destruct r as [[]|e].
  { apply saveFragment_ok_iff in H as (_ & _ & ->). eexists. split; [reflexivity|].
    intros k. apply writeBlobs_is_Some. }
  unfold saveFragment in H.
  rewrite (bind_Ok _ _ (Some d) tt (Some d)) in H by reflexivity.
  unfold saveVideoBlob at 1 in H.
  match type of H with context [bind (request fails ?q ?run) _ (Some d)] =>
    pose proof (request_run fails q run d) as H1 end.
  destruct (fails (PutBlob (fragment_id f))).
  { rewrite (bind_Err _ _ _ _ _ H1) in H. injection H as <- <-. eauto. }
  rewrite (bind_Ok _ _ _ _ _ H1) in H. cbn [fst snd] in H. clear H1.
  assert (Hg1 : forall k, is_Some (videoBlobs d !! k) ->
                  is_Some (<[fragment_id f := blob f]> (videoBlobs d) !! k)).
  { intros k Hs. destruct (decide (fragment_id f = k)) as [->|Hne].
    - rewrite lookup_insert_eq. eauto.
    - now rewrite lookup_insert_ne. }
  match type of H with context [bind ?m _ (Some ?d1)] =>
    destruct (m (Some d1)) as [r2 st2] eqn:H2 end.
  apply forEach_saveVideoBlob_grows in H2 as H2'. destruct H2' as (d2 & -> & Hg2).
  destruct r2 as [[]|e2].
  2:{ rewrite (bind_Err _ _ _ _ _ H2) in H. injection H as <- <-.
      exists d2. split; [easy|]. intros k Hs. apply Hg2, Hg1, Hs. }
  rewrite (bind_Ok _ _ _ _ _ H2) in H. clear H2.
  match type of H with context [bind ?m _ (Some d2)] =>
    destruct (m (Some d2)) as [r3 st3] eqn:H3 end.
  apply forEach_saveVideoBlob_grows in H3 as H3'. destruct H3' as (d3 & -> & Hg3).
  destruct r3 as [[]|e3].
  2:{ rewrite (bind_Err _ _ _ _ _ H3) in H. injection H as <- <-.
      exists d3. split; [easy|]. intros k Hs. apply Hg3, Hg2, Hg1, Hs. }
  rewrite (bind_Ok _ _ _ _ _ H3) in H. clear H3.
  rewrite request_run in H.
  destruct (fails (PutFragment (fragment_id f))); [|discriminate].
  injection H as <- <-. exists d3. split; [easy|].
  intros k Hs. apply Hg3, Hg2, Hg1, Hs.
Qed.

Lemma restored_ext (m m' : gmap string (option Blob)) (r : VideoFragment) :
  (forall k, In k (payloadIds r) -> m' !! k = m !! k) ->
  restored m' r = restored m r.
Proof.
  intros H. rewrite payloadIds_eq in H.
  assert (Hl : forall k, In k (fragment_id r :: List.map variation_id (variations r)
                                ++ List.map response_id (responses r)) ->
                 lookupBlob m' k = lookupBlob m k)
    by (intros k Hk; unfold lookupBlob; now rewrite H).
  unfold restored. rewrite (Hl (fragment_id r)) by now left. f_equal.
  - apply map_ext_in. intros v Hv. f_equal. apply Hl. right.
    apply in_or_app. left. now apply in_map.
  - apply map_ext_in. intros x Hx. f_equal. apply Hl. right.
    apply in_or_app. right. now apply in_map.
Qed.

(** Whatever its outcome, [saveFragment f] only touches its own keys and
    deletes nothing: other metadata records and the payloads under other ids
    are as before, no record and no payload disappears (payloads of variations
    dropped from [f] stay behind), and a fragment that shares no payload id
    with [f] reads back as before. *)
Theorem saveFragment_touches_only_its_keys
    (fails : Request -> bool) (f : VideoFragment) (d : Database) r st' :
  saveFragment fails f (Some d) = (r, st') ->
  exists d', st' = Some d'
    /\ (forall j, j <> fragment_id f -> fragments d' !! j = fragments d !! j)
    /\ (forall k, ~ In k (payloadIds f) -> videoBlobs d' !! k = videoBlobs d !! k)
    /\ (forall j, is_Some (fragments d !! j) -> is_Some (fragments d' !! j))
    /\ (forall k, is_Some (videoBlobs d !! k) -> is_Some (videoBlobs d' !! k))
    /\ (forall j rec, j <> fragment_id f -> fragments d !! j = Some rec ->
         (forall k, In k (payloadIds rec) -> ~ In k (payloadIds f)) ->
         fst (getFragment noFaults j (Some d')) = fst (getFragment noFaults j (Some d))).
Proof.
  intros H. pose proof (saveFragment_grows _ _ _ _ _ H) as (d' & -> & Hgrow).
  apply saveFragment_run in H as (d'' & [= <-] & H).
  assert (Hfr : forall j, j <> fragment_id f -> fragments d' !! j = fragments d !! j).
  { intros j Hj. destruct r as [[]|e]; destruct H as [Hfr _]; rewrite Hfr;
      [now rewrite lookup_insert_ne|reflexivity]. }
  assert (Hbl : forall k, ~ In k (payloadIds f) -> videoBlobs d' !! k = videoBlobs d !! k).
  { intros k Hk. destruct r as [[]|e].
    - destruct H as [_ ->]. apply writeBlobs_other. exact Hk.
    - destruct H as (_ & Hb & _). now apply Hb. }
  exists d'. split; [easy|]. split; [exact Hfr|]. split; [exact Hbl|].
  split; [|split; [exact Hgrow|]].
  - intros j Hs. destruct r as [[]|e]; destruct H as [Hf _]; rewrite Hf; [|exact Hs].
    destruct (decide (fragment_id f = j)) as [->|Hne].
    + rewrite lookup_insert_eq. eauto.
    + now rewrite lookup_insert_ne.
  - intros j rec Hj Hrec Hdisj.
    destruct (getFragment_run noFaults j d') as [->|(q & Hq & _)]; [|discriminate].
    destruct (getFragment_run noFaults j d) as [->|(q & Hq & _)]; [|discriminate].
    cbn [fst]. rewrite (Hfr j Hj), Hrec. cbn. do 2 f_equal.
    apply restored_ext. intros k Hk. apply Hbl. now apply Hdisj.
Qed.

Lemma saveFragment_touches_only_its_keys_witness :
  exists d',
    saveFragment noFaults (Samples.mkStored "b" (Some Samples.blobB) [] [])
      (Some Samples.storedPlain) = (Ok tt, Some d')
    /\ fst (getFragment noFaults "a" (Some d'))
       = fst (getFragment noFaults "a" (Some Samples.storedPlain)).
Proof.
  destruct (saveFragment noFaults (Samples.mkStored "b" (Some Samples.blobB) [] [])
              (Some Samples.storedPlain)) as [r st'] eqn:Hrun.
  assert (Hr : r = Ok tt) by (apply (f_equal fst) in Hrun; vm_compute in Hrun; congruence).
  subst r.
  destruct (saveFragment_touches_only_its_keys _ _ _ _ _ Hrun)
    as (d' & -> & _ & _ & _ & _ & Hread).
  exists d'. split; [reflexivity|].
  apply (Hread "a" (fragmentToSave Samples.plain)).
  - discriminate.
  - vm_compute. reflexivity.
  - intros k Hk [Hb|[]]. cbn in Hb. subst k. cbn in Hk.
    repeat destruct Hk as [Hk|Hk]; try discriminate; try contradiction.
Defined.

(** *** Deleting *)

(** Saving a fragment under fresh ids and deleting it again restores the
    store exactly: [deleteFragment] undoes [saveFragment] when the fragment's
    id had no record and its payload ids held nothing. *)
Theorem save_then_delete_restores
    (fails fails' : Request -> bool) (f : VideoFragment) (d : Database) st1 st2 :
  fragments d !! fragment_id f = None ->
  (forall k, In k (payloadIds f) -> videoBlobs d !! k = None) ->
  saveFragment fails f (Some d) = (Ok tt, st1) ->
  deleteFragment fails' (fragment_id f) st1 = (Ok tt, st2) ->
  st2 = Some d.
Proof.
  intros Hfresh Hblobs Hs Hd.
  apply saveFragment_ok_iff in Hs as (_ & _ & ->).
  apply deleteFragment_run in Hd as (d' & -> & Hd).
  unfold afterSave in Hd at 1. cbn [fragments] in Hd.
  rewrite lookup_insert_eq in Hd. subst d'. f_equal.
  rewrite (database_eta d). unfold afterDelete, afterSave. cbn [fragments videoBlobs].
  f_equal.
  - now apply delete_insert_id.
  - change (variations (fragmentToSave f))
      with (List.map (fun v => variation_with_blob v None) (variations f)).
    change (responses (fragmentToSave f))
      with (List.map (fun r => response_with_blob r None) (responses f)).
    rewrite !List.map_map. cbn [variation_with_blob variation_id response_with_blob response_id].
    apply map_eq. intros k.
    destruct (in_dec string_dec k (payloadIds f)) as [Hin|Hnin].
    + rewrite (Hblobs k Hin). rewrite payloadIds_eq in Hin.
      destruct Hin as [<-|Hin].
      * apply deleteBlobs_gone. right. apply deleteBlobs_gone. right.
        apply lookup_delete_eq.
      * apply in_app_or in Hin as [Hin|Hin].
        -- apply deleteBlobs_gone. right. apply deleteBlobs_gone. now left.
        -- apply deleteBlobs_gone. now left.
    + pose proof Hnin as Hnin'. rewrite payloadIds_eq in Hnin'. cbn in Hnin'.
      rewrite !deleteBlobs_other
        by (intros ?; apply Hnin'; right; apply in_or_app; tauto).
      rewrite lookup_delete_ne by tauto.
      now apply writeBlobs_other.
Qed.

Lemma save_then_delete_restores_witness :
  exists st1,
    saveFragment noFaults Samples.plain Samples.emptyStore = (Ok tt, st1)
    /\ deleteFragment noFaults "a" st1 = (Ok tt, Samples.emptyStore).
Proof.
  eexists. split; [vm_compute; reflexivity|].
  match goal with |- deleteFragment _ _ ?s = _ =>
    destruct (deleteFragment noFaults "a" s) as [r st2] eqn:Hrun end.
  assert (Hr : r = Ok tt) by (apply (f_equal fst) in Hrun; vm_compute in Hrun; congruence).
  subst r. f_equal.
  refine (save_then_delete_restores noFaults noFaults Samples.plain
            {| fragments := ∅; videoBlobs := ∅ |} _ st2 _ _ _ Hrun).
  - reflexivity.
  - intros k _. apply lookup_empty.
  - vm_compute. reflexivity.
Defined.

(** Whatever its outcome, [deleteFragment id] leaves the other metadata
    records and the payloads outside the ids the record refers to as they
    were; when it fails, the record under [id] is still there too, since the
    metadata record is deleted last. *)
Theorem deleteFragment_touches_only_its_keys
    (fails : Request -> bool) (id : string) (d : Database) r st' :
  deleteFragment fails id (Some d) = (r, st') ->
  exists d', st' = Some d'
    /\ (forall j, j <> id -> fragments d' !! j = fragments d !! j)
    /\ (forall rec k, fragments d !! id = Some rec -> ~ In k (referencedIds id rec) ->
         videoBlobs d' !! k = videoBlobs d !! k)
    /\ (forall e, r = Err e -> fragments d' = fragments d).
Proof.
  intros H. apply deleteFragment_run in H as (d' & -> & H).
  exists d'. split; [easy|].
  destruct (fragments d !! id) as [rec|] eqn:Hrec.
  - destruct r as [[]|e].
    + subst d'. unfold afterDelete. cbn [fragments videoBlobs].
      split; [|split; [|discriminate]].
      * intros j Hj. now apply lookup_delete_ne.
      * intros rec' k [= <-] Hk. unfold referencedIds in Hk. cbn in Hk.
        rewrite !deleteBlobs_other
          by (intros ?; apply Hk; right; apply in_or_app; tauto).
        apply lookup_delete_ne. tauto.
    + destruct H as (Hfr & Hb & _). split; [now rewrite Hfr|].
      split; [|easy]. intros rec' k [= <-]. apply Hb.
  - destruct H as [-> _]. split; [easy|]. split; [discriminate|easy].
Qed.

Lemma deleteFragment_touches_only_its_keys_witness :
  exists d',
    deleteFragment MoreSamples.failsOnDeleteV1 "a" (Some Samples.storedPlain)
    = (Err (RequestError (DeleteBlob "v1")), Some d')
    /\ fragments d' = fragments Samples.storedPlain.
Proof.
  destruct (deleteFragment MoreSamples.failsOnDeleteV1 "a" (Some Samples.storedPlain))
    as [r st'] eqn:Hrun.
  assert (Hr : r = Err (RequestError (DeleteBlob "v1")))
    by (apply (f_equal fst) in Hrun; vm_compute in Hrun; congruence).
  subst r.
  destruct (deleteFragment_touches_only_its_keys _ _ _ _ _ Hrun)
    as (d' & -> & _ & _ & Hfr).
  exists d'. split; [reflexivity|]. now apply (Hfr _ eq_refl).
Defined.

End StoreMore.

(** * Further properties of the engine *)

Module EngineMore.

Import Js Engine EngineSpec EngineMoreSpec EngineFacts.
Local Open Scope Q_scope.

(** *** The dominant emotion *)

Lemma gt_true (a b : Q) : gt a b = true <-> b < a.
Proof.
  unfold gt. rewrite negb_true_iff. split.
  - intros H. apply Qnot_le_lt. intros Hle. apply Qle_bool_iff in Hle. congruence.
  - intros H. destruct (Qle_bool a b) eqn:E; [|reflexivity].
    apply Qle_bool_iff in E. lra.
Qed.

Lemma gt_false (a b : Q) : gt a b = false <-> a <= b.
Proof.
  unfold gt. rewrite negb_false_iff. apply Qle_bool_iff.
Qed.

Lemma ge_true (a b : Q) : ge a b = true <-> b <= a.
Proof. unfold ge. apply Qle_bool_iff. Qed.

Lemma reduce_max_intensity (l : list EmotionTag) (a : EmotionTag) :
  let r := fold_left
             (fun max tag => if gt (intensity tag) (intensity max) then tag else max)
             l a in
  exists before after,
    a :: l = before ++ r :: after
    /\ (forall t, In t before -> intensity t < intensity r)
    /\ (forall t, In t after -> intensity t <= intensity r).
Proof.
  revert a. induction l as [|x l IH]; intros a; cbn zeta.
  - exists [], []. repeat split; intros t [].
  - cbn [fold_left]. destruct (gt (intensity x) (intensity a)) eqn:Hg.
    + apply gt_true in Hg.
      destruct (IH x) as (b & af & Heq & Hb & Ha). cbn zeta in *.
      set (r := fold_left _ l x) in *. clearbody r.
      exists (a :: b), af. split; [cbn; now rewrite Heq|]. split; [|exact Ha].
      intros t [<-|Ht]; [|now apply Hb].
      destruct b as [|y b'].
      * injection Heq as Heq _. rewrite <- Heq. exact Hg.
      * injection Heq as Heq _. subst y.
        specialize (Hb x (or_introl eq_refl)). lra.
    + apply gt_false in Hg.
      destruct (IH a) as (b & af & Heq & Hb & Ha). cbn zeta in *.
      set (r := fold_left _ l a) in *. clearbody r.
      destruct b as [|y b'].
      * injection Heq as Heq Hl. subst r af. exists [], (x :: l).
        split; [reflexivity|]. split; [intros t []|].
        intros t [<-|Ht]; [exact Hg|now apply Ha].
      * injection Heq as Heq Hl. subst y.
        exists (a :: x :: b'), af. split; [cbn; now rewrite Hl|].
        split; [|exact Ha].
        pose proof (Hb a (or_introl eq_refl)) as Har.
        intros t [<-|[<-|Ht]]; [exact Har|lra|apply Hb; now right].
Qed.

(** The dominant tag is the first tag of maximal intensity: every tag before
    it is strictly weaker and no tag after it is stronger; there is none
    only when the fragment has no tags. *)
Theorem dominantEmotion_first_maximum (ts : list EmotionTag) :
  match dominantEmotion ts with
  | None => ts = []
  | Some t =>
      exists before after,
        ts = before ++ t :: after
        /\ (forall t', In t' before -> intensity t' < intensity t)
        /\ (forall t', In t' after -> intensity t' <= intensity t)
  end.
Proof.
  destruct ts as [|a l]; [reflexivity|].
  unfold dominantEmotion, reduce1. apply reduce_max_intensity.
Qed.

(** *** Small collections *)

Lemma length_insertSorted {A} (cmp : A -> A -> Q) (x : A) (l : list A) :
  length (insertSorted cmp x l) = S (length l).
Proof.
  induction l as [|y l IH]; cbn; [reflexivity|].
  destruct (Qle_bool (cmp x y) 0); cbn; [reflexivity|]. now rewrite IH.
Qed.

Lemma length_sort {A} (cmp : A -> A -> Q) (l : list A) :
  length (sort cmp l) = length l.
Proof.
  induction l as [|x l IH]; [reflexivity|].
  change (sort cmp (x :: l)) with (insertSorted cmp x (sort cmp l)).
  now rewrite length_insertSorted, IH.
Qed.

Lemma length_emotionSequences (fragments : list VideoFragment) :
  (length (emotionSequences fragments) <= length fragments)%nat.
Proof.
  unfold emotionSequences.
  induction fragments as [|f fs IH]; cbn [flat_map length]; [lia|].
  rewrite length_app. destruct (dominantEmotion (tags f)); cbn [length]; lia.
Qed.

Lemma detectEmotionalCycles_few host c (fragments : list VideoFragment) :
  (length fragments < 3)%nat ->
  detectEmotionalCycles host fragments c = ([], c).
Proof.
  intros Hlen. unfold detectEmotionalCycles, emotionCycles. cbv zeta.
  pose proof (length_emotionSequences fragments).
  replace (length (emotionSequences fragments) + 1 - patternLength)%nat with 0%nat
    by (unfold patternLength; lia).
  reflexivity.
Qed.

Lemma detectTriggerPatterns_few host c (fragments : list VideoFragment) :
  (length fragments < 3)%nat ->
  detectTriggerPatterns host fragments c = ([], c).
Proof.
  intros Hlen. destruct fragments as [|f1 [|f2 [|f3 l]]]; cbn in Hlen; try lia;
    try reflexivity.
  unfold detectTriggerPatterns, emotionTransitions. cbn [tl combine flat_map].
  destruct (dominantEmotion (tags f1)) as [t1|]; [|reflexivity].
  destruct (dominantEmotion (tags f2)) as [t2|]; [|reflexivity].
  destruct (negb (String.eqb (emotion t1) (emotion t2))); reflexivity.
Qed.

Lemma detectGrowthTrends_few host c (fragments : list VideoFragment) :
  (length fragments < 5)%nat ->
  detectGrowthTrends host fragments c = ([], c).
Proof.
  intros Hlen. unfold detectGrowthTrends.
  apply Nat.ltb_lt in Hlen. now rewrite Hlen.
Qed.

Lemma detectResonanceClusters_few host c (fragments : list VideoFragment) :
  (length fragments < 3)%nat ->
  detectResonanceClusters host fragments c = ([], c).
Proof.
  intros Hlen. unfold detectResonanceClusters. cbv zeta.
  pose proof (filter_length_le (fun fragment => ge (avgRating fragment 0) 4) fragments).
  fold (highRatedFragments fragments) in H.
  destruct (3 <=? length (highRatedFragments fragments))%nat eqn:E; [|reflexivity].
  apply Nat.leb_le in E. lia.
Qed.

(** With fewer than three fragments the analysis finds nothing and reads
    neither the clock nor the random generator, whatever the fragments hold. *)
Theorem analysis_needs_three_fragments
    (host : Host) (c : Calls) (fragments : list VideoFragment) :
  (length fragments < 3)%nat ->
  analyzeEmotionalPatterns host fragments c = ([], c).
Proof.
  intros Hlen. rewrite analyzeEmotionalPatterns_run. cbv zeta.
  rewrite detectEmotionalCycles_few by (rewrite length_sort; lia). cbn [fst snd].
  rewrite detectTriggerPatterns_few by (rewrite length_sort; lia). cbn [fst snd].
  rewrite detectGrowthTrends_few by (rewrite length_sort; lia). cbn [fst snd].
  rewrite detectResonanceClusters_few by exact Hlen. reflexivity.
Qed.

Lemma analysis_needs_three_fragments_witness :
  analyzeEmotionalPatterns (EngineSamples.hostAt 0)
    [EngineSamples.fromTheFuture; EngineSamples.fromTheFuture] EngineSamples.start
  = ([], EngineSamples.start).
Proof. apply analysis_needs_three_fragments. cbn. lia. Defined.

(** *** Where recommendations come from *)

Lemma mapRun_In_body {A B} (body : A -> Run B) (xs : list A) (c : Calls) (y : B) :
  In y (fst (mapRun body xs c)) -> exists x c', In x xs /\ y = fst (body x c').
Proof. apply mapRun_In. Qed.

Lemma someHelpful_In (f : VideoFragment) :
  someHelpful f = true <-> exists r, In r (ratings f) /\ helpful r = true.
Proof. unfold someHelpful. apply existsb_exists. Qed.

Lemma includes_In (xs : list string) (s : string) :
  includes xs s = true <-> In s xs.
Proof.
  unfold includes. rewrite existsb_exists. split.
  - intros (x & Hx & He). apply String.eqb_eq in He. now subst.
  - intros H. exists s. split; [exact H|apply String.eqb_refl].
Qed.

(** Where a recommendation comes from: the fragment it was made for and the
    strategy that made it, with what the strategy checked. *)
Lemma recommendation_source
    (host : Host) (c : Calls) (currentMood : string)
    (fragments : list VideoFragment) (patterns : list PatternInsight)
    (m : RecommendationMatch) :
  In m (fst (generateRecommendations host currentMood fragments patterns c)) ->
  exists f,
    In f fragments
    /\ fragment_id f = rec_fragmentId m
    /\ someHelpful f = true
    /\ ((rec_type m = mood_match /\ mood (metadata f) = currentMood)
        \/ (rec_type m = pattern_completion
            /\ exists p, In p patterns /\ insight_type p = emotional_cycle
                         /\ 0.6 < insight_confidence p
                         /\ In (fragment_id f) (relatedFragments p)
                         /\ score m = insight_confidence p * 0.8)
        \/ (rec_type m = contrast_learning
            /\ score m = 0.7
            /\ exists opposites,
                 emotionOpposites !! currentMood = Some opposites
                 /\ (exists tag, In tag (tags f) /\ In (emotion tag) opposites
                                 /\ 6 <= intensity tag)
                 /\ (exists r, In r (ratings f) /\ helpful r = true
                               /\ 4 <= resonance r))
        \/ (rec_type m = growth_opportunity
            /\ score m = 0.6
            /\ (8 <= clarity (metadata f) \/ 8 <= energy (metadata f)))).
Proof.
  intros Hm.
  unfold generateRecommendations in Hm. unfold andThen at 1 in Hm.
  match type of Hm with context [mapRun ?body ?xs c] =>
    pose proof (mapRun_In body xs c) as Hmood;
    destruct (mapRun body xs c) as [moodMatches c'] end.
  cbn [pure fst] in Hm, Hmood.
  apply In_slice, In_sort in Hm.
  apply in_app_or in Hm as [Hm|Hm].
  { destruct (Hmood m Hm) as (f & c0 & Hf & ->).
    apply filter_In in Hf as [Hf Hcond]. apply andb_true_iff in Hcond as [Hmd Hh].
    apply String.eqb_eq in Hmd.
    exists f. unfold andThen, pure.
    destruct (calculateMoodScore host f c0) as [sc c1]. cbn.
    split; [exact Hf|]. split; [reflexivity|]. split; [exact Hh|].
    left. split; [reflexivity|exact Hmd]. }
  apply in_app_or in Hm as [Hm|Hm].
  { unfold findPatternCompletions in Hm.
    apply in_flat_map in Hm as (p & Hp & Hm).
    destruct (insight_type p) eqn:Hty; try contradiction.
    destruct (gt (insight_confidence p) 0.6) eqn:Hc; [|contradiction].
    apply gt_true in Hc.
    apply in_map_iff in Hm as (f & <- & Hf).
    apply filter_In in Hf as [Hf Hcond]. apply andb_true_iff in Hcond as [Hrel Hh].
    apply includes_In in Hrel.
    exists f. cbn. repeat split; auto. right; left. split; [reflexivity|].
    exists p. repeat split; auto. }
  apply in_app_or in Hm as [Hm|Hm].
  { unfold findContrastLearning in Hm.
    destruct (emotionOpposites !! currentMood) as [opposites|] eqn:Hopp;
      [|contradiction].
    change (default [] (Some opposites)) with opposites in Hm.
    destruct (length opposites =? 0)%nat; [contradiction|].
    apply in_map_iff in Hm as (f & <- & Hf).
    apply filter_In in Hf as [Hf Hcond]. apply andb_true_iff in Hcond as [Htag Hrat].
    apply existsb_exists in Htag as (tag & Htag & Hcond).
    apply andb_true_iff in Hcond as [Hinc Hint].
    apply includes_In in Hinc. apply ge_true in Hint.
    apply existsb_exists in Hrat as (r & Hr & Hcond).
    apply andb_true_iff in Hcond as [Hhelp Hres]. apply ge_true in Hres.
    exists f. cbn. split; [exact Hf|]. split; [reflexivity|].
    split; [apply someHelpful_In; eauto|].
    right; right; left. split; [reflexivity|].
    split; [reflexivity|]. exists opposites. split; [reflexivity|].
    split; eauto. }
  unfold findGrowthOpportunities in Hm.
  apply in_map_iff in Hm as (f & <- & Hf).
  apply In_slice, In_sort in Hf.
  apply filter_In in Hf as [Hf Hcond]. apply andb_true_iff in Hcond as [Hhigh Hh].
  apply orb_true_iff in Hhigh.
  exists f. cbn. split; [exact Hf|]. split; [reflexivity|]. split; [exact Hh|].
  right; right; right. split; [reflexivity|]. split; [reflexivity|].
  destruct Hhigh as [H|H]; apply ge_true in H; auto.
Qed.


(** Every recommendation points to one of the given fragments, one that has
    a rating marked helpful, and its kind is justified by that fragment: a
    mood match has the requested mood, a pattern completion belongs to a cycle
    insight of confidence above 0.6 and scores 0.8 times that confidence, a
    contrast carries a strong opposite emotion and a helpful rating of
    resonance at least 4 and scores 0.7, a growth opportunity has clarity or
    energy of at least 8 and scores 0.6. *)
Theorem recommendations_are_justified
    (host : Host) (c : Calls) (currentMood : string)
    (fragments : list VideoFragment) (patterns : list PatternInsight)
    (m : RecommendationMatch) :
  In m (fst (generateRecommendations host currentMood fragments patterns c)) ->
  exists f,
    In f fragments
    /\ fragment_id f = rec_fragmentId m
    /\ someHelpful f = true
    /\ justified currentMood patterns f m.
Proof.
  intros Hm.
  destruct (recommendation_source host c currentMood fragments patterns m Hm)
    as (f & Hf & Hid & Hh & Hcase).
  exists f. split; [exact Hf|]. split; [exact Hid|]. split; [exact Hh|].
  unfold justified.
  destruct Hcase as [[-> H]|[[-> H]|[[-> H]|[-> H]]]]; exact H.
Qed.

Lemma recommendations_are_justified_witness :
  exists m f,
    fst (generateRecommendations (EngineSamples.hostAt 0) "reflective"
           [EngineSamples.fromTheFuture] [] EngineSamples.start) = [m]
    /\ fragment_id f = rec_fragmentId m
    /\ someHelpful f = true.
Proof.
  destruct (fst (generateRecommendations (EngineSamples.hostAt 0) "reflective"
                   [EngineSamples.fromTheFuture] [] EngineSamples.start))
    as [|m l] eqn:Hrun; [vm_compute in Hrun; discriminate|].
  destruct l; [|vm_compute in Hrun; discriminate].
  destruct (recommendations_are_justified (EngineSamples.hostAt 0) EngineSamples.start
              "reflective" [EngineSamples.fromTheFuture] [] m)
    as (f & _ & Hid & Hh & _).
  - rewrite Hrun. now left.
  - exists m, f. auto.
Defined.

(** The reflection screen finds the fragment of every recommendation the
    engine makes from the same fragments: [getRecommendedFragment] is never
    undefined on them, and the fragment found has the recommended id. *)
Theorem getRecommendedFragment_found
    (host : Host) (c : Calls) (currentMood : string)
    (fragments : list VideoFragment) (patterns : list PatternInsight)
    (m : RecommendationMatch) :
  In m (fst (generateRecommendations host currentMood fragments patterns c)) ->
  exists f,
    Interface.getRecommendedFragment fragments m = Some f
    /\ In f fragments
    /\ fragment_id f = rec_fragmentId m.
Proof.
  intros Hm. apply recommendation_source in Hm as (f & Hf & Hid & _).
  unfold Interface.getRecommendedFragment.
  destruct (List.find _ fragments) as [g|] eqn:Hfind.
  - apply find_some in Hfind as [Hg He]. apply String.eqb_eq in He. eauto.
  - exfalso. pose proof (find_none _ _ Hfind f Hf) as Hn. cbn in Hn.
    rewrite Hid, String.eqb_refl in Hn. discriminate.
Qed.

Lemma getRecommendedFragment_found_witness :
  exists m,
    fst (generateRecommendations (EngineSamples.hostAt 0) "reflective"
           [EngineSamples.fromTheFuture] [] EngineSamples.start) = [m]
    /\ Interface.getRecommendedFragment [EngineSamples.fromTheFuture] m
       = Some EngineSamples.fromTheFuture.
Proof.
  destruct (fst (generateRecommendations (EngineSamples.hostAt 0) "reflective"
                   [EngineSamples.fromTheFuture] [] EngineSamples.start))
    as [|m l] eqn:Hrun; [vm_compute in Hrun; discriminate|].
  destruct l; [|vm_compute in Hrun; discriminate].
  exists m. split; [reflexivity|].
  destruct (getRecommendedFragment_found (EngineSamples.hostAt 0) EngineSamples.start
              "reflective" [EngineSamples.fromTheFuture] [] m)
    as (f & Hfound & [<-|[]] & _).
  - rewrite Hrun. now left.
  - exact Hfound.
Defined.

(** For a mood outside the table of opposites, and not the name of a
    property the table inherits, no contrast is proposed: the strategy
    returns nothing and no returned recommendation is a contrast. *)
Theorem no_contrast_outside_table
    (host : Host) (c : Calls) (currentMood : string)
    (fragments : list VideoFragment) (patterns : list PatternInsight) :
  ~ In currentMood contrastMoods ->
  ~ In currentMood inheritedProperties ->
  findContrastLearning currentMood fragments = []
  /\ forall m,
       In m (fst (generateRecommendations host currentMood fragments patterns c)) ->
       rec_type m <> contrast_learning.
Proof.
  intros Hmood _.
  assert (Hnone : emotionOpposites !! currentMood = None).
  { unfold emotionOpposites. apply not_elem_of_list_to_map_1.
    intros Hin. apply Hmood. apply list_elem_of_In in Hin. exact Hin. }
  split.
  - unfold findContrastLearning. now rewrite Hnone.
  - intros m Hm Hty.
    apply recommendation_source in Hm as (f & _ & _ & _ & Hj).
    destruct Hj as [[E _]|[[E _]|[(_ & _ & opposites & Hopp & _)|[E _]]]];
      congruence.
Qed.

Lemma no_contrast_outside_table_witness :
  findContrastLearning "motivated" EngineSamples.resonant = [].
Proof.
  refine (proj1 (no_contrast_outside_table (EngineSamples.hostAt 0) EngineSamples.start
                   "motivated" EngineSamples.resonant [] _ _)).
  - cbn. intros H.
    repeat destruct H as [H|H]; try discriminate; contradiction.
  - cbn. intros H.
    repeat destruct H as [H|H]; try discriminate; contradiction.
Defined.

(** *** Counting maps *)

Lemma Map_get_set_eq {V} (m : Map V) k v : Map_get (Map_set m k v) k = Some v.
Proof.
  induction m as [|[k' v'] m IH]; cbn.
  - now rewrite String.eqb_refl.
  - destruct (String.eqb k' k) eqn:E; cbn; rewrite E; [reflexivity|exact IH].
Qed.

Lemma Map_get_set_ne {V} (m : Map V) k k0 v :
  k0 <> k -> Map_get (Map_set m k0 v) k = Map_get m k.
Proof.
  intros Hne. induction m as [|[k' v'] m IH]; cbn.
  - destruct (String.eqb k0 k) eqn:E; [apply String.eqb_eq in E; contradiction|].
    reflexivity.
  - destruct (String.eqb k' k0) eqn:E0; cbn.
    + apply String.eqb_eq in E0. subst k'.
      destruct (String.eqb k0 k) eqn:E; [apply String.eqb_eq in E; contradiction|].
      reflexivity.
    + destruct (String.eqb k' k); [reflexivity|exact IH].
Qed.

Lemma In_Map_set {V} (m : Map V) k0 v0 k v :
  In (k, v) (Map_set m k0 v0) -> (k = k0 /\ v = v0) \/ In (k, v) m.
Proof.
  induction m as [|[k' v'] m IH]; cbn.
  - intros [[= <- <-]|[]]. now left.
  - destruct (String.eqb k' k0) eqn:E; cbn.
    + apply String.eqb_eq in E. subst k'. intros [[= <- <-]|H]; auto.
    + intros [H|H]; [auto|]. destruct (IH H); auto.
Qed.

Lemma keys_Map_set {V} (m : Map V) k v x :
  In x (List.map fst (Map_set m k v)) <-> x = k \/ In x (List.map fst m).
Proof.
  induction m as [|[k' v'] m IH]; cbn; [intuition|].
  destruct (String.eqb k' k) eqn:E; cbn.
  - apply String.eqb_eq in E. subst k'. intuition.
  - rewrite IH. intuition.
Qed.

Lemma NoDup_Map_set {V} (m : Map V) k v :
  List.NoDup (List.map fst m) -> List.NoDup (List.map fst (Map_set m k v)).
Proof.
  induction m as [|[k' v'] m IH]; cbn; intros Hnd.
  - constructor; [intros []|constructor].
  - destruct (String.eqb k' k) eqn:E; cbn; [exact Hnd|].
    apply List.NoDup_cons_iff in Hnd as [Hnin Hnd]. apply List.NoDup_cons_iff. split; [|auto].
    rewrite keys_Map_set. intros [->|Hin]; [|contradiction].
    rewrite String.eqb_refl in E. discriminate.
Qed.

Lemma In_Map_get {V} (m : Map V) k v :
  List.NoDup (List.map fst m) -> (In (k, v) m <-> Map_get m k = Some v).
Proof.
  induction m as [|[k' v'] m IH]; cbn; intros Hnd; [split; [intros []|discriminate]|].
  apply List.NoDup_cons_iff in Hnd as [Hnin Hnd].
  destruct (String.eqb k' k) eqn:E.
  - apply String.eqb_eq in E. subst k'. split.
    + intros [[= <-]|Hin]; [reflexivity|].
      exfalso. apply Hnin. now apply (in_map fst _ (k, v)).
    + intros [= <-]. now left.
  - rewrite <- (IH Hnd). split; [|auto].
    intros [[= <- <-]|Hin]; [|exact Hin]. rewrite String.eqb_refl in E. discriminate.
Qed.

Lemma NoDup_tally keys m :
  List.NoDup (List.map fst m) -> List.NoDup (List.map fst (tally keys m)).
Proof.
  revert m. induction keys as [|k keys IH]; intros m H; [exact H|].
  cbn. apply IH. now apply NoDup_Map_set.
Qed.

(** After the counting loop a key maps to its former count plus the number
    of its occurrences; a key never seen has no entry. *)
Lemma Map_get_tally keys m k :
  Map_get (tally keys m) k
  = let n := length (List.filter (fun k' => String.eqb k' k) keys) in
    match Map_get m k with
    | Some c => Some (c + n)%nat
    | None => if (n =? 0)%nat then None else Some n
    end.
Proof.
  revert m. induction keys as [|k0 keys IH]; intros m; cbn zeta.
  - cbn. destruct (Map_get m k); [f_equal; lia|reflexivity].
  - change (tally (k0 :: keys) m)
      with (tally keys (Map_set m k0
              (match Map_get m k0 with Some n => n | None => O end + 1)%nat)).
    rewrite IH. cbn zeta. cbn [List.filter].
    destruct (String.eqb k0 k) eqn:E.
    + apply String.eqb_eq in E. subst k0. rewrite Map_get_set_eq. cbn [length].
      destruct (Map_get m k); cbn; f_equal; lia.
    + rewrite Map_get_set_ne
        by (intros ->; rewrite String.eqb_refl in E; discriminate).
      reflexivity.
Qed.

Lemma In_tally keys k n :
  In (k, n) (tally keys [])
  <-> n = length (List.filter (fun k' => String.eqb k' k) keys) /\ (0 < n)%nat.
Proof.
  rewrite (In_Map_get _ _ _ (NoDup_tally keys [] (List.NoDup_nil _))).
  rewrite Map_get_tally. cbn zeta. cbn [Map_get].
  destruct (length _ =? 0)%nat eqn:E.
  - apply Nat.eqb_eq in E. split; [discriminate|]. intros [-> H]. lia.
  - apply Nat.eqb_neq in E. split; [intros [= <-]|intros [-> _]; reflexivity].
    split; [reflexivity|lia].
Qed.

Lemma fold_left_keys {A} (key : A -> string) (xs : list A) (m : Map nat) :
  fold_left
    (fun counts x =>
       Map_set counts (key x)
         (match Map_get counts (key x) with Some n => n | None => O end + 1)%nat)
    xs m
  = tally (List.map key xs) m.
Proof.
  revert m. induction xs as [|x xs IH]; intros m; [reflexivity|]. cbn. apply IH.
Qed.

Lemma length_filter_map {A} (key : A -> string) (k : string) (xs : list A) :
  length (List.filter (fun k' => String.eqb k' k) (List.map key xs))
  = length (List.filter (fun x => String.eqb (key x) k) xs).
Proof.
  induction xs as [|x xs IH]; [reflexivity|]. cbn.
  destruct (String.eqb (key x) k); cbn; now rewrite IH.
Qed.

Lemma Math_ceil_le (x : Q) (n : nat) :
  (Math_ceil x <= Z.of_nat n)%Z <-> x <= ofNat n.
Proof.
  unfold Math_ceil, ofNat. split.
  - intros H. apply Qle_trans with (inject_Z (Qceiling x)); [apply Qle_ceiling|].
    now rewrite <- Zle_Qle.
  - intros H. apply Qceiling_resp_le in H. now rewrite Qceiling_Z in H.
Qed.

Lemma NoDup_map_fst_filter {V} (p : string * V -> bool) (m : Map V) :
  List.NoDup (List.map fst m) -> List.NoDup (List.map fst (List.filter p m)).
Proof.
  induction m as [|[k v] m IH]; cbn; intros Hnd; [constructor|].
  apply List.NoDup_cons_iff in Hnd as [Hnin Hnd].
  destruct (p (k, v)); cbn; [|auto].
  apply List.NoDup_cons_iff. split; [|auto].
  intros Hin. apply Hnin. apply in_map_iff in Hin as ([k' v'] & <- & Hin).
  apply filter_In in Hin as [Hin _]. now apply (in_map fst _ (k', v')).
Qed.

(** The entries of a counting map that reach a threshold of at least one. *)
Lemma common_keys (keys : list string) (threshold : Z) (k : string) :
  (0 < threshold)%Z ->
  In k (List.map fst
          (List.filter (fun '(_, count) => (threshold <=? Z.of_nat count)%Z)
             (tally keys [])))
  <-> (threshold
       <= Z.of_nat (length (List.filter (fun k' => String.eqb k' k) keys)))%Z.
Proof.
  intros Hpos. rewrite in_map_iff. split.
  - intros ([k' n] & <- & Hin). apply filter_In in Hin as [Hin Hle].
    apply In_tally in Hin as [-> _]. now apply Z.leb_le in Hle.
  - intros Hle. eexists (k, _). split; [reflexivity|].
    apply filter_In. split.
    + apply In_tally. split; [reflexivity|]. lia.
    + now apply Z.leb_le.
Qed.

Lemma threshold_pos (n : nat) (share : Q) :
  (0 < n)%nat -> 0 < share -> (0 < Math_ceil (ofNat n * share))%Z.
Proof.
  intros Hn Hs.
  assert (0 < ofNat n * share).
  { apply Qmult_lt_0_compat; [|exact Hs]. now apply ofNat_pos. }
  assert (Hc : ofNat n * share <= inject_Z (Math_ceil (ofNat n * share)))
    by apply Qle_ceiling.
  assert (0 < inject_Z (Math_ceil (ofNat n * share))) by lra.
  change 0 with (inject_Z 0) in H0. now rewrite <- Zlt_Qlt in H0.
Qed.

(** *** Common moods and emotions *)

(** Among one or more fragments, a mood is reported as common exactly when
    at least half of the fragments have it, and no mood is reported twice. *)
Theorem findCommonMoods_half (fragments : list VideoFragment) (m : string) :
  fragments <> [] ->
  (In m (findCommonMoods fragments)
   <-> ofNat (length fragments) * 0.5 <= ofNat (moodCount m fragments))
  /\ List.NoDup (findCommonMoods fragments).
Proof.
  intros Hne. unfold findCommonMoods. cbv zeta.
  rewrite (fold_left_keys (fun f => mood (metadata f))). split.
  - rewrite common_keys, length_filter_map, Math_ceil_le; [reflexivity|].
    apply threshold_pos; [|reflexivity].
    destruct fragments; [contradiction|cbn; lia].
  - apply NoDup_map_fst_filter. apply NoDup_tally. constructor.
Qed.

Lemma findCommonMoods_half_witness :
  In "reflective" (findCommonMoods EngineSamples.resonant).
Proof.
  apply (proj1 (findCommonMoods_half EngineSamples.resonant "reflective"
                  ltac:(discriminate))).
  vm_compute. discriminate.
Defined.

Lemma fold_left_tags (fragments : list VideoFragment) (m : Map nat) :
  fold_left
    (fun counts fragment =>
       fold_left
         (fun counts' tag =>
            Map_set counts' (emotion tag)
              (match Map_get counts' (emotion tag) with Some n => n | None => O end + 1)%nat)
         (tags fragment) counts)
    fragments m
  = tally (List.map emotion (flat_map tags fragments)) m.
Proof.
  revert m. induction fragments as [|f fs IH]; intros m; [reflexivity|].
  cbn [fold_left flat_map]. rewrite IH, (fold_left_keys emotion), List.map_app.
  unfold tally. now rewrite fold_left_app.
Qed.

(** Among one or more fragments, an emotion is reported as common exactly
    when the number of tags carrying it, counted over all the fragments, is
    at least 60% of the number of fragments; no emotion is reported twice. *)
Theorem findCommonEmotions_tag_share (fragments : list VideoFragment) (e : string) :
  fragments <> [] ->
  (In e (findCommonEmotions fragments)
   <-> ofNat (length fragments) * 0.6 <= ofNat (tagCount e fragments))
  /\ List.NoDup (findCommonEmotions fragments).
Proof.
  intros Hne. unfold findCommonEmotions. cbv zeta.
  rewrite fold_left_tags. split.
  - rewrite common_keys, length_filter_map, Math_ceil_le; [reflexivity|].
    apply threshold_pos; [|reflexivity].
    destruct fragments; [contradiction|cbn; lia].
  - apply NoDup_map_fst_filter. apply NoDup_tally. constructor.
Qed.

Lemma findCommonEmotions_tag_share_witness :
  In "calm" (findCommonEmotions EngineSamples.resonant).
Proof.
  apply (proj1 (findCommonEmotions_tag_share EngineSamples.resonant "calm"
                  ltac:(discriminate))).
  vm_compute. discriminate.
Defined.

(** *** What insights refer to *)

Lemma pushEach_Forall_In {A B} (P : B -> Prop) (body : A -> Run (list B)) xs c :
  (forall x, In x xs -> forall c', Forall P (fst (body x c'))) ->
  Forall P (fst (pushEach body xs c)).
Proof.
  revert c. induction xs as [|x xs IH]; intros c Hb; [constructor|].
  cbn [pushEach]. unfold andThen, pure.
  pose proof (Hb x (or_introl eq_refl) c) as Hx. destruct (body x c) as [ys c1].
  specialize (IH c1 (fun y Hy => Hb y (or_intror Hy))).
  destruct (pushEach body xs c1) as [zs c2].
  cbn [fst] in *. apply Forall_app. now split.
Qed.

Lemma In_emotionSequences (fragments : list VideoFragment) (s : EmotionSeq) :
  In s (emotionSequences fragments) ->
  exists f, In f fragments /\ seq_fragmentId s = fragment_id f.
Proof.
  unfold emotionSequences. intros H. apply in_flat_map in H as (f & Hf & Hs).
  destruct (dominantEmotion (tags f)); [|contradiction].
  destruct Hs as [<-|[]]. eauto.
Qed.

Lemma In_emotionTransitions (fragments : list VideoFragment) (t : Transition) :
  In t (emotionTransitions fragments) ->
  from t <> to t
  /\ exists current next,
       In current fragments /\ In next fragments
       /\ fragmentIds t = (fragment_id current, fragment_id next).
Proof.
  unfold emotionTransitions. intros H.
  apply in_flat_map in H as ([current next] & Hp & Ht).
  destruct (dominantEmotion (tags current)) as [t1|]; [|contradiction].
  destruct (dominantEmotion (tags next)) as [t2|]; [|contradiction].
  destruct (String.eqb (emotion t1) (emotion t2)) eqn:E; [contradiction|].
  destruct Ht as [<-|[]]. cbn. split.
  - intros Heq. rewrite Heq, String.eqb_refl in E. discriminate.
  - exists current, next. split; [eapply in_combine_l, Hp|]. split; [|reflexivity].
    apply in_combine_r in Hp. destruct fragments; [contradiction|now right].
Qed.

Lemma Map_get_In {V} (m : Map V) k v : Map_get m k = Some v -> In (k, v) m.
Proof.
  induction m as [|[k' v'] m IH]; cbn; [discriminate|].
  destruct (String.eqb k' k) eqn:E; [|auto].
  apply String.eqb_eq in E. subst k'. intros [= <-]. now left.
Qed.

(** Every group holds recorded transitions only, at least one of them. *)
Lemma transitionGroups_members (P : Transition -> Prop) (ts : list Transition) :
  Forall P ts ->
  forall k g, In (k, g) (transitionGroups ts) -> Forall P g.
Proof.
  unfold transitionGroups.
  assert (H : forall (m : Map (list Transition)),
    (forall k g, In (k, g) m -> Forall P g) -> Forall P ts ->
    forall k g,
      In (k, g)
        (fold_left
           (fun groups transition =>
              let key := (from transition ++ "->" ++ to transition)%string in
              Map_set groups key
                (match Map_get groups key with Some g => g | None => [] end
                 ++ [transition]))
           ts m) -> Forall P g).
  { induction ts as [|t ts IH]; intros m Hm Hts k g; [apply Hm|].
    cbn [fold_left]. apply IH.
    - intros k' g' Hin. apply In_Map_set in Hin as [[-> ->]|Hin]; [|eauto].
      apply Forall_app. split.
      + destruct (Map_get m _) as [g0|] eqn:Hg; [|constructor].
        apply Map_get_In in Hg. eauto.
      + constructor; [|constructor]. now inversion Hts.
    - now inversion Hts. }
  intros Hts. apply H; [intros k g []|exact Hts].
Qed.

(** The related fragments of every insight are ids of analysed fragments. *)
Theorem insights_relate_analysed_fragments
    (host : Host) (c : Calls) (fragments : list VideoFragment)
    (i : PatternInsight) (id : string) :
  In i (fst (analyzeEmotionalPatterns host fragments c)) ->
  In id (relatedFragments i) ->
  exists f, In f fragments /\ fragment_id f = id.
Proof.
  intros Hi Hid.
  set (known := fun i : PatternInsight =>
         forall id, In id (relatedFragments i) ->
                    exists f, In f fragments /\ fragment_id f = id).
  enough (Hall : Forall known (fst (analyzeEmotionalPatterns host fragments c)))
    by (exact (proj1 (List.Forall_forall _ _) Hall i Hi id Hid)).
  rewrite analyzeEmotionalPatterns_run. cbn [fst snd].
  set (sorted := sort (fun a b => timestamp a - timestamp b) fragments).
  assert (Hsorted : forall f, In f sorted -> In f fragments)
    by (intros f; apply In_sort).
  apply List.Forall_app; split;
    [|apply List.Forall_app; split; [|apply List.Forall_app; split]].
  - apply pushEach_Forall. intros [pattern count] c'.
    destruct (2 <=? count)%nat; [|constructor].
    constructor; [|constructor]. intros id' Hin. cbn in Hin.
    unfold cycleRelated in Hin. apply in_map_iff in Hin as (s & <- & Hs).
    apply filter_In in Hs as [Hs _].
    apply In_emotionSequences in Hs as (f & Hf & ->). eauto.
  - apply pushEach_Forall_In. intros [key transitions] Hg c'.
    destruct (2 <=? length transitions)%nat; [|constructor].
    constructor; [|constructor]. intros id' Hin. cbn in Hin.
    apply in_flat_map in Hin as (t & Ht & Hin).
    assert (Hts : Forall (fun t => In t (emotionTransitions sorted))
                    (emotionTransitions sorted))
      by (apply List.Forall_forall; auto).
    pose proof (transitionGroups_members _ _ Hts _ _ Hg) as Hmem.
    apply (proj1 (List.Forall_forall _ _) Hmem) in Ht.
    apply In_emotionTransitions in Ht as (_ & current & next & Hc & Hn & Hids).
    rewrite Hids in Hin. cbn in Hin.
    destruct Hin as [<-|[<-|[]]]; eauto.
  - unfold detectGrowthTrends.
    destruct (length sorted <? 5)%nat; [constructor|].
    unfold andThen, pure, now.
    repeat match goal with |- context [if ?b then _ else _] => destruct b end;
      cbn; repeat constructor;
      intros id' Hin; cbn in Hin; apply in_map_iff in Hin as (f & <- & Hf); eauto.
  - unfold detectResonanceClusters. cbv zeta.
    destruct (3 <=? length (highRatedFragments fragments))%nat; [|constructor].
    unfold andThen, pure, now.
    repeat match goal with |- context [if ?b then _ else _] => destruct b end;
      cbn; repeat constructor;
      intros id' Hin; cbn in Hin; apply in_map_iff in Hin as (f & <- & Hf);
      apply filter_In in Hf as [Hf _]; eauto.
Qed.

Lemma insights_relate_analysed_fragments_witness :
  forall_ids_known
    (fst (analyzeEmotionalPatterns (EngineSamples.hostAt 0) EngineSamples.resonant
            EngineSamples.start))
    EngineSamples.resonant.
Proof.
  unfold forall_ids_known. apply List.Forall_forall. intros i Hi.
  apply List.Forall_forall. intros id Hid.
  exact (insights_relate_analysed_fragments _ _ _ i id Hi Hid).
Defined.

(** *** Confidence *)

Lemma emotionCycles_nonempty (seqs : list EmotionSeq) x :
  In x (emotionCycles seqs) -> (3 <= length seqs)%nat.
Proof.
  intros H. destruct (le_lt_dec 3 (length seqs)) as [Hle|Hlt]; [exact Hle|].
  exfalso. unfold emotionCycles in H.
  replace (length seqs + 1 - patternLength)%nat with 0%nat in H
    by (unfold patternLength; lia).
  exact H.
Qed.

Lemma transitionGroups_nonempty (ts : list Transition) k g :
  In (k, g) (transitionGroups ts) -> g <> [].
Proof.
  unfold transitionGroups.
  assert (H : forall (m : Map (list Transition)),
    (forall k0 g0, In (k0, g0) m -> g0 <> []) ->
    forall k0 g0,
      In (k0, g0)
        (fold_left
           (fun groups transition =>
              let key := (from transition ++ "->" ++ to transition)%string in
              Map_set groups key
                (match Map_get groups key with Some g => g | None => [] end
                 ++ [transition]))
           ts m) -> g0 <> []).
  { induction ts as [|t ts IH]; intros m Hm k0 g0; [apply Hm|].
    cbn [fold_left]. apply IH.
    intros k' g' Hin. apply In_Map_set in Hin as [[-> ->]|Hin]; [|eauto].
    intros Hnil. apply app_eq_nil in Hnil as [_ Hnil]. discriminate. }
  apply H. intros k' g' [].
Qed.

(** The confidence of an insight lies in the range of its kind: a cycle in
    (0, 0.9], a trigger pattern in [0.4, 0.8], a resonance cluster at 0.8 or
    0.7, and a growth trend is never negative. *)
Theorem insight_confidence_in_range
    (host : Host) (c : Calls) (fragments : list VideoFragment) (i : PatternInsight) :
  In i (fst (analyzeEmotionalPatterns host fragments c)) ->
  confidenceInRange i.
Proof.
  intros Hi.
  enough (Hall : Forall confidenceInRange
                   (fst (analyzeEmotionalPatterns host fragments c)))
    by (exact (proj1 (List.Forall_forall _ _) Hall i Hi)).
  rewrite analyzeEmotionalPatterns_run. cbn [fst snd].
  set (sorted := sort (fun a b => timestamp a - timestamp b) fragments).
  apply List.Forall_app; split;
    [|apply List.Forall_app; split; [|apply List.Forall_app; split]].
  - apply pushEach_Forall_In. intros [pattern count] Hin c'.
    destruct (2 <=? count)%nat eqn:Hc; [|constructor].
    apply Nat.leb_le in Hc. apply emotionCycles_nonempty in Hin.
    pose proof (length_emotionSequences sorted) as Hlen.
    constructor; [|constructor]. unfold confidenceInRange.
    cbn [insight_type insight_confidence].
    split; [|apply Q.le_min_r].
    apply Q.min_glb_lt; [|reflexivity].
    apply Qlt_shift_div_l; [apply ofNat_pos; lia|].
    rewrite Qmult_0_l. apply ofNat_pos. lia.
  - apply pushEach_Forall. intros [key transitions] c'.
    destruct (2 <=? length transitions)%nat eqn:Hc; [|constructor].
    apply Nat.leb_le in Hc.
    constructor; [|constructor]. unfold confidenceInRange.
    cbn [insight_type insight_confidence].
    split; [|apply Q.le_min_r].
    apply Q.min_glb; [|discriminate].
    apply Qle_shift_div_l; [reflexivity|].
    apply Qle_trans with (ofNat 2); [discriminate|]. now apply ofNat_le.
  - unfold detectGrowthTrends.
    destruct (length sorted <? 5)%nat; [constructor|].
    unfold andThen, pure, now.
    assert (Hcorr : forall values, 0 <= correlation (calculateTrend host values)).
    { intros values. unfold calculateTrend.
      destruct (length values <? 2)%nat; [cbn [correlation]; lra|].
      destruct (fold_left _ _ _) as [[num dx] dy]. cbn [correlation].
      destruct (Qeq_bool _ 0); [lra|apply Qabs_nonneg]. }
    destruct (gt (slope (calculateTrend host _)) 0.1);
      destruct (gt (slope (calculateTrend host _)) 0.1);
      cbn [fst app];
      repeat (apply List.Forall_cons;
              [unfold confidenceInRange; cbn [insight_type insight_confidence];
               apply Hcorr|]);
      apply List.Forall_nil.
  - unfold detectResonanceClusters. cbv zeta.
    destruct (3 <=? length (highRatedFragments fragments))%nat; [|constructor].
    unfold andThen, pure, now.
    destruct (0 <? length (findCommonEmotions _))%nat;
      destruct (0 <? length (findCommonMoods _))%nat;
      cbn [fst app];
      repeat (apply List.Forall_cons;
              [unfold confidenceInRange; cbn [insight_type insight_confidence];
               auto|]);
      apply List.Forall_nil.
Qed.

Lemma insight_confidence_in_range_witness :
  Forall confidenceInRange
    (fst (analyzeEmotionalPatterns (EngineSamples.hostAt 0) EngineSamples.resonant
            EngineSamples.start)).
Proof.
  apply List.Forall_forall. intros i Hi.
  exact (insight_confidence_in_range _ _ _ i Hi).
Defined.

(** *** Trends *)

Lemma fold_left_Qplus_compat (l : list Q) (acc acc' : Q) :
  acc == acc' -> fold_left Qplus l acc == fold_left Qplus l acc'.
Proof.
  revert acc acc'. induction l as [|x l IH]; intros acc acc' H; [exact H|].
  cbn. apply IH. now rewrite H.
Qed.

Lemma fold_left_Qplus_acc (l : list Q) (acc : Q) :
  fold_left Qplus l acc == acc + fold_left Qplus l 0.
Proof.
  revert acc. induction l as [|y l IH]; intros acc; cbn; [ring|].
  rewrite (IH (acc + y)), (IH (0 + y)). ring.
Qed.

Lemma sum_cons (x : Q) (l : list Q) : sum (x :: l) == x + sum l.
Proof. unfold sum. cbn. rewrite fold_left_Qplus_acc. ring. Qed.

(** The sum of values that lie on a line over consecutive indices. *)
Lemma sum_on_line (a b : Q) (values : list Q) (start : nat) :
  Forall2 (fun v i => v == a + b * ofNat i) values (seq start (length values)) ->
  sum values
  == ofNat (length values) * a
     + b * sum (List.map ofNat (seq start (length values))).
Proof.
  revert start. induction values as [|v values IH]; intros start H.
  - cbn. unfold sum, ofNat. cbn. ring.
  - cbn [length seq List.map] in *. inversion H as [|? ? ? ? Hv Hrest]; subst.
    rewrite !sum_cons, (IH _ Hrest), Hv.
    unfold ofNat. rewrite Nat2Z.inj_succ, <- Z.add_1_r, inject_Z_plus.
    change (inject_Z 1) with 1. ring.
Qed.

Lemma pairs_on_line (a b : Q) (values : list Q) (start : nat) (x v : Q) :
  Forall2 (fun v i => v == a + b * ofNat i) values (seq start (length values)) ->
  In (x, v) (combine (List.map ofNat (seq start (length values))) values) ->
  v == a + b * x.
Proof.
  revert start. induction values as [|v0 values IH]; intros start H Hin;
    [destruct Hin|].
  cbn [length seq List.map combine] in *.
  inversion H as [|? ? ? ? Hv Hrest]; subst.
  destruct Hin as [[= <- <-]|Hin]; [exact Hv|]. eapply IH; eauto.
Qed.

Lemma Qsquare_nonneg (d : Q) : 0 <= d * d.
Proof.
  destruct (Qlt_le_dec d 0) as [H|H].
  - assert (E : d * d == (- d) * (- d)) by ring. rewrite E.
    apply Qmult_le_0_compat; lra.
  - now apply Qmult_le_0_compat.
Qed.

Section Sums.

Variables meanX meanY : Q.

Let stepN (acc : Q) (p : Q * Q) : Q := acc + (fst p - meanX) * (snd p - meanY).
Let stepX (acc : Q) (p : Q * Q) : Q := acc + (fst p - meanX) * (fst p - meanX).
Let stepY (acc : Q) (p : Q * Q) : Q := acc + (snd p - meanY) * (snd p - meanY).

(** The loop of [calculateTrend] accumulates three independent sums. *)
Lemma trend_loop (pairs : list (Q * Q)) (n dx dy : Q) :
  fold_left
    (fun '(num, dx, dy) '(xi, vi) =>
       let deltaX := xi - meanX in
       let deltaY := vi - meanY in
       (num + deltaX * deltaY, dx + deltaX * deltaX, dy + deltaY * deltaY))
    pairs (n, dx, dy)
  = (fold_left stepN pairs n, fold_left stepX pairs dx, fold_left stepY pairs dy).
Proof.
  revert n dx dy. induction pairs as [|[x v] pairs IH]; intros n dx dy;
    [reflexivity|].
  cbn [fold_left]. now rewrite IH.
Qed.

Lemma stepX_grows (pairs : list (Q * Q)) (acc : Q) :
  acc <= fold_left stepX pairs acc.
Proof.
  revert acc. induction pairs as [|[x v] pairs IH]; intros acc; cbn; [lra|].
  apply Qle_trans with (stepX acc (x, v)); [|apply IH].
  unfold stepX. cbn [fst snd].
  pose proof (Qsquare_nonneg (x - meanX)). lra.
Qed.

Lemma stepN_on_line (b : Q) (pairs : list (Q * Q)) (n dx : Q) :
  (forall x v, In (x, v) pairs -> v - meanY == b * (x - meanX)) ->
  n == b * dx ->
  fold_left stepN pairs n == b * fold_left stepX pairs dx.
Proof.
  revert n dx. induction pairs as [|[x v] pairs IH]; intros n dx Hp Hn;
    [exact Hn|].
  cbn [fold_left]. apply IH; [intros; apply Hp; now right|].
  unfold stepN, stepX. cbn [fst snd].
  rewrite Hn, (Hp x v) by now left. ring.
Qed.

End Sums.

(** On values that lie exactly on a line over their indices, two or more of
    them, the computed slope is the step of the line. *)
Theorem calculateTrend_slope_of_line (host : Host) (a b : Q) (values : list Q) :
  (2 <= length values)%nat ->
  Forall2 (fun v i => v == a + b * ofNat i) values (seq 0 (length values)) ->
  slope (calculateTrend host values) == b.
Proof.
  intros Hlen Hline. unfold calculateTrend.
  destruct (length values <? 2)%nat eqn:E; [apply Nat.ltb_lt in E; lia|]. clear E.
  cbv zeta.
  set (n := ofNat (length values)).
  set (x := List.map ofNat (seq 0 (length values))).
  set (meanX := sum x / n). set (meanY := sum values / n).
  rewrite trend_loop. cbv beta iota. cbn [slope].
  assert (Hn : 0 < n) by (apply ofNat_pos; lia).
  assert (HmeanY : meanY == a + b * meanX).
  { unfold meanY, meanX. rewrite (sum_on_line a b values 0 Hline).
    fold x. fold n. field. lra. }
  set (dX := fold_left (fun acc p => acc + (fst p - meanX) * (fst p - meanX))
               (combine x values) 0).
  set (num := fold_left (fun acc p => acc + (fst p - meanX) * (snd p - meanY))
                (combine x values) 0).
  assert (Hnum : num == b * dX).
  { apply stepN_on_line; [|ring].
    intros x0 v Hin. pose proof (pairs_on_line a b values 0 x0 v Hline Hin) as Hv.
    rewrite Hv, HmeanY. ring. }
  assert (HdX : 0 < dX).
  { unfold dX, x. destruct values as [|v0 [|v1 rest]]; cbn in Hlen; try lia.
    cbn [length seq List.map combine fold_left].
    eapply Qlt_le_trans; [|apply stepX_grows].
    change (ofNat 0) with 0. change (ofNat 1) with 1. cbn [fst].
    pose proof (Qsquare_nonneg (2 * meanX - 1)) as Hsq.
    assert (Hid : 2 * (0 + (0 - meanX) * (0 - meanX) + (1 - meanX) * (1 - meanX))
                  == (2 * meanX - 1) * (2 * meanX - 1) + 1) by ring.
    lra. }
  destruct (Qeq_bool dX 0) eqn:E.
  - apply Qeq_bool_iff in E. lra.
  - cbn [negb]. rewrite Hnum. field. lra.
Qed.

Lemma calculateTrend_slope_of_line_witness :
  slope (calculateTrend (EngineSamples.hostAt 0) [3; 5; 7]) == 2.
Proof.
  apply (calculateTrend_slope_of_line (EngineSamples.hostAt 0) 3 2 [3; 5; 7]).
  - cbn. lia.
  - repeat constructor.
Defined.

Lemma constant_on_line (k : Q) (values : list Q) (start : nat) :
  (forall v, In v values -> v == k) ->
  Forall2 (fun v i => v == k + 0 * ofNat i) values (seq start (length values)).
Proof.
  revert start. induction values as [|v values IH]; intros start H;
    cbn [length seq]; [constructor|].
  constructor; [pose proof (H v (or_introl eq_refl)); lra|].
  apply IH. intros; apply H; now right.
Qed.

Lemma slope_of_constant (host : Host) (k : Q) (values : list Q) :
  (forall v, In v values -> v == k) ->
  gt (slope (calculateTrend host values)) 0.1 = false.
Proof.
  intros H. apply gt_false. unfold calculateTrend.
  destruct (length values <? 2)%nat eqn:E; [discriminate|].
  apply Nat.ltb_ge in E. cbv zeta.
  set (n := ofNat (length values)).
  set (x := List.map ofNat (seq 0 (length values))).
  set (meanX := sum x / n). set (meanY := sum values / n).
  rewrite trend_loop. cbv beta iota. cbn [slope].
  assert (Hn : 0 < n) by (apply ofNat_pos; lia).
  assert (HmeanY : meanY == k).
  { unfold meanY. rewrite (sum_on_line k 0 values 0 (constant_on_line k values 0 H)).
    fold n. field. lra. }
  set (dX := fold_left (fun acc p => acc + (fst p - meanX) * (fst p - meanX))
               (combine x values) 0).
  set (num := fold_left (fun acc p => acc + (fst p - meanX) * (snd p - meanY))
                (combine x values) 0).
  assert (Hnum : num == 0 * dX).
  { apply stepN_on_line; [|ring].
    intros x0 v Hin. apply in_combine_r in Hin.
    pose proof (H v Hin) as Hv. rewrite Hv, HmeanY. ring. }
  destruct (Qeq_bool dX 0); cbn [negb]; [discriminate|].
  assert (Hz : num / dX == 0) by (rewrite Hnum; unfold Qdiv; ring).
  rewrite Hz. discriminate.
Qed.

(** When all fragments have the same clarity and all have the same energy,
    no growth trend is reported, however many fragments there are. *)
Theorem detectGrowthTrends_constant
    (host : Host) (c : Calls) (fragments : list VideoFragment) (k1 k2 : Q) :
  (forall f, In f fragments ->
             clarity (metadata f) == k1 /\ energy (metadata f) == k2) ->
  detectGrowthTrends host fragments c = ([], c).
Proof.
  intros H. unfold detectGrowthTrends.
  destruct (length fragments <? 5)%nat; [reflexivity|]. cbv zeta.
  rewrite (slope_of_constant host k1), (slope_of_constant host k2).
  - reflexivity.
  - intros v Hv. apply in_map_iff in Hv as (f & <- & Hf). now apply H.
  - intros v Hv. apply in_map_iff in Hv as (f & <- & Hf). now apply H.
Qed.

Lemma detectGrowthTrends_constant_witness :
  detectGrowthTrends (EngineSamples.hostAt 0)
    (EngineSamples.resonant ++ EngineSamples.resonant) EngineSamples.start
  = ([], EngineSamples.start).
Proof.
  apply (detectGrowthTrends_constant _ _ _ 5 5).
  intros f Hf. cbn in Hf.
  repeat destruct Hf as [Hf|Hf]; try contradiction; subst; split; reflexivity.
Defined.

(** *** Typed data *)

Lemma fold_left_pick_In {A} (f : A -> A -> A) (l : list A) (a : A) :
  (forall x y, f x y = x \/ f x y = y) -> In (fold_left f l a) (a :: l).
Proof.
  intros Hf. revert a. induction l as [|x l IH]; intros a; [now left|].
  cbn [fold_left]. destruct (IH (f a x)) as [H|H].
  - rewrite <- H. destruct (Hf a x) as [E|E]; rewrite E; [now left|right; now left].
  - right; right; exact H.
Qed.

Lemma dominantEmotion_In (ts : list EmotionTag) (d : EmotionTag) :
  dominantEmotion ts = Some d -> In d ts.
Proof.
  destruct ts as [|a l]; [discriminate|].
  unfold dominantEmotion, reduce1. intros [= <-].
  apply fold_left_pick_In. intros x y.
  destruct (gt (intensity y) (intensity x)); auto.
Qed.

Lemma emotionSequences_typed (fragments : list VideoFragment) (s : EmotionSeq) :
  typedTags fragments ->
  In s (emotionSequences fragments) -> In (seq_emotion s) emotionTypes.
Proof.
  intros Ht H. unfold emotionSequences in H.
  apply in_flat_map in H as (f & Hf & Hs).
  destruct (dominantEmotion (tags f)) as [d|] eqn:Hd; [|contradiction].
  destruct Hs as [<-|[]]. cbn.
  eapply Ht; [exact Hf|]. now apply dominantEmotion_In.
Qed.

(** No [EmotionType] is part of another, and none contains the separator:
    searching an emotion in a joined pattern finds exactly its elements. *)
Lemma pattern_search_exact (e1 e2 e3 e : string) :
  In e1 emotionTypes -> In e2 emotionTypes -> In e3 emotionTypes ->
  In e emotionTypes ->
  str_includes (String.concat "-" [e1; e2; e3]) e = includes [e1; e2; e3] e.
Proof.
  intros H1 H2 H3 H.
  assert (A : forallb (fun a => forallb (fun b => forallb (fun c => forallb (fun x =>
                Bool.eqb (str_includes (String.concat "-" [a; b; c]) x)
                         (includes [a; b; c] x))
              emotionTypes) emotionTypes) emotionTypes) emotionTypes = true)
    by (vm_compute; reflexivity).
  rewrite forallb_forall in A. specialize (A e1 H1).
  rewrite forallb_forall in A. specialize (A e2 H2).
  rewrite forallb_forall in A. specialize (A e3 H3).
  rewrite forallb_forall in A. specialize (A e H).
  now apply Bool.eqb_prop.
Qed.

Lemma window_of_three {A} (i : nat) (l : list A) :
  (i + 3 <= length l)%nat ->
  exists a b c, slice i (i + patternLength) l = [a; b; c]
                /\ In a l /\ In b l /\ In c l.
Proof.
  intros Hlen. unfold slice, patternLength.
  replace (i + 3 - i)%nat with 3%nat by lia.
  pose proof (length_skipn i l) as Hs.
  pose proof (fun z => In_skipn_In i z l) as Hin.
  destruct (skipn i l) as [|a [|b [|c rest]]]; cbn [length] in Hs; try lia.
  exists a, b, c. cbn [firstn]. split; [reflexivity|].
  repeat split; apply Hin; cbn; auto.
Qed.

Lemma emotionCycles_keys (seqs : list EmotionSeq) (k : string) (n : nat) :
  In (k, n) (emotionCycles seqs) ->
  exists s1 s2 s3,
    k = String.concat "-" [seq_emotion s1; seq_emotion s2; seq_emotion s3]
    /\ In s1 seqs /\ In s2 seqs /\ In s3 seqs.
Proof.
  unfold emotionCycles.
  rewrite (fold_left_keys
             (fun i => String.concat "-"
                         (List.map seq_emotion (slice i (i + patternLength) seqs)))).
  intros H. apply In_tally in H as [Hn Hpos]. subst n.
  destruct (List.filter _ _) as [|k' rest] eqn:Hf; [cbn in Hpos; lia|].
  assert (Hk : In k' (List.filter (fun k' => String.eqb k' k)
                        (List.map (fun i => String.concat "-"
                           (List.map seq_emotion (slice i (i + patternLength) seqs)))
                           (seq 0 (length seqs + 1 - patternLength)))))
    by (rewrite Hf; now left).
  apply filter_In in Hk as [Hk He]. apply String.eqb_eq in He. subst k'.
  apply in_map_iff in Hk as (i & <- & Hi). apply in_seq in Hi.
  unfold patternLength in Hi.
  destruct (window_of_three i seqs) as (a & b & c0 & -> & Ha & Hb & Hc); [lia|].
  exists a, b, c0. cbn [List.map]. auto.
Qed.

Lemma related_by_dominant (es : list string) (fragments : list VideoFragment) :
  List.map seq_fragmentId
    (List.filter (fun s => includes es (seq_emotion s)) (emotionSequences fragments))
  = List.map fragment_id (List.filter (dominantIn es) fragments).
Proof.
  unfold emotionSequences, dominantIn.
  induction fragments as [|f fs IH]; [reflexivity|].
  cbn [flat_map List.filter]. rewrite List.filter_app, List.map_app, IH.
  destruct (dominantEmotion (tags f)) as [d|]; [|reflexivity].
  cbn [List.filter seq_emotion].
  destruct (includes es (emotion d)); reflexivity.
Qed.

(** On fragments whose tags carry [EmotionType] names, the fragments a
    cycle insight relates are exactly those whose dominant emotion is one of
    the three emotions of its pattern, in the order given: the substring
    search the code uses makes no difference. *)
Theorem cycle_relates_dominant_emotions
    (host : Host) (c : Calls) (fragments : list VideoFragment) :
  typedTags fragments ->
  Forall (fun i =>
            exists e1 e2 e3,
              description i = cycleDescription (String.concat "-" [e1; e2; e3])
              /\ relatedFragments i
                 = List.map fragment_id
                     (List.filter (dominantIn [e1; e2; e3]) fragments))
    (fst (detectEmotionalCycles host fragments c)).
Proof.
  intros Ht. unfold detectEmotionalCycles. cbv zeta.
  apply pushEach_Forall_In. intros [pattern count] Hin c'.
  destruct (2 <=? count)%nat; [|constructor].
  unfold andThen, now, random, pure. cbn [fst].
  constructor; [|constructor]. cbn [description relatedFragments].
  apply emotionCycles_keys in Hin as (s1 & s2 & s3 & -> & H1 & H2 & H3).
  exists (seq_emotion s1), (seq_emotion s2), (seq_emotion s3).
  split; [reflexivity|].
  rewrite <- related_by_dominant. unfold cycleRelated. f_equal.
  apply List.filter_ext_in. intros s Hs.
  apply pattern_search_exact; now apply (emotionSequences_typed fragments).
Qed.

Lemma cycle_relates_dominant_emotions_witness :
  Forall (fun i =>
            exists e1 e2 e3,
              description i = cycleDescription (String.concat "-" [e1; e2; e3])
              /\ relatedFragments i
                 = List.map fragment_id
                     (List.filter (dominantIn [e1; e2; e3])
                        MoreEngineSamples.alternating))
    (fst (detectEmotionalCycles (EngineSamples.hostAt 0)
            MoreEngineSamples.alternating EngineSamples.start)).
Proof.
  apply (cycle_relates_dominant_emotions (EngineSamples.hostAt 0) EngineSamples.start
           MoreEngineSamples.alternating).
  intros f tag Hf Htag. cbn in Hf.
  repeat destruct Hf as [Hf|Hf]; try contradiction; subst f;
    cbn in Htag; destruct Htag as [<-|[]]; cbn; tauto.
Defined.

(** With tags that carry [EmotionType] names only nine (mood, emotion) pairs
    of the table of opposites can lead to a contrast: every contrast points
    to a fragment with such a tag of intensity 6 or more, and for the mood
    "frustrated", whose opposites are no [EmotionType], there is none. *)
Theorem contrast_on_typed_tags
    (currentMood : string) (fragments : list VideoFragment) :
  typedTags fragments ->
  (forall m, In m (findContrastLearning currentMood fragments) ->
     exists f tag,
       In f fragments /\ fragment_id f = rec_fragmentId m
       /\ In tag (tags f)
       /\ In (currentMood, emotion tag) reachableOpposites
       /\ 6 <= intensity tag)
  /\ (currentMood = "frustrated" -> findContrastLearning currentMood fragments = []).
Proof.
  intros Ht.
  assert (Hall : forall m, In m (findContrastLearning currentMood fragments) ->
     exists f tag,
       In f fragments /\ fragment_id f = rec_fragmentId m
       /\ In tag (tags f)
       /\ In (currentMood, emotion tag) reachableOpposites
       /\ 6 <= intensity tag).
  { intros m Hm. unfold findContrastLearning in Hm.
    destruct (emotionOpposites !! currentMood) as [opposites|] eqn:Hopp;
      [|contradiction].
    change (default [] (Some opposites)) with opposites in Hm.
    destruct (length opposites =? 0)%nat; [contradiction|].
    apply in_map_iff in Hm as (f & <- & Hf).
    apply filter_In in Hf as [Hf Hcond]. apply andb_true_iff in Hcond as [Htag _].
    apply existsb_exists in Htag as (tag & Htag & Hcond).
    apply andb_true_iff in Hcond as [Hinc Hint].
    apply includes_In in Hinc. apply ge_true in Hint.
    exists f, tag. split; [exact Hf|]. split; [reflexivity|]. split; [exact Htag|].
    split; [|exact Hint].
    pose proof (Ht f tag Hf Htag) as Hty.
    remember (emotion tag) as e eqn:He. clear He.
    unfold emotionOpposites in Hopp.
    apply elem_of_list_to_map_2, list_elem_of_In in Hopp.
    cbn in Hopp.
    repeat (destruct Hopp as [Hopp|Hopp];
            [injection Hopp as <- <-; cbn in Hinc;
             repeat (destruct Hinc as [Hinc|Hinc];
                     [subst e; first [ now (cbn; tauto)
                                     | exfalso; cbn in Hty;
                                       repeat (destruct Hty as [Hty|Hty];
                                               [discriminate|]); exact Hty ]|]);
             contradiction|]).
    contradiction. }
  split; [exact Hall|].
  intros ->.
  destruct (findContrastLearning "frustrated" fragments) as [|m l] eqn:E;
    [reflexivity|].
  destruct (Hall m (or_introl eq_refl)) as (f & tag & _ & _ & _ & Hin & _).
  exfalso. cbn in Hin.
  repeat (destruct Hin as [Hin|Hin]; [discriminate|]). exact Hin.
Qed.

Lemma contrast_on_typed_tags_witness :
  exists m,
    findContrastLearning "anxious" [MoreEngineSamples.calmHelped] = [m]
    /\ exists f tag,
         In f [MoreEngineSamples.calmHelped] /\ fragment_id f = rec_fragmentId m
         /\ In tag (tags f)
         /\ In ("anxious", emotion tag) reachableOpposites
         /\ 6 <= intensity tag.
Proof.
  destruct (findContrastLearning "anxious" [MoreEngineSamples.calmHelped])
    as [|m l] eqn:Hrun; [vm_compute in Hrun; discriminate|].
  destruct l; [|vm_compute in Hrun; discriminate].
  exists m. split; [reflexivity|].
  refine (proj1 (contrast_on_typed_tags "anxious" [MoreEngineSamples.calmHelped] _)
            m _).
  - intros f tag [<-|[]] [<-|[]]. cbn. tauto.
  - rewrite Hrun. now left.
Defined.

(** With moods that are [MoodType] names, a list of recommendations never
    holds a mood match together with a contrast: the moods that have
    opposites are emotions, and no fragment has an emotion for its mood. *)
Theorem mood_match_excludes_contrast
    (host : Host) (c : Calls) (currentMood : string)
    (fragments : list VideoFragment) (patterns : list PatternInsight)
    (a b : RecommendationMatch) :
  typedMoods fragments ->
  In a (fst (generateRecommendations host currentMood fragments patterns c)) ->
  In b (fst (generateRecommendations host currentMood fragments patterns c)) ->
  rec_type a = mood_match ->
  rec_type b <> contrast_learning.
Proof.
  intros Ht Ha Hb Hta Htb.
  apply recommendation_source in Ha as (f & Hf & _ & _ & Ha).
  apply recommendation_source in Hb as (g & _ & _ & _ & Hb).
  destruct Ha as [[_ Hmood]|[[E _]|[[E _]|[E _]]]]; try congruence.
  destruct Hb as [[E _]|[[E _]|[(_ & _ & opposites & Hopp & _)|[E _]]]];
    try congruence.
  pose proof (Ht f Hf) as Hty. rewrite Hmood in Hty. clear Hmood. cbn in Hty.
  repeat (destruct Hty as [<-|Hty]; [vm_compute in Hopp; discriminate|]).
  exact Hty.
Qed.

Lemma mood_match_excludes_contrast_witness :
  Forall (fun b => rec_type b <> contrast_learning)
    (fst (generateRecommendations (EngineSamples.hostAt 0) "reflective"
            [EngineSamples.fromTheFuture] [] EngineSamples.start)).
Proof.
  apply List.Forall_forall. intros b Hb.
  destruct (fst (generateRecommendations (EngineSamples.hostAt 0) "reflective"
                   [EngineSamples.fromTheFuture] [] EngineSamples.start))
    as [|a l] eqn:Hrun; [destruct Hb|].
  apply (mood_match_excludes_contrast (EngineSamples.hostAt 0) EngineSamples.start
           "reflective" [EngineSamples.fromTheFuture] [] a b).
  - intros f [<-|[]]. cbn. tauto.
  - rewrite Hrun. now left.
  - rewrite Hrun. exact Hb.
  - vm_compute in Hrun. injection Hrun as <- _. reflexivity.
Defined.

(** *** The reflection screen *)

Lemma StronglySorted_cut {A} (R : A -> A -> Prop) (n : nat) (l : list A) (a b : A) :
  StronglySorted R l -> In a (firstn n l) -> In b (skipn n l) -> R a b.
Proof.
  intros H. revert n. induction H as [|x l Hs IH Hx]; intros [|n]; cbn;
    try tauto.
  intros [->|Ha] Hb.
  - apply (proj1 (List.Forall_forall _ _) Hx). eapply In_skipn_In, Hb.
  - eapply IH; eauto.
Qed.

(** The insights shown on the reflection screen are at most three insights
    of confidence above 0.6, newest first; an insight of confidence above
    0.6 is left out only when three are shown, none of them older than it. *)
Theorem getRecentInsights_newest_three (patterns : list PatternInsight) :
  let shown := Interface.getRecentInsights patterns in
  (length shown <= 3)%nat
  /\ (forall p, In p shown -> In p patterns /\ 0.6 < insight_confidence p)
  /\ StronglySorted newerFirst shown
  /\ (forall q, In q patterns -> 0.6 < insight_confidence q -> ~ In q shown ->
        length shown = 3%nat
        /\ forall p, In p shown -> insight_timestamp q <= insight_timestamp p).
Proof.
  cbv zeta. unfold Interface.getRecentInsights, slice.
  change (3 - 0)%nat with 3%nat. rewrite skipn_O.
  set (cmp := fun a b : PatternInsight => insight_timestamp b - insight_timestamp a).
  set (kept := List.filter (fun pattern => gt (insight_confidence pattern) 0.6)
                 patterns).
  assert (Hsorted : StronglySorted newerFirst (sort cmp kept)).
  { apply StronglySorted_weaken with (R := ordered cmp).
    - unfold ordered, cmp, newerFirst. intros x y H. lra.
    - apply sort_sorted; unfold cmp; intros; lra. }
  split; [apply firstn_le_length|].
  split.
  { intros p Hp. apply In_firstn_In, In_sort in Hp.
    apply filter_In in Hp as [Hp Hc]. apply gt_true in Hc. auto. }
  split; [now apply StronglySorted_firstn|].
  intros q Hq Hc Hout.
  assert (Hin : In q (sort cmp kept)).
  { apply In_sort. apply filter_In. split; [exact Hq|]. now apply gt_true. }
  rewrite <- (firstn_skipn 3 (sort cmp kept)) in Hin.
  apply in_app_or in Hin as [Hin|Hin]; [contradiction|].
  split.
  - rewrite length_firstn. pose proof (length_skipn 3 (sort cmp kept)) as Hl.
    destruct (skipn 3 (sort cmp kept)); [destruct Hin|]. cbn [length] in Hl. lia.
  - intros p Hp. exact (StronglySorted_cut newerFirst 3 _ p q Hsorted Hp Hin).
Qed.

End EngineMore.

(** * Properties of the controller *)

Module ControllerFacts.

Import Store StoreSpec StoreMoreSpec StoreFacts StoreMore ControllerSpec.

(** Projections of a world built by an action. *)
Ltac simpl_world :=
  cbn [Controller.state Controller.manager Controller.calls
       Controller.isRecording Controller.currentFragment
       Controller.selectedFragment Controller.currentSession
       Controller.fragments Controller.patterns Controller.recommendations
       Controller.currentView Controller.isLoading Controller.error
       Controller.begin Controller.failed
       Controller.set_isRecording Controller.set_currentFragment
       Controller.set_selectedFragment Controller.set_currentSession
       Controller.set_fragments Controller.set_patterns
       Controller.set_recommendations Controller.set_currentView
       Controller.set_isLoading Controller.set_error
       Manager.opened Manager.disk Manager.fragmentStores Manager.sessions
       Manager.patterns Manager.with_fragmentStores Manager.with_sessions
       Manager.with_patterns fst snd].

(** *** Lists *)

Lemma findIndex_split {A} (p : A -> bool) (xs : list A) (i : nat) (x : A) :
  Controller.findIndex p xs = Some (i, x) ->
  exists l1 l2, xs = l1 ++ x :: l2 /\ length l1 = i /\ p x = true
                /\ (forall y, In y l1 -> p y = false).
Proof.
  revert i. induction xs as [|y xs IH]; intros i H; [discriminate|].
  cbn in H. destruct (p y) eqn:Hy.
  - injection H as <- <-. exists [], xs. repeat split; auto. intros ? [].
  - destruct (Controller.findIndex p xs) as [[j z]|] eqn:Hf; [|discriminate].
    injection H as <- <-.
    destruct (IH j eq_refl) as (l1 & l2 & -> & Hl & Hp & Hn).
    exists (y :: l1), l2. cbn. repeat split; auto.
    intros y' [<-|Hy']; auto.
Qed.

Lemma findIndex_none {A} (p : A -> bool) (xs : list A) :
  Controller.findIndex p xs = None <-> forall y, In y xs -> p y = false.
Proof.
  induction xs as [|y xs IH]; cbn; [split; [intros _ ? []|reflexivity]|].
  destruct (p y) eqn:Hy.
  - split; [discriminate|]. intros H. rewrite (H y) in Hy by now left. discriminate.
  - destruct (Controller.findIndex p xs) as [[j z]|].
    + split; [discriminate|]. intros H. exfalso.
      assert (E : Some (j, z) = None) by (apply (proj2 IH); intros; apply H; now right).
      discriminate.
    + split; [|reflexivity]. intros _ y' [<-|Hy']; [exact Hy|].
      now apply (proj1 IH).
Qed.

Lemma mapFrom_replace {A} (n : nat) (u : A) (l1 l2 : list A) (x : A) :
  Controller.mapFrom n (fun f i => if (i =? n + length l1)%nat then u else f)
    (l1 ++ x :: l2)
  = l1 ++ u :: l2.
Proof.
  revert n. induction l1 as [|y l1 IH]; intros n; cbn [app length Controller.mapFrom].
  - rewrite Nat.add_0_r, Nat.eqb_refl. f_equal.
    assert (H : forall m l, (n < m)%nat ->
              Controller.mapFrom m (fun (f : A) i => if (i =? n)%nat then u else f) l = l).
    { intros m l. revert m. induction l as [|z l IHl]; intros m Hm; [reflexivity|].
      cbn. destruct (Nat.eqb_spec m n); [lia|]. f_equal. apply IHl. lia. }
    apply H. lia.
  - destruct (Nat.eqb_spec n (n + S (length l1))); [lia|]. f_equal.
    replace (n + S (length l1))%nat with (S n + length l1)%nat by lia.
    apply IH.
Qed.

Lemma mapIndexed_replace {A} (u : A) (l1 l2 : list A) (x : A) :
  Controller.mapIndexed (fun f i => if (i =? length l1)%nat then u else f)
    (l1 ++ x :: l2)
  = l1 ++ u :: l2.
Proof. exact (mapFrom_replace 0 u l1 l2 x). Qed.

Lemma NoDup_app_disjoint {A} (l1 l2 : list A) (a : A) :
  List.NoDup (l1 ++ l2) -> In a l1 -> In a l2 -> False.
Proof.
  induction l1 as [|x l1 IH]; intros Hnd H1 H2; [destruct H1|].
  cbn in Hnd. apply List.NoDup_cons_iff in Hnd as [Hx Hnd].
  destruct H1 as [->|H1]; [apply Hx, in_or_app; now right|auto].
Qed.

Lemma flat_map_middle {A B} (f : A -> list B) (l1 l2 : list A) (x : A) :
  Permutation (flat_map f (l1 ++ x :: l2)) (f x ++ flat_map f (l1 ++ l2)).
Proof.
  rewrite !flat_map_app. cbn [flat_map]. apply Permutation_app_swap_app.
Qed.

(** In a list whose elements have disjoint keys, an element elsewhere than
    [x] shares no key with [x]. *)
Lemma NoDup_flat_map_elsewhere {A B} (f : A -> list B) (l1 l2 : list A)
    (x g : A) (k : B) :
  List.NoDup (flat_map f (l1 ++ x :: l2)) ->
  In g (l1 ++ l2) -> In k (f g) -> In k (f x) -> False.
Proof.
  intros Hnd Hg Hkg Hkx.
  apply (Permutation_NoDup (flat_map_middle f l1 l2 x)) in Hnd.
  apply (NoDup_app_disjoint _ _ k Hnd Hkx). apply in_flat_map. eauto.
Qed.

Lemma NoDup_flat_map_same {A B} (f : A -> list B) (l : list A) (x y : A) (k : B) :
  List.NoDup (flat_map f l) -> In x l -> In y l -> In k (f x) -> In k (f y) -> x = y.
Proof.
  intros Hnd Hx Hy Hkx Hky.
  apply in_split in Hx as (l1 & l2 & ->).
  apply in_app_or in Hy as [Hy|[Hy|Hy]]; [|exact Hy|]; exfalso;
    eapply (NoDup_flat_map_elsewhere f l1 l2 x y k); eauto;
    apply in_or_app; auto.
Qed.

Lemma NoDup_flat_map_In {A B} (f : A -> list B) (l : list A) (x : A) :
  List.NoDup (flat_map f l) -> In x l -> List.NoDup (f x).
Proof.
  intros Hnd Hx. apply in_split in Hx as (l1 & l2 & ->).
  apply (Permutation_NoDup (flat_map_middle f l1 l2 x)) in Hnd.
  eapply List.NoDup_app_remove_r, Hnd.
Qed.

Lemma NoDup_consistent (l : list (string * option Blob)) :
  List.NoDup (List.map fst l) -> consistent l.
Proof.
  induction l as [|[k0 b0] l IH]; intros Hnd k b b' H1 H2; [destruct H1|].
  cbn in Hnd. apply List.NoDup_cons_iff in Hnd as [Hk Hnd].
  destruct H1 as [E1|H1], H2 as [E2|H2].
  - congruence.
  - exfalso. apply Hk. injection E1 as -> _. now apply (in_map fst _ (k, b')).
  - exfalso. apply Hk. injection E2 as -> _. now apply (in_map fst _ (k, b)).
  - eapply IH; eauto.
Qed.

(** *** What the store holds after a save *)

Lemma mirrored_iff (d : Database) (f : VideoFragment) :
  mirrored d f
  <-> exists r, fragments d !! fragment_id f = Some r
                /\ restored (videoBlobs d) r = f.
Proof.
  unfold mirrored.
  destruct (getFragment_run noFaults (fragment_id f) d) as [H|(q & Hq & _)];
    [|discriminate].
  rewrite H. cbn [fst].
  destruct (fragments d !! fragment_id f) as [r|];
    cbn [fmap option_fmap option_map].
  - split; [intros [= E]; eauto|]. intros (r' & [= <-] & E). now rewrite E.
  - split; [discriminate|]. intros (r' & E & _). discriminate.
Qed.

(** A fragment [g] that the store mirrors is still mirrored after the save
    of [u], failed or not, when the payloads of [u] under the ids of [g] are
    those of [g]; after a save that succeeded, [g] must not be [u]'s id. *)
Lemma save_keeps_mirrored (fails : Request -> bool) (u g : VideoFragment)
    (d d' : Database) r :
  saveFragment fails u (Some d) = (r, Some d') ->
  mirrored d g ->
  (forall k b, In k (payloadIds g) -> In (k, b) (payloads u) ->
               lookupBlob (videoBlobs d) k = b) ->
  match r with
  | Ok _ => fragment_id g <> fragment_id u
  | Err _ => True
  end ->
  mirrored d' g.
Proof.
  intros Hrun Hm Hsame Hid.
  apply mirrored_iff in Hm as (rec & Hrec & Hres). apply mirrored_iff.
  assert (H : exists l1 l2,
             payloads u = l1 ++ l2
             /\ videoBlobs d' = writeBlobs l1 (videoBlobs d)
             /\ fragments d' !! fragment_id g = fragments d !! fragment_id g).
  { destruct r as [[]|e].
    - apply saveFragment_ok_iff in Hrun as (_ & _ & [= ->]).
      exists (payloads u), []. rewrite app_nil_r. cbn.
      repeat split. apply lookup_insert_ne. congruence.
    - apply saveFragment_prefix in Hrun as (l1 & l2 & Hp & [= ->]).
      exists l1, l2. cbn. auto. }
  destruct H as (l1 & l2 & Hp & Hb & Hf).
  exists rec. split; [congruence|].
  rewrite Hb, <- Hres. apply restored_ext_lookup. intros k Hk.
  apply lookupBlob_writeBlobs_same. intros b Hin.
  apply Hsame.
  - rewrite <- Hres, payloadIds_restored. exact Hk.
  - rewrite Hp. apply in_or_app. now left.
Qed.

Lemma save_mirrors_saved (fails : Request -> bool) (u : VideoFragment)
    (d d' : Database) :
  saveFragment fails u (Some d) = (Ok tt, Some d') ->
  List.NoDup (payloadIds u) ->
  mirrored d' u.
Proof.
  intros Hrun Hnd. apply saveFragment_ok_iff in Hrun as (_ & _ & [= ->]).
  apply mirrored_iff. exists (fragmentToSave u). cbn. split.
  - apply lookup_insert_eq.
  - apply restored_fragmentToSave. now apply NoDup_consistent.
Qed.

(** *** The manager *)

Lemma Manager_saveFragment_run (fails : Manager.Request -> bool)
    (f : VideoFragment) (m : Manager.State) :
  Manager.opened m = true ->
  exists r d',
    saveFragment (Manager.fragmentFaults fails) f
      (Some (Manager.fragmentStores (Manager.disk m))) = (r, Some d')
    /\ Manager.saveFragment fails f m
       = (match r with
          | Ok a => Manager.Resolved a
          | Err e => Manager.Rejected (Manager.failure e)
          end, Manager.with_fragmentStores d' m).
Proof.
  intros H. unfold Manager.saveFragment, Manager.onFragments, Manager.handle.
  rewrite H.
  destruct (saveFragment (Manager.fragmentFaults fails) f
              (Some (Manager.fragmentStores (Manager.disk m)))) as [r st'] eqn:E.
  pose proof (saveFragment_run _ _ _ _ _ E) as (d' & -> & _).
  exists r, d'. split; reflexivity.
Qed.

(** *** Edits *)

Section Edits.

Variable host : Engine.Host.
Variable randomBase36 : nat -> string.
Variable fails : Manager.Request -> bool.
Variable requestError : Manager.Request -> option string.
Variable nullDereference : string.

(** The four edit actions are one skeleton: find the fragment, build its
    new version, save it, replace it in memory. *)
Lemma edit_unfold (e : Edit) (fragmentId : string) (w : Controller.World) :
  edit host randomBase36 fails requestError nullDereference e fragmentId w
  = let s0 := Controller.begin (Controller.state w) in
    match Controller.findIndex (fun f => String.eqb (fragment_id f) fragmentId)
            (Controller.fragments s0) with
    | None =>
        {| Controller.state := Controller.failed "Fragment not found" s0;
           Controller.manager := Controller.manager w;
           Controller.calls := Controller.calls w |}
    | Some (fragmentIndex, found) =>
        let (updated, c2) :=
          edited host randomBase36 e fragmentId found (Controller.calls w) in
        match Manager.saveFragment fails updated (Controller.manager w) with
        | (Manager.Rejected err, m1) =>
            {| Controller.state :=
                 Controller.failed
                   (Controller.message requestError nullDereference err (fallback e))
                   s0;
               Controller.manager := m1; Controller.calls := c2 |}
        | (Manager.Resolved _, m1) =>
            {| Controller.state :=
                 Controller.set_isLoading false
                   (Controller.set_fragments
                      (Controller.mapIndexed
                         (fun f i => if (i =? fragmentIndex)%nat then updated else f)
                         (Controller.fragments s0)) s0);
               Controller.manager := m1; Controller.calls := c2 |}
        end
    end.
Proof. destruct e; reflexivity. Qed.

(** An edit keeps the id and the payloads of the fragment, and adds at most
    one payload, under the id it draws. *)
Lemma edited_payloads (e : Edit) (fragmentId : string) (found : VideoFragment)
    (w : Controller.World) :
  let u := fst (edited host randomBase36 e fragmentId found (Controller.calls w)) in
  fragment_id u = fragment_id found
  /\ (forall k b, In (k, b) (payloads u) ->
        In (k, b) (payloads found)
        \/ newPayloadId host randomBase36 e w = Some k)
  /\ Permutation (payloadIds u)
       (payloadIds found ++ option_list (newPayloadId host randomBase36 e w)).
Proof.
  destruct e; cbv zeta; unfold edited, newPayloadId, payloadIds, payloads;
    cbv [Controller.freshId Engine.andThen Engine.now Controller.randomSuffix
         Engine.pure];
    cbn [fst snd option_list Controller.fragment_with_tags
         Controller.fragment_with_ratings Controller.fragment_with_variations
         Controller.fragment_with_responses fragment_id blob variations responses].
  - rewrite app_nil_r. repeat split; auto.
  - rewrite app_nil_r. repeat split; auto.
  - split; [reflexivity|]. split.
    + intros k b [H|H]; [left; now left|].
      rewrite List.map_app in H. cbn [List.map] in H.
      apply in_app_or in H as [H|H].
      * apply in_app_or in H as [H|[[= <- <-]|[]]].
        -- left. right. apply in_or_app. now left.
        -- right. reflexivity.
      * left. right. apply in_or_app. now right.
    + rewrite !List.map_app. cbn [List.map fst]. rewrite !List.map_app.
      cbn [List.map fst variation_id variation_blob].
      rewrite <- !app_comm_cons. apply perm_skip.
      rewrite <- !app_assoc. apply Permutation_app_head.
      apply Permutation_app_comm.
  - split; [reflexivity|]. split.
    + intros k b [H|H]; [left; now left|].
      rewrite List.map_app in H. cbn [List.map] in H.
      apply in_app_or in H as [H|H].
      * left. right. apply in_or_app. now left.
      * apply in_app_or in H as [H|[[= <- <-]|[]]].
        -- left. right. apply in_or_app. now right.
        -- right. reflexivity.
    + rewrite !List.map_app. cbn [List.map fst]. rewrite !List.map_app.
      cbn [List.map fst response_id response_blob].
      rewrite <- !app_comm_cons. apply perm_skip.
      rewrite <- !app_assoc. reflexivity.
Qed.

(** The memory of a world mirrors the store after an edit as it did before,
    whatever requests fail, when no payload id is used twice in memory and
    the id drawn for a new payload is not in use there: each fragment in
    memory is what the store returns for its id. *)
Theorem edits_keep_memory_in_sync
    (e : Edit) (fragmentId : string) (w : Controller.World) :
  inSync w ->
  distinctPayloads (memory w) ->
  (forall id, newPayloadId host randomBase36 e w = Some id ->
              ~ In id (flat_map payloadIds (memory w))) ->
  let w' := edit host randomBase36 fails requestError nullDereference e fragmentId w in
  inSync w' /\ distinctPayloads (memory w').
Proof.
  intros [Hopen Hmem] Hnd Hfresh. cbv zeta. rewrite edit_unfold. cbv zeta.
  unfold inSync, memory, stores in *.
  change (Controller.fragments (Controller.begin (Controller.state w)))
    with (Controller.fragments (Controller.state w)).
  destruct (Controller.findIndex _ _) as [[fragmentIndex found]|] eqn:Hfind.
  2:{ cbn. auto. }
  apply findIndex_split in Hfind as (l1 & l2 & Hsplit & Hlen & _ & _).
  pose proof (edited_payloads e fragmentId found w) as Hu. cbv zeta in Hu.
  destruct (edited host randomBase36 e fragmentId found (Controller.calls w))
    as [updated c2].
  cbn [fst] in Hu. destruct Hu as (Hid & Hpay & Hperm).
  destruct (Manager_saveFragment_run fails updated (Controller.manager w) Hopen)
    as (r & d' & Hrun & ->).
  assert (Hfound : In found (Controller.fragments (Controller.state w)))
    by (rewrite Hsplit; apply in_or_app; right; now left).
  rewrite List.Forall_forall in Hmem.
  (* what the save writes under the ids of a fragment in memory *)
  assert (Hsame : forall g, In g (Controller.fragments (Controller.state w)) ->
            forall k b, In k (payloadIds g) -> In (k, b) (payloads updated) ->
              lookupBlob
                (videoBlobs (Manager.fragmentStores
                               (Manager.disk (Controller.manager w)))) k = b).
  { intros g Hg k b Hk Hin. destruct (Hpay k b Hin) as [Hold|Hnew].
    - assert (g = found).
      { apply (NoDup_flat_map_same payloadIds _ g found k Hnd Hg Hfound Hk).
        apply (in_map fst _ _ Hold). }
      subst g. pose proof (Hmem found Hfound) as Hm.
      apply mirrored_iff in Hm as (rec & _ & Hres).
      apply (lookupBlob_payloads _ rec). now rewrite Hres.
    - exfalso. apply (Hfresh k Hnew). apply in_flat_map. eauto. }
  destruct r as [[]|err]; cbn.
  - (* saved: the new version replaces the old one in memory *)
    rewrite Hsplit, <- Hlen, (mapIndexed_replace updated l1 l2 found).
    assert (Hnew : forall k, In k (payloadIds updated) ->
              In k (payloadIds found)
              \/ newPayloadId host randomBase36 e w = Some k).
    { intros k Hk. apply (Permutation_in _ Hperm) in Hk.
      apply in_app_or in Hk as [Hk|Hk]; [now left|right].
      destruct (newPayloadId host randomBase36 e w); [|destruct Hk].
      destruct Hk as [<-|[]]. reflexivity. }
    assert (Hndu : List.NoDup (payloadIds updated)).
    { apply (Permutation_NoDup (Permutation_sym Hperm)).
      apply List.NoDup_app.
      - apply (NoDup_flat_map_In payloadIds _ found Hnd Hfound).
      - destruct (newPayloadId host randomBase36 e w);
          [repeat constructor; intros []|constructor].
      - intros k Hk Hk'.
        destruct (newPayloadId host randomBase36 e w) as [id|] eqn:E;
          [|destruct Hk'].
        destruct Hk' as [<-|[]]. apply (Hfresh id eq_refl).
        apply in_flat_map. eauto. }
    split; [split; [exact Hopen|]|].
    + apply List.Forall_forall. intros g Hg.
      assert (Hg' : g = updated \/ In g (l1 ++ l2)).
      { apply in_app_or in Hg as [Hg|[Hg|Hg]]; auto;
          right; apply in_or_app; auto. }
      destruct Hg' as [->|Hg'].
      * apply (save_mirrors_saved _ _ _ _ Hrun Hndu).
      * assert (Hgm : In g (Controller.fragments (Controller.state w))).
        { rewrite Hsplit. apply in_app_or in Hg' as [?|?]; apply in_or_app; auto.
          right; now right. }
        apply (save_keeps_mirrored _ updated g _ _ _ Hrun (Hmem g Hgm) (Hsame g Hgm)).
        rewrite Hid. intros Heq.
        rewrite Hsplit in Hnd.
        apply (NoDup_flat_map_elsewhere payloadIds l1 l2 found g (fragment_id g) Hnd Hg').
        -- rewrite payloadIds_eq. now left.
        -- rewrite Heq, payloadIds_eq. now left.
    + unfold distinctPayloads in *. rewrite Hsplit in Hnd, Hfresh.
      apply (Permutation_NoDup (Permutation_sym (flat_map_middle payloadIds l1 l2 updated))).
      apply (Permutation_NoDup (flat_map_middle payloadIds l1 l2 found)) in Hnd.
      apply List.NoDup_app.
      * exact Hndu.
      * eapply List.NoDup_app_remove_l, Hnd.
      * intros k Hk Hk'. destruct (Hnew k Hk) as [Hold|Hid'].
        -- exact (NoDup_app_disjoint _ _ k Hnd Hold Hk').
        -- apply (Hfresh k Hid').
           apply (Permutation_in _ (Permutation_sym (flat_map_middle payloadIds l1 l2 found))).
           apply in_or_app. now right.
  - (* not saved: memory is as it was, the store holds what it held *)
    split; [split; [exact Hopen|]|exact Hnd].
    apply List.Forall_forall. intros g Hg.
    exact (save_keeps_mirrored _ updated g _ _ _ Hrun (Hmem g Hg) (Hsame g Hg) I).
Qed.

End Edits.

Lemma edits_keep_memory_in_sync_witness :
  let w' := edit ControllerSamples.host ControllerSamples.randomBase36
              ControllerSamples.failsOnMetadata ControllerSamples.noMessage "null"
              (Vary warm Samples.blobB) "a" ControllerSamples.holdingPlain in
  inSync w' /\ distinctPayloads (memory w').
Proof.
  apply (edits_keep_memory_in_sync ControllerSamples.host
           ControllerSamples.randomBase36 ControllerSamples.failsOnMetadata
           ControllerSamples.noMessage "null" (Vary warm Samples.blobB) "a"
           ControllerSamples.holdingPlain).
  - split; [reflexivity|]. constructor; [vm_compute; reflexivity|constructor].
  - unfold distinctPayloads. cbn.
    repeat (constructor; [cbn; intuition discriminate|]). constructor.
  - intros id [= <-]. cbn. intuition discriminate.
Defined.

(** *** Saving and loading *)

Lemma saveSession_fragmentStores (fails : Manager.Request -> bool)
    (session : Manager.ReflectionSession) (m m' : Manager.State) r :
  Manager.saveSession fails session m = (r, m') ->
  Manager.opened m' = Manager.opened m
  /\ Manager.fragmentStores (Manager.disk m') = Manager.fragmentStores (Manager.disk m).
Proof.
  unfold Manager.saveSession.
  destruct (negb (Manager.opened m)); [intros [= <- <-]; auto|].
  destruct (fails _); intros [= <- <-]; auto.
Qed.

(** The fragment the recorder hands over is listed exactly when its own
    save succeeded, whether or not the session could then be updated; either
    way memory mirrors the store as before, when the payload ids of the
    fragment are distinct and new. *)
Theorem saveFragment_keeps_memory_in_sync
    (fails : Manager.Request -> bool)
    (requestError : Manager.Request -> option string) (nullDereference : string)
    (fragment : VideoFragment) (w : Controller.World) :
  inSync w ->
  distinctPayloads (memory w) ->
  List.NoDup (payloadIds fragment) ->
  (forall k, In k (payloadIds fragment) -> ~ In k (flat_map payloadIds (memory w))) ->
  let w' := Controller.saveFragment fails requestError nullDereference fragment w in
  inSync w' /\ distinctPayloads (memory w')
  /\ match fst (Manager.saveFragment fails fragment (Controller.manager w)) with
     | Manager.Resolved _ =>
         memory w' = memory w ++ [fragment]
         /\ Controller.currentFragment (Controller.state w') = None
     | Manager.Rejected _ =>
         memory w' = memory w
         /\ Controller.error (Controller.state w') <> None
     end.
Proof.
  intros [Hopen Hmem] Hnd Hndf Hfresh. cbv zeta.
  unfold Controller.saveFragment, inSync, memory, stores in *.
  destruct (Manager_saveFragment_run fails fragment (Controller.manager w) Hopen)
    as (r & d' & Hrun & ->).
  rewrite List.Forall_forall in Hmem.
  assert (Hkeep : forall g, In g (Controller.fragments (Controller.state w)) ->
            match r with Ok _ => fragment_id g <> fragment_id fragment
                    | Err _ => True end ->
            mirrored d' g).
  { intros g Hg. apply (save_keeps_mirrored _ fragment g _ _ _ Hrun (Hmem g Hg)).
    intros k b Hk Hin. exfalso. apply (Hfresh k).
    - apply (in_map fst _ _ Hin).
    - apply in_flat_map. eauto. }
  destruct r as [[]|err]; cbn [fst].
  2:{ cbn. split; [split; [exact Hopen|]|split; [exact Hnd|split; [reflexivity|discriminate]]].
      apply List.Forall_forall. intros g Hg. now apply Hkeep. }
  assert (Hall : Forall (mirrored d')
                   (Controller.fragments (Controller.state w) ++ [fragment])).
  { apply List.Forall_app. split.
    - apply List.Forall_forall. intros g Hg. apply (Hkeep g Hg).
      intros Heq. apply (Hfresh (fragment_id g)).
      + rewrite Heq, payloadIds_eq. now left.
      + apply in_flat_map. exists g. split; [exact Hg|].
        rewrite payloadIds_eq. now left.
    - constructor; [|constructor]. exact (save_mirrors_saved _ _ _ _ Hrun Hndf). }
  assert (Hdis : distinctPayloads
                   (Controller.fragments (Controller.state w) ++ [fragment])).
  { unfold distinctPayloads. rewrite flat_map_app. cbn [flat_map]. rewrite app_nil_r.
    apply List.NoDup_app; [exact Hnd|exact Hndf|].
    intros k Hk Hk'. exact (Hfresh k Hk' Hk). }
  cbn [Controller.currentSession Controller.set_isLoading
       Controller.set_currentFragment Controller.set_fragments Controller.begin
       Controller.set_error].
  destruct (Controller.currentSession (Controller.state w)) as [session|].
  2:{ cbn. auto. }
  match goal with |- context [Manager.saveSession fails ?s ?m] =>
    destruct (Manager.saveSession fails s m) as [r2 m2] eqn:Hs end.
  apply saveSession_fragmentStores in Hs as [Ho Hst]. cbn in Ho, Hst.
  destruct r2 as [[]|err]; cbn; rewrite Ho, Hst; auto.
Qed.

Lemma saveFragment_keeps_memory_in_sync_witness :
  let w' := Controller.saveFragment ControllerSpec.noFault
              ControllerSamples.noMessage "null" Samples.version1
              (Controller.loadFragments ControllerSpec.noFault
                 ControllerSamples.noMessage "null"
                 (Controller.initialWorld ControllerSamples.emptyDisk)) in
  inSync w' /\ memory w' = [Samples.version1].
Proof.
  cbv zeta.
  destruct (saveFragment_keeps_memory_in_sync ControllerSpec.noFault
              ControllerSamples.noMessage "null" Samples.version1
              (Controller.loadFragments ControllerSpec.noFault
                 ControllerSamples.noMessage "null"
                 (Controller.initialWorld ControllerSamples.emptyDisk)))
    as (Hsync & _ & Hmem).
  - split; [reflexivity|constructor].
  - constructor.
  - cbn. repeat (constructor; [cbn; intuition discriminate|]). constructor.
  - intros k _ [].
  - split; [exact Hsync|]. exact (proj1 Hmem).
Defined.

(** Loading opens the database and, when it succeeds, replaces memory by
    what the store holds, record by record in key order, so that memory
    mirrors the store; when it fails, memory is as it was.  The store is
    never changed.  The records are assumed to sit under their own ids, as
    [saveFragment] leaves them. *)
Theorem loadFragments_brings_memory_in_sync
    (fails : Manager.Request -> bool)
    (requestError : Manager.Request -> option string) (nullDereference : string)
    (w : Controller.World) :
  keyed (stores w) ->
  let w' := Controller.loadFragments fails requestError nullDereference w in
  stores w' = stores w
  /\ match Controller.error (Controller.state w') with
     | None =>
         inSync w'
         /\ memory w'
            = List.map (restored (videoBlobs (stores w)))
                (recordsByKey (fragments (stores w)))
     | Some _ => memory w' = memory w
     end.
Proof.
  intros Hkey. cbv zeta.
  unfold Controller.loadFragments, Manager.init, inSync, memory, stores in *.
  destruct (fails Manager.Open); [cbn; auto|].
  unfold Manager.getAllFragments, Manager.onFragments, Manager.handle.
  cbn [Manager.opened Manager.disk].
  destruct (getAllFragments_run (Manager.fragmentFaults fails)
              (Manager.fragmentStores (Manager.disk (Controller.manager w))))
    as [H|(q & _ & H)]; rewrite H; cbn; [|auto].
  split; [reflexivity|]. split; [|reflexivity]. split; [reflexivity|].
  apply List.Forall_forall. intros g Hg.
  apply in_map_iff in Hg as (r & <- & Hr).
  apply In_recordsByKey_inv in Hr as (k & Hk).
  apply mirrored_iff. exists r. split; [|reflexivity].
  change (fragment_id (restored _ r)) with (fragment_id r).
  now rewrite (Hkey k r Hk).
Qed.

Lemma loadFragments_brings_memory_in_sync_witness :
  let w' := Controller.loadFragments ControllerSpec.noFault
              ControllerSamples.noMessage "null" ControllerSamples.beforeLoad in
  inSync w' /\ memory w' = [Samples.plain].
Proof.
  cbv zeta.
  destruct (loadFragments_brings_memory_in_sync ControllerSpec.noFault
              ControllerSamples.noMessage "null" ControllerSamples.beforeLoad)
    as (_ & H).
  - intros k r Hr.
    change (fragments (stores ControllerSamples.beforeLoad))
      with ({[ "a" := fragmentToSave Samples.plain ]} : gmap string VideoFragment)
      in Hr.
    apply lookup_singleton_Some in Hr as [<- <-]. reflexivity.
  - change (Controller.error (Controller.state
              (Controller.loadFragments ControllerSpec.noFault
                 ControllerSamples.noMessage "null" ControllerSamples.beforeLoad)))
      with (@None string) in H.
    destruct H as [Hsync Hmem]. split; [exact Hsync|].
    rewrite Hmem. vm_compute. reflexivity.
Defined.

(** *** Deleting *)

Lemma Manager_deleteFragment_run (fails : Manager.Request -> bool)
    (id : string) (m : Manager.State) :
  Manager.opened m = true ->
  exists r d',
    deleteFragment (Manager.fragmentFaults fails) id
      (Some (Manager.fragmentStores (Manager.disk m))) = (r, Some d')
    /\ Manager.deleteFragment fails id m
       = (match r with
          | Ok a => Manager.Resolved a
          | Err e => Manager.Rejected (Manager.failure e)
          end, Manager.with_fragmentStores d' m).
Proof.
  intros H. unfold Manager.deleteFragment, Manager.onFragments, Manager.handle.
  rewrite H.
  destruct (deleteFragment (Manager.fragmentFaults fails) id
              (Some (Manager.fragmentStores (Manager.disk m)))) as [r st'] eqn:E.
  pose proof (deleteFragment_run _ _ _ _ _ E) as (d' & -> & _).
  exists r, d'. split; reflexivity.
Qed.

Lemma NoDup_flat_map_filter {A B} (f : A -> list B) (p : A -> bool) (l : list A) :
  List.NoDup (flat_map f l) -> List.NoDup (flat_map f (List.filter p l)).
Proof.
  induction l as [|x l IH]; intros Hnd; [constructor|].
  cbn [flat_map] in Hnd. cbn [List.filter].
  pose proof (IH (List.NoDup_app_remove_l _ _ Hnd)) as Hrest.
  destruct (p x); [|exact Hrest]. cbn [flat_map].
  apply List.NoDup_app; [eapply List.NoDup_app_remove_r, Hnd|exact Hrest|].
  intros k Hk Hk'. apply (NoDup_app_disjoint _ _ k Hnd Hk).
  apply in_flat_map in Hk' as (y & Hy & Hky). apply filter_In in Hy as [Hy _].
  apply in_flat_map. eauto.
Qed.

(** Deletes only delete: a payload that is gone stays gone. *)
Lemma forEach_deleteVideoBlob_shrinks (fails : Request -> bool) {A}
    (key : A -> string) (xs : list A) (d : Database) r st' (k : string) :
  forEach (fun x => deleteVideoBlob fails (key x)) xs (Some d) = (r, st') ->
  videoBlobs d !! k = None ->
  exists d', st' = Some d' /\ fragments d' = fragments d
             /\ videoBlobs d' !! k = None.
Proof.
  revert d. induction xs as [|x xs IH]; intros d H Hk.
  - inversion H; subst. eauto.
  - change (forEach _ (x :: xs))
      with (bind (deleteVideoBlob fails (key x))
              (fun _ => forEach (fun x => deleteVideoBlob fails (key x)) xs)) in H.
    pose proof (request_run fails (DeleteBlob (key x))
      (fun d => (tt, {| fragments := fragments d;
                        videoBlobs := delete (key x) (videoBlobs d) |})) d) as Hq.
    fold (deleteVideoBlob fails (key x)) in Hq.
    destruct (fails (DeleteBlob (key x))).
    + rewrite (bind_Err _ _ _ _ _ Hq) in H. inversion H; subst. eauto.
    + rewrite (bind_Ok _ _ _ _ _ Hq) in H. cbn [fst snd] in H.
      apply IH in H as (d' & -> & Hfr & Hk'); [eauto|].
      cbn. destruct (decide (key x = k)) as [->|Hne].
      * apply lookup_delete_eq.
      * now rewrite lookup_delete_ne.
Qed.

(** Once the reads and the delete of the fragment's own payload have gone
    through, that payload is gone, whatever becomes of the rest. *)
Lemma deleteFragment_payload_gone (fails : Request -> bool) (id : string)
    (d d' : Database) (rec : VideoFragment) r :
  fragments d !! id = Some rec ->
  fails (GetFragment id) = false ->
  (forall k, In k (payloadIds rec) -> fails (GetBlob k) = false) ->
  fails (DeleteBlob id) = false ->
  deleteFragment fails id (Some d) = (r, Some d') ->
  videoBlobs d' !! id = None.
Proof.
  intros Hrec Hget Hblobs Hdel H. unfold deleteFragment in H.
  rewrite (bind_Ok _ _ (Some d) tt (Some d)) in H by reflexivity.
  destruct (getFragment_run fails id d) as [Hg|(q & Hq & Hwhich & _)].
  2:{ exfalso. destruct Hwhich as [->|(r0 & k & Hr0 & Hk & ->)]; [congruence|].
      rewrite Hrec in Hr0. injection Hr0 as <-. rewrite (Hblobs k Hk) in Hq.
      discriminate. }
  rewrite (bind_Ok _ _ _ _ _ Hg) in H. rewrite Hrec in H.
  cbn [fmap option_fmap option_map] in H.
  unfold deleteVideoBlob at 1 in H.
  match type of H with context [bind (request fails ?q ?run) _ (Some d)] =>
    pose proof (request_run fails q run d) as H1 end.
  rewrite Hdel in H1.
  rewrite (bind_Ok _ _ _ _ _ H1) in H. cbn [fst snd] in H. clear H1.
  match type of H with context [bind ?m _ (Some ?d1)] =>
    destruct (m (Some d1)) as [r2 st2] eqn:H2 end.
  apply (forEach_deleteVideoBlob_shrinks _ _ _ _ _ _ id) in H2 as H2';
    [|apply lookup_delete_eq].
  destruct H2' as (d2 & -> & _ & Hk2).
  destruct r2 as [[]|e2].
  2:{ rewrite (bind_Err _ _ _ _ _ H2) in H. now injection H as _ <-. }
  rewrite (bind_Ok _ _ _ _ _ H2) in H. clear H2.
  match type of H with context [bind ?m _ (Some d2)] =>
    destruct (m (Some d2)) as [r3 st3] eqn:H3 end.
  apply (forEach_deleteVideoBlob_shrinks _ _ _ _ _ _ id) in H3 as H3';
    [|exact Hk2].
  destruct H3' as (d3 & -> & _ & Hk3).
  destruct r3 as [[]|e3].
  2:{ rewrite (bind_Err _ _ _ _ _ H3) in H. now injection H as _ <-. }
  rewrite (bind_Ok _ _ _ _ _ H3) in H. clear H3.
  rewrite request_run in H.
  destruct (fails (DeleteFragment id)); injection H as _ <-; exact Hk3.
Qed.

(** Deleting a fragment held in memory, when it succeeds, removes it from
    memory and from the store, payloads included, never leaves it selected,
    and leaves the other fragments in memory, still mirrored by the store;
    when it fails, memory and selection are as they were. *)
Theorem deleteFragment_removes_everywhere
    (fails : Manager.Request -> bool)
    (requestError : Manager.Request -> option string) (nullDereference : string)
    (found : VideoFragment) (w : Controller.World) :
  inSync w ->
  distinctPayloads (memory w) ->
  In found (memory w) ->
  let w' := Controller.deleteFragment fails requestError nullDereference
              (fragment_id found) w in
  match Controller.error (Controller.state w') with
  | None =>
      inSync w' /\ distinctPayloads (memory w')
      /\ (forall g, In g (memory w')
                    <-> In g (memory w) /\ fragment_id g <> fragment_id found)
      /\ fst (getFragment noFaults (fragment_id found) (Some (stores w'))) = Ok None
      /\ (forall k, In k (payloadIds found) -> videoBlobs (stores w') !! k = None)
      /\ (forall selected,
            Controller.selectedFragment (Controller.state w') = Some selected ->
            fragment_id selected <> fragment_id found)
  | Some _ =>
      memory w' = memory w
      /\ Controller.selectedFragment (Controller.state w')
         = Controller.selectedFragment (Controller.state w)
  end.
Proof.
  intros [Hopen Hmem] Hnd Hfound. cbv zeta.
  unfold Controller.deleteFragment, inSync, memory, stores in *.
  destruct (Manager_deleteFragment_run fails (fragment_id found)
              (Controller.manager w) Hopen) as (r & d' & Hrun & ->).
  rewrite List.Forall_forall in Hmem.
  destruct r as [[]|err]; simpl_world; [|auto].
  pose proof (Hmem found Hfound) as Hm.
  apply mirrored_iff in Hm as (rec & Hrec & Hres).
  apply deleteFragment_run in Hrun as (d'' & [= <-] & Hrun).
  rewrite Hrec in Hrun. subst d'.
  assert (Hids : payloadIds found
                 = fragment_id found :: List.map variation_id (variations rec)
                   ++ List.map response_id (responses rec)).
  { rewrite <- Hres, payloadIds_restored, payloadIds_eq. reflexivity. }
  assert (Hin : forall g,
            In g (List.filter
                    (fun f => negb (String.eqb (fragment_id f) (fragment_id found)))
                    (Controller.fragments (Controller.state w)))
            <-> In g (Controller.fragments (Controller.state w))
                /\ fragment_id g <> fragment_id found).
  { intros g. rewrite filter_In, negb_true_iff. split; intros [Hg Hne]; split; auto.
    - intros E. rewrite E, String.eqb_refl in Hne. discriminate.
    - now apply String.eqb_neq. }
  split; [split; [exact Hopen|]|split; [|split; [exact Hin|split; [|split]]]].
  - apply List.Forall_forall. intros g Hg. apply Hin in Hg as [Hg Hne].
    pose proof (Hmem g Hg) as Hgm. apply mirrored_iff in Hgm as (rg & Hrg & Hresg).
    apply mirrored_iff. exists rg. cbn [afterDelete fragments videoBlobs]. split.
    + now rewrite lookup_delete_ne by congruence.
    + rewrite <- Hresg. apply restored_ext. intros k Hk.
      assert (Hout : ~ In k (payloadIds found)).
      { intros Hk'. apply Hne. f_equal.
        apply (NoDup_flat_map_same payloadIds _ g found k Hnd Hg Hfound); [|exact Hk'].
        rewrite <- Hresg, payloadIds_restored. exact Hk. }
      rewrite Hids in Hout. cbn [In] in Hout.
      rewrite !deleteBlobs_other
        by (intros ?; apply Hout; right; apply in_or_app; auto).
      apply lookup_delete_ne. tauto.
  - now apply NoDup_flat_map_filter.
  - destruct (getFragment_run noFaults (fragment_id found)
                (afterDelete (fragment_id found) rec
                   (Manager.fragmentStores (Manager.disk (Controller.manager w)))))
      as [H|(q & Hq & _)]; [|discriminate].
    rewrite H. cbn [fst afterDelete fragments]. now rewrite lookup_delete_eq.
  - intros k Hk. rewrite Hids in Hk. cbn [afterDelete videoBlobs].
    destruct Hk as [<-|Hk].
    + apply deleteBlobs_gone. right. apply deleteBlobs_gone. right.
      apply lookup_delete_eq.
    + apply in_app_or in Hk as [Hk|Hk].
      * apply deleteBlobs_gone. right. apply deleteBlobs_gone. now left.
      * apply deleteBlobs_gone. now left.
  - intros selected Hsel E.
    destruct (Controller.selectedFragment (Controller.state w)) as [s0|];
      [|discriminate].
    destruct (String.eqb (fragment_id s0) (fragment_id found)) eqn:Hs; [discriminate|].
    injection Hsel as <-. rewrite E, String.eqb_refl in Hs. discriminate.
Qed.

Lemma deleteFragment_removes_everywhere_witness :
  let w' := Controller.deleteFragment ControllerSpec.noFault
              ControllerSamples.noMessage "null" "a" ControllerSamples.holdingPlain in
  memory w' = []
  /\ fst (getFragment noFaults "a" (Some (stores w'))) = Ok None.
Proof.
  cbv zeta.
  pose proof (deleteFragment_removes_everywhere ControllerSpec.noFault
                ControllerSamples.noMessage "null" Samples.plain
                ControllerSamples.holdingPlain) as H.
  cbv zeta in H.
  change (fragment_id Samples.plain) with "a" in H.
  change (Controller.error (Controller.state
            (Controller.deleteFragment ControllerSpec.noFault
               ControllerSamples.noMessage "null" "a" ControllerSamples.holdingPlain)))
    with (@None string) in H.
  destruct H as (_ & _ & _ & Hgone & _).
  - split; [reflexivity|]. constructor; [vm_compute; reflexivity|constructor].
  - unfold distinctPayloads. cbn.
    repeat (constructor; [cbn; intuition discriminate|]). constructor.
  - now left.
  - split; [reflexivity|exact Hgone].
Defined.

(** A delete that fails after the fragment's own payload is deleted leaves
    memory and store apart: the fragment is still in memory with its blob,
    the store still has its record, but reads it back without a blob. *)
Theorem failed_delete_breaks_sync
    (fails : Manager.Request -> bool)
    (requestError : Manager.Request -> option string) (nullDereference : string)
    (found : VideoFragment) (b : Blob) (w : Controller.World) :
  inSync w ->
  In found (memory w) ->
  blob found = Some b ->
  fails (Manager.OnFragments (GetFragment (fragment_id found))) = false ->
  (forall k, In k (payloadIds found) ->
             fails (Manager.OnFragments (GetBlob k)) = false) ->
  fails (Manager.OnFragments (DeleteBlob (fragment_id found))) = false ->
  let w' := Controller.deleteFragment fails requestError nullDereference
              (fragment_id found) w in
  Controller.error (Controller.state w') <> None ->
  In found (memory w')
  /\ ~ mirrored (stores w') found
  /\ exists g,
       fst (getFragment noFaults (fragment_id found) (Some (stores w'))) = Ok (Some g)
       /\ blob g = None.
Proof.
  intros [Hopen Hmem] Hfound Hblob Hget Hblobs Hdel. cbv zeta.
  unfold Controller.deleteFragment, inSync, memory, stores in *.
  destruct (Manager_deleteFragment_run fails (fragment_id found)
              (Controller.manager w) Hopen) as (r & d' & Hrun & ->).
  rewrite List.Forall_forall in Hmem.
  destruct r as [[]|err]; simpl_world; [intros H; now contradiction H|]. intros _.
  pose proof (Hmem found Hfound) as Hm.
  apply mirrored_iff in Hm as (rec & Hrec & Hres).
  assert (Hgone : videoBlobs d' !! fragment_id found = None).
  { apply (deleteFragment_payload_gone (Manager.fragmentFaults fails)
             (fragment_id found) _ d' rec (Err err) Hrec Hget);
      [|exact Hdel|exact Hrun].
    intros k Hk. apply Hblobs. now rewrite <- Hres, payloadIds_restored. }
  apply deleteFragment_run in Hrun as (d'' & [= <-] & Hrun).
  rewrite Hrec in Hrun. destruct Hrun as (Hfr & _).
  assert (Hread : fst (getFragment noFaults (fragment_id found) (Some d'))
                  = Ok (Some (restored (videoBlobs d') rec))).
  { destruct (getFragment_run noFaults (fragment_id found) d')
      as [H|(q & Hq & _)]; [|discriminate].
    rewrite H, Hfr, Hrec. reflexivity. }
  assert (Hnone : blob (restored (videoBlobs d') rec) = None).
  { unfold restored. cbn [fragment_with_blobs blob].
    change (fragment_id rec) with (fragment_id (restored
      (videoBlobs (Manager.fragmentStores (Manager.disk (Controller.manager w)))) rec)).
    rewrite Hres. unfold lookupBlob. now rewrite Hgone. }
  split; [exact Hfound|]. split.
  - unfold mirrored. rewrite Hread. intros [= E]. rewrite <- E, Hnone in Hblob.
    discriminate.
  - eauto.
Qed.

Lemma failed_delete_breaks_sync_witness :
  let w' := Controller.deleteFragment ControllerSamples.failsOnMetadataDelete
              ControllerSamples.noMessage "null" "a" ControllerSamples.holdingPlain in
  In Samples.plain (memory w') /\ ~ mirrored (stores w') Samples.plain.
Proof.
  cbv zeta.
  destruct (failed_delete_breaks_sync ControllerSamples.failsOnMetadataDelete
              ControllerSamples.noMessage "null" Samples.plain Samples.blobA
              ControllerSamples.holdingPlain) as (Hin & Hnot & _).
  - split; [reflexivity|]. constructor; [vm_compute; reflexivity|constructor].
  - now left.
  - reflexivity.
  - reflexivity.
  - intros k _. reflexivity.
  - reflexivity.
  - cbn. discriminate.
  - split; [exact Hin|exact Hnot].
Defined.

(** *** Patterns *)

Lemma saveAllPatterns_run (fails : Manager.Request -> bool)
    (ps : list PatternInsight) (m m' : Manager.State) r :
  Manager.saveAllPatterns fails ps m = (r, m') ->
  Manager.opened m' = Manager.opened m
  /\ (forall k, ~ In k (List.map insight_id ps) ->
        Manager.patterns (Manager.disk m') !! k
        = Manager.patterns (Manager.disk m) !! k)
  /\ (Manager.opened m = true ->
      forall i, In i ps -> fails (Manager.PutPattern (insight_id i)) = false ->
      exists j, In j ps /\ insight_id j = insight_id i
                /\ Manager.patterns (Manager.disk m') !! insight_id i = Some j)
  /\ match r with
     | Manager.Resolved _ =>
         ps = []
         \/ (Manager.opened m = true
             /\ forall i, In i ps ->
                          fails (Manager.PutPattern (insight_id i)) = false)
     | Manager.Rejected _ =>
         ps <> []
         /\ (Manager.opened m = false
             \/ exists i, In i ps
                          /\ fails (Manager.PutPattern (insight_id i)) = true)
     end.
Proof.
  revert m m' r. induction ps as [|p ps IH]; intros m m' r H.
  - injection H as <- <-. repeat split; auto. intros _ i [].
  - cbn [Manager.saveAllPatterns] in H.
    destruct (Manager.savePattern fails p m) as [r1 m1] eqn:H1.
    destruct (Manager.saveAllPatterns fails ps m1) as [r2 m2] eqn:H2.
    injection H as <- <-.
    apply IH in H2 as (Ho2 & Hother2 & Hput2 & Hr2). clear IH.
    unfold Manager.savePattern in H1.
    destruct (Manager.opened m) eqn:Hopen; cbn [negb] in H1.
    2:{ injection H1 as <- <-. rewrite Hopen in *.
        split; [exact Ho2|]. split.
        - intros k Hk. apply Hother2. cbn in Hk. tauto.
        - split; [discriminate|]. split; [discriminate|]. now left. }
    destruct (fails (Manager.PutPattern (insight_id p))) eqn:Hf.
    + injection H1 as <- <-. rewrite Hopen in *.
      split; [exact Ho2|]. split; [|split].
      * intros k Hk. apply Hother2. cbn in Hk. tauto.
      * intros _ i [<-|Hi] Hfi; [congruence|].
        destruct (Hput2 eq_refl i Hi Hfi) as (j & Hj & Hid & Hst).
        exists j. split; [now right|]. split; assumption.
      * split; [discriminate|]. right. exists p. split; [now left|exact Hf].
    + injection H1 as <- <-. cbn [Manager.with_patterns Manager.opened Manager.disk
                                   Manager.patterns] in *.
      rewrite Hopen in *.
      split; [exact Ho2|]. split; [|split].
      * intros k Hk. cbn in Hk. rewrite Hother2 by tauto.
        apply lookup_insert_ne. tauto.
      * intros _ i Hi Hfi.
        destruct (in_dec string_dec (insight_id i) (List.map insight_id ps))
          as [Hlater|Hlast].
        -- apply in_map_iff in Hlater as (i' & Hid' & Hi').
           destruct (Hput2 eq_refl i' Hi') as (j & Hj & Hid & Hst);
             [now rewrite Hid'|].
           exists j. split; [now right|]. split; congruence.
        -- destruct Hi as [<-|Hi]; [|exfalso; apply Hlast; now apply in_map].
           exists p. split; [now left|]. split; [reflexivity|].
           rewrite Hother2 by exact Hlast. apply lookup_insert_eq.
      * destruct r2 as [[]|e2].
        -- right. split; [reflexivity|]. intros i [<-|Hi]; [exact Hf|].
           destruct Hr2 as [->|[_ Hall]]; [destruct Hi|now apply Hall].
        -- split; [discriminate|]. right.
           destruct Hr2 as [_ [Hc|(i & Hi & Hfi)]]; [discriminate|].
           exists i. split; [now right|exact Hfi].
Qed.

(** An analysis asks for every insight it finds to be stored, whatever
    becomes of the others: the patterns under other ids stay on disk, and
    every insight whose own put goes through is on disk afterwards and is
    among what [getPatterns] returns.  No error is shown exactly when nothing
    was found or the database is open and no put fails, and then memory takes
    the insights found; as soon as one put fails, or the database is not open
    and something was found, an error is shown and memory keeps the old
    patterns.  Either way the loading flag is cleared. *)
Theorem analyzePatterns_stores_what_it_can
    (host : Engine.Host) (fails : Manager.Request -> bool)
    (requestError : Manager.Request -> option string) (nullDereference : string)
    (w : Controller.World) :
  let found :=
    fst (Engine.analyzeEmotionalPatterns host (memory w) (Controller.calls w)) in
  let w' := Controller.analyzePatterns host fails requestError nullDereference w in
  (forall k, ~ In k (List.map insight_id found) ->
             storedPatterns w' !! k = storedPatterns w !! k)
  /\ (Manager.opened (Controller.manager w) = true ->
      forall i, In i found -> fails (Manager.PutPattern (insight_id i)) = false ->
      exists j, In j found /\ insight_id j = insight_id i
                /\ storedPatterns w' !! insight_id i = Some j
                /\ (fails Manager.GetAllPatterns = false ->
                    exists all,
                      fst (Manager.getPatterns fails (Controller.manager w'))
                      = Manager.Resolved all
                      /\ In j all))
  /\ (Controller.error (Controller.state w') = None
      <-> found = []
          \/ (Manager.opened (Controller.manager w) = true
              /\ forall i, In i found ->
                           fails (Manager.PutPattern (insight_id i)) = false))
  /\ match Controller.error (Controller.state w') with
     | None => Controller.patterns (Controller.state w') = found
     | Some _ =>
         Controller.patterns (Controller.state w')
         = Controller.patterns (Controller.state w)
         /\ found <> []
         /\ (Manager.opened (Controller.manager w) = false
             \/ exists i, In i found
                          /\ fails (Manager.PutPattern (insight_id i)) = true)
     end
  /\ Controller.isLoading (Controller.state w') = false.
Proof.
  cbv zeta. unfold Controller.analyzePatterns, storedPatterns, memory.
  change (Controller.fragments (Controller.begin (Controller.state w)))
    with (Controller.fragments (Controller.state w)).
  destruct (Engine.analyzeEmotionalPatterns host
              (Controller.fragments (Controller.state w)) (Controller.calls w))
    as [found c1].
  cbn [fst].
  destruct (Manager.saveAllPatterns fails found (Controller.manager w))
    as [r m1] eqn:Hrun.
  apply saveAllPatterns_run in Hrun as (Hopen & Hother & Hput & Hr).
  assert (Hread : Manager.opened (Controller.manager w) = true ->
            forall i, In i found ->
            fails (Manager.PutPattern (insight_id i)) = false ->
            exists j, In j found /\ insight_id j = insight_id i
              /\ Manager.patterns (Manager.disk m1) !! insight_id i = Some j
              /\ (fails Manager.GetAllPatterns = false ->
                  exists all,
                    fst (Manager.getPatterns fails m1) = Manager.Resolved all
                    /\ In j all)).
  { intros Ho i Hi Hfi. destruct (Hput Ho i Hi Hfi) as (j & Hj & Hid & Hst).
    exists j. repeat split; auto. intros Hget.
    unfold Manager.getPatterns. rewrite Hopen, Ho, Hget. cbn [negb fst].
    eexists. split; [reflexivity|]. exact (In_recordsByKey _ _ _ Hst). }
  destruct r as [[]|e]; simpl_world.
  - split; [exact Hother|]. split; [exact Hread|].
    split; [split; [intros _; exact Hr|reflexivity]|]. split; reflexivity.
  - split; [exact Hother|]. split; [exact Hread|].
    destruct Hr as [Hne Hwhy]. split.
    + split; [discriminate|]. intros [->|[Ho Hall]]; [now contradiction Hne|].
      exfalso. destruct Hwhy as [Hc|(i & Hi & Hfi)]; [congruence|].
      rewrite (Hall i Hi) in Hfi. discriminate.
    + split; [|reflexivity]. split; [reflexivity|]. split; [exact Hne|exact Hwhy].
Qed.

(** *** Sessions *)

Lemma Manager_saveFragment_noFault (f : VideoFragment) (m : Manager.State) :
  Manager.opened m = true ->
  Manager.saveFragment noFault f m
  = (Manager.Resolved tt,
     Manager.with_fragmentStores
       (afterSave f (Manager.fragmentStores (Manager.disk m))) m).
Proof.
  intros H. unfold Manager.saveFragment, Manager.onFragments, Manager.handle.
  rewrite H.
  rewrite (proj2 (saveFragment_ok_iff (Manager.fragmentFaults noFault) f
                    (Manager.fragmentStores (Manager.disk m)) _)
             (conj (fun _ _ => eq_refl) (conj eq_refl eq_refl))).
  reflexivity.
Qed.

Lemma saveEach_in_session
    (requestError : Manager.Request -> option string) (nullDereference : string)
    (fs : list VideoFragment) (w : Controller.World)
    (session : Manager.ReflectionSession) :
  Manager.opened (Controller.manager w) = true ->
  Controller.currentSession (Controller.state w) = Some session ->
  let w' := saveEach noFault requestError nullDereference fs w in
  Manager.opened (Controller.manager w') = true
  /\ Controller.calls w' = Controller.calls w
  /\ memory w' = memory w ++ fs
  /\ exists session',
       Controller.currentSession (Controller.state w') = Some session'
       /\ Manager.session_id session' = Manager.session_id session
       /\ Manager.startTime session' = Manager.startTime session
       /\ Manager.theme session' = Manager.theme session
       /\ Manager.session_patterns session' = Manager.session_patterns session
       /\ Manager.session_fragments session'
          = Manager.session_fragments session ++ List.map fragment_id fs.
Proof.
  revert w session. induction fs as [|f fs IH]; intros w session Hopen Hs; cbv zeta.
  - cbn. rewrite !app_nil_r. repeat split; eauto 10.
  - cbn [saveEach fold_left].
    set (w1 := Controller.saveFragment noFault requestError nullDereference f w).
    assert (H1 : Manager.opened (Controller.manager w1) = true
                 /\ Controller.calls w1 = Controller.calls w
                 /\ memory w1 = memory w ++ [f]
                 /\ Controller.currentSession (Controller.state w1)
                    = Some {| Manager.session_id := Manager.session_id session;
                              Manager.startTime := Manager.startTime session;
                              Manager.endTime := Manager.endTime session;
                              Manager.session_fragments :=
                                Manager.session_fragments session ++ [fragment_id f];
                              Manager.theme := Manager.theme session;
                              Manager.insights := Manager.insights session;
                              Manager.session_patterns :=
                                Manager.session_patterns session |}).
    { unfold w1, Controller.saveFragment, memory.
      rewrite (Manager_saveFragment_noFault f _ Hopen). simpl_world. rewrite Hs.
      unfold Manager.saveSession. simpl_world. rewrite Hopen.
      cbn [negb noFault]. simpl_world. auto. }
    destruct H1 as (Hopen1 & Hc1 & Hm1 & Hs1).
    destruct (IH w1 _ Hopen1 Hs1) as (Ho & Hc & Hm & s' & Hs' & Hid & Hst & Hth & Hp & Hfr).
    fold (saveEach noFault requestError nullDereference fs w1).
    cbn [Manager.session_id Manager.startTime Manager.theme Manager.session_patterns
         Manager.session_fragments] in *.
    split; [exact Ho|]. split; [congruence|].
    split; [rewrite Hm, Hm1, <- app_assoc; reflexivity|].
    exists s'. repeat split; auto.
    rewrite Hfr, <- app_assoc. reflexivity.
Qed.

(** When no request fails, a session records the fragments saved while it
    is active: after saving [fs] one by one and ending the session, the
    sessions store holds it with the ids of [fs] added in order, the end
    time and the insights, no session is active, and memory lists [fs]. *)
Theorem session_records_saved_fragments
    (host : Engine.Host)
    (requestError : Manager.Request -> option string) (nullDereference : string)
    (fs : list VideoFragment) (notes : list string) (w : Controller.World)
    (session : Manager.ReflectionSession) :
  Manager.opened (Controller.manager w) = true ->
  Controller.currentSession (Controller.state w) = Some session ->
  let w' :=
    Controller.endSession host noFault requestError nullDereference notes
      (saveEach noFault requestError nullDereference fs w) in
  Controller.currentSession (Controller.state w') = None
  /\ Controller.error (Controller.state w') = None
  /\ memory w' = memory w ++ fs
  /\ storedSessions w' !! Manager.session_id session
     = Some (completed session (List.map fragment_id fs)
               (inject_Z (Engine.Date_now host
                            (Engine.clockReads (Controller.calls w))))
               notes).
Proof.
  intros Hopen Hs. cbv zeta.
  destruct (saveEach_in_session requestError nullDereference fs w session Hopen Hs)
    as (Ho & Hc & Hm & s' & Hs' & Hid & Hst & Hth & Hp & Hfr).
  unfold Controller.endSession, storedSessions, memory in *. rewrite Hs'.
  unfold Engine.now. rewrite Hc.
  unfold Manager.saveSession. simpl_world. rewrite Ho. cbn [negb noFault].
  simpl_world. cbn [Manager.session_id]. rewrite Hid.
  split; [reflexivity|]. split; [reflexivity|]. split; [exact Hm|].
  rewrite lookup_insert_eq. unfold completed. now rewrite Hst, Hth, Hp, Hfr.
Qed.

Lemma session_records_saved_fragments_witness :
  let started :=
    Controller.startSession ControllerSamples.host ControllerSamples.randomBase36 None
      (Controller.loadFragments noFault ControllerSamples.noMessage "null"
         (Controller.initialWorld ControllerSamples.emptyDisk)) in
  let w' :=
    Controller.endSession ControllerSamples.host noFault ControllerSamples.noMessage
      "null" ["clearer"]
      (saveEach noFault ControllerSamples.noMessage "null"
         [Samples.plain; EngineSamples.fromTheFuture] started) in
  exists session,
    storedSessions w' !! "session-1000-k3j9x2m1q" = Some session
    /\ Manager.session_fragments session = ["a"; "f1"]
    /\ Manager.insights session = ["clearer"].
Proof.
  cbv zeta.
  destruct (session_records_saved_fragments ControllerSamples.host
              ControllerSamples.noMessage "null"
              [Samples.plain; EngineSamples.fromTheFuture] ["clearer"]
              (Controller.startSession ControllerSamples.host
                 ControllerSamples.randomBase36 None
                 (Controller.loadFragments noFault ControllerSamples.noMessage "null"
                    (Controller.initialWorld ControllerSamples.emptyDisk)))
              {| Manager.session_id := "session-1000-k3j9x2m1q";
                 Manager.startTime := 1000;
                 Manager.endTime := None;
                 Manager.session_fragments := [];
                 Manager.theme := None;
                 Manager.insights := [];
                 Manager.session_patterns := [] |})
    as (_ & _ & _ & Hstored).
  - reflexivity.
  - reflexivity.
  - eexists. split; [exact Hstored|]. split; reflexivity.
Defined.

End ControllerFacts.
